(** * GenCard: layout geometry, border footprint, frame assembly and card
      composition of the card compositor, embedded from the TypeScript sources

    Sources embedded here (paths relative to the repository):
    - [frontend/src/constants/scaleConfig.ts]      scale presets, [scaleRect]
    - [backend/src/services/borderRenderer.ts]     border footprint and gap checks
    - [backend/src/services/blurConfig.ts]         blur presets
    - [backend/src/services/framePresets.ts]       ornamental frame presets
    - [backend/src/services/frameRenderer.ts]      frame assembly
    - [backend/src/services/assetLoader.ts]        asset existence check
    - [backend/src/services/cardComposer.ts]       layout catalogue, text
                                                    wrapping, [composeCard]

    The program is written once over an interface [JsNumber] of the
    arithmetic it uses on JavaScript numbers.  Two instances are given:
    IEEE 754 binary64 (the numbers the program really runs on, built on the
    axiom-free [SpecFloat] operations of the standard library, so that every
    rounding of [x * 0.7] is the one the engine performs), and exact
    rationals, on which the algebraic facts about border footprints and gaps
    are proved. *)

From Stdlib Require Import ZArith QArith Qround Qabs Qminmax Lqa Lia.
From Stdlib Require Import List String Ascii Bool DecimalString.
From Stdlib Require Import Floats.SpecFloat.
Import ListNotations.

Set Implicit Arguments.
#[local] Set Warnings "-register-all".

(* ================================================================== *)
(** * JavaScript values used by the program *)
(* ================================================================== *)

(** Results of [Math.floor], [Math.ceil] and [Math.round]: an integer, an
    infinity or NaN.  (The sign of a zero result is not tracked; nothing in
    the program observes it.) *)
Inductive xint : Type :=
| XFin (z : Z)
| XPosInf
| XNegInf
| XNaN.

(** [a <= b] on such values, as [<=] of JavaScript: false when either side
    is NaN. *)
Definition xint_leb (a b : xint) : bool :=
  match a, b with
  | XNaN, _ | _, XNaN => false
  | XNegInf, _ => true
  | _, XPosInf => true
  | XFin a, XFin b => (a <=? b)%Z
  | XFin _, XNegInf => false
  | XPosInf, _ => false
  end.

(** [a > b] is [b < a]; on these values [b < a] is [b <= a] and not
    [a <= b]. *)
Definition xint_ltb (a b : xint) : bool :=
  xint_leb a b && negb (xint_leb b a).

Definition xint_add (a b : xint) : xint :=
  match a, b with
  | XNaN, _ | _, XNaN => XNaN
  | XPosInf, XNegInf | XNegInf, XPosInf => XNaN
  | XPosInf, _ | _, XPosInf => XPosInf
  | XNegInf, _ | _, XNegInf => XNegInf
  | XFin a, XFin b => XFin (a + b)
  end.

(** The arithmetic the program uses on numbers. *)
Class JsNumber (num : Type) : Type := {
  of_Z : Z -> num;                      (* an integer literal *)
  frac : Z -> Z -> num;                 (* the decimal literal p/q, e.g. 0.95 = 95/100 *)
  add : num -> num -> num;
  sub : num -> num -> num;
  mul : num -> num -> num;
  div : num -> num -> num;
  ltb : num -> num -> bool;               (* a < b *)
  leb : num -> num -> bool;               (* a <= b *)
  eqb : num -> num -> bool;               (* a === b *)
  Math_abs : num -> num;
  Math_min : num -> num -> num;
  Math_max : num -> num -> num;
  floor_x : num -> xint;                (* Math.floor *)
  ceil_x : num -> xint;                 (* Math.ceil *)
  round_x : num -> xint;                (* Math.round: nearest, ties towards +oo *)
  of_xint : xint -> num
}.

Declare Scope js_scope.
Delimit Scope js_scope with js.
Infix "+" := add : js_scope.
Infix "-" := sub : js_scope.
Infix "*" := mul : js_scope.
Infix "/" := div : js_scope.
Infix "<?" := ltb : js_scope.
Infix "<=?" := leb : js_scope.
Notation "a >? b" := (ltb b a) : js_scope.
Notation "a >=? b" := (leb b a) : js_scope.
Infix "===" := eqb (at level 70, no associativity) : js_scope.

Definition Math_floor {num} `{JsNumber num} (a : num) : num := of_xint (floor_x a).
Definition Math_ceil {num} `{JsNumber num} (a : num) : num := of_xint (ceil_x a).
Definition Math_round {num} `{JsNumber num} (a : num) : num := of_xint (round_x a).

(** [Number.isInteger(a)]: a finite number that is its own floor. *)
Definition Number_isInteger {num} `{JsNumber num} (a : num) : bool :=
  match floor_x a with
  | XFin z => eqb (of_Z z) a
  | _ => false
  end.

(** [Number.isInteger(a) && a > 0] *)
Definition isPositiveInteger {num} `{JsNumber num} (a : num) : bool :=
  Number_isInteger a && ltb (of_Z 0) a.

(* ------------------------------------------------------------------ *)
(** ** IEEE 754 binary64 *)
(* ------------------------------------------------------------------ *)

Module Double.

Definition prec : Z := 53.
Definition emax : Z := 1024.

Definition t : Type := spec_float.

(** An integer, rounded to the nearest double (exact below 2^53). *)
Definition of_Z (z : Z) : t := binary_normalize prec emax z 0 false.

(** A decimal literal [p/q]: the division of two exactly represented
    integers is correctly rounded, which is the double the literal denotes. *)
Definition frac (p q : Z) : t := SFdiv prec emax (of_Z p) (of_Z q).

Definition is_nan (a : t) : bool :=
  match a with S754_nan => true | _ => false end.

Definition min (a b : t) : t :=
  if is_nan a || is_nan b then S754_nan
  else if SFltb b a then b else a.

Definition max (a b : t) : t :=
  if is_nan a || is_nan b then S754_nan
  else if SFltb a b then b else a.

(** The signed mantissa of a finite double [m * 2^e]. *)
Definition signed (s : bool) (m : positive) : Z :=
  if s then Z.neg m else Z.pos m.

Definition floor_x (a : t) : xint :=
  match a with
  | S754_zero _ => XFin 0
  | S754_infinity s => if s then XNegInf else XPosInf
  | S754_nan => XNaN
  | S754_finite s m e =>
      if (0 <=? e)%Z then XFin (signed s m * 2 ^ e)
      else XFin (signed s m / 2 ^ (- e))
  end.

Definition ceil_x (a : t) : xint :=
  match a with
  | S754_zero _ => XFin 0
  | S754_infinity s => if s then XNegInf else XPosInf
  | S754_nan => XNaN
  | S754_finite s m e =>
      if (0 <=? e)%Z then XFin (signed s m * 2 ^ e)
      else XFin (- ((- signed s m) / 2 ^ (- e)))
  end.

(** [Math.round a] is [floor (a + 1/2)] computed without rounding. *)
Definition round_x (a : t) : xint :=
  match a with
  | S754_zero _ => XFin 0
  | S754_infinity s => if s then XNegInf else XPosInf
  | S754_nan => XNaN
  | S754_finite s m e =>
      if (0 <=? e)%Z then XFin (signed s m * 2 ^ e)
      else XFin ((2 * signed s m + 2 ^ (- e)) / (2 * 2 ^ (- e)))
  end.

Definition of_xint (a : xint) : t :=
  match a with
  | XFin z => of_Z z
  | XPosInf => S754_infinity false
  | XNegInf => S754_infinity true
  | XNaN => S754_nan
  end.

(** The double of a non-zero integer of at most 53 bits, given by its sign
    and absolute value: the mantissa is the integer shifted up to 53 bits. *)
Definition normal (s : bool) (z : positive) : t :=
  S754_finite s (Pos.shiftl z (Z.to_N (53 - Z.pos (Pos.size z))))
    (Z.pos (Pos.size z) - 53).

(** The integer a double denotes, when it denotes one. *)
Definition to_Z (a : t) : option Z :=
  match a with
  | S754_zero _ => Some 0%Z
  | S754_finite s m e =>
      if (0 <=? e)%Z then Some (signed s m * 2 ^ e)%Z
      else if (signed s m mod 2 ^ (- e) =? 0)%Z
           then Some (signed s m / 2 ^ (- e))%Z else None
  | _ => None
  end.

End Double.

#[export] Instance double_number : JsNumber Double.t := {
  of_Z := Double.of_Z;
  frac := Double.frac;
  add := SFadd Double.prec Double.emax;
  sub := SFsub Double.prec Double.emax;
  mul := SFmul Double.prec Double.emax;
  div := SFdiv Double.prec Double.emax;
  ltb := SFltb;
  leb := SFleb;
  eqb := SFeqb;
  Math_abs := SFabs;
  Math_min := Double.min;
  Math_max := Double.max;
  floor_x := Double.floor_x;
  ceil_x := Double.ceil_x;
  round_x := Double.round_x;
  of_xint := Double.of_xint
}.

(* ------------------------------------------------------------------ *)
(** ** Exact rationals *)
(* ------------------------------------------------------------------ *)

Module Exact.

Definition frac (p q : Z) : Q := Qmake p (Z.to_pos q).

Definition ltb (a b : Q) : bool := negb (Qle_bool b a).

Definition of_xint (a : xint) : Q :=
  match a with
  | XFin z => inject_Z z
  | _ => 0%Q      (* not produced by floor, ceil or round of a rational *)
  end.

End Exact.

#[export] Instance exact_number : JsNumber Q := {
  of_Z := inject_Z;
  frac := Exact.frac;
  add := Qplus;
  sub := Qminus;
  mul := Qmult;
  div := Qdiv;
  ltb := Exact.ltb;
  leb := Qle_bool;
  eqb := Qeq_bool;
  Math_abs := Qabs;
  Math_min := Qmin;
  Math_max := Qmax;
  floor_x := fun a => XFin (Qfloor a);
  ceil_x := fun a => XFin (Qceiling a);
  round_x := fun a => XFin (Qfloor (a + (1 # 2)));
  of_xint := Exact.of_xint
}.

(* ================================================================== *)
(** * Data model *)
(* ================================================================== *)

(** [FrameRect] / [ScalableRect]: the universal geometry primitive. *)
Module FrameRect.
Record t (num : Type) : Type := mk { x : num; y : num; width : num; height : num }.
End FrameRect.

(** [TextBoxRect] / [ScalableRectWithId]: a rect with a stable id. *)
Module TextBoxRect.
Record t (num : Type) : Type := mk { id : string; rect : FrameRect.t num }.
Definition x {num} (b : t num) : num := FrameRect.x (rect b).
Definition y {num} (b : t num) : num := FrameRect.y (rect b).
Definition width {num} (b : t num) : num := FrameRect.width (rect b).
Definition height {num} (b : t num) : num := FrameRect.height (rect b).
End TextBoxRect.

Module Canvas.
Record t (num : Type) : Type := mk { width : num; height : num }.
End Canvas.

(** [LayoutConfig] / [ScalableLayoutConfig]. *)
Module LayoutConfig.
Record t (num : Type) : Type := mk {
  canvas : Canvas.t num;
  artworkFrame : FrameRect.t num;
  titleBox : TextBoxRect.t num;
  contentBoxes : list (TextBoxRect.t num)
}.
End LayoutConfig.

Inductive ScalePreset : Type := standard | moderate | compact | slim | mini.

Module ScaleConfig.
Record t (num : Type) : Type := mk { factor : num; name : string }.
End ScaleConfig.

Inductive LayoutVariant : Type :=
| landscape_square | landscape_flat | portrait_square | portrait_flat.

Inductive LayoutMode : Type := landscape | portrait.

Inductive CropAnchor : Type := anchor_top | anchor_center | anchor_bottom.

(** *** borderRenderer.ts *)

Module OuterGlowConfig.
Record t (num : Type) : Type :=
  mk { blur : num; opacity : num; spread : num; color : string }.
End OuterGlowConfig.

Inductive GlowIntensity : Type :=
| glow_subtle | glow_medium | glow_strong | glow_none.

Module DoubleLineBorderStyle.
Record t (num : Type) : Type := mk {
  outerWidth : num;
  innerWidth : num;
  gap : num;
  outerGradient : list string;
  innerStrokeColor : string;
  innerStrokeOpacity : num
}.
(** [Partial<DoubleLineBorderStyle>]: each property present or absent. *)
Record partial (num : Type) : Type := mkPartial {
  outerWidth' : option num;
  innerWidth' : option num;
  gap' : option num;
  outerGradient' : option (list string);
  innerStrokeColor' : option string;
  innerStrokeOpacity' : option num
}.
End DoubleLineBorderStyle.

Module BorderDimensions.
Record t (num : Type) : Type := mk {
  outerWidth : num;
  gap : num;
  innerWidth : num;
  innerStroke : num;
  glowPadding : num
}.
End BorderDimensions.

(** *** textureConfig.ts, blurConfig.ts *)

Inductive TextureType : Type :=
| matte_paper | silk | ink_wash | texture_none.

Inductive TexturePattern : Type :=
| noise | diagonal_lines | cloud | pattern_none.

Module TextureConfig.
Record t (num : Type) : Type := mk {
  id : TextureType; name : string; pattern : TexturePattern;
  opacity : num; scale : num
}.
End TextureConfig.

Module BlurConfig.
Record t (num : Type) : Type :=
  mk { id : string; name : string; blur : num; opacity : num }.
End BlurConfig.

(** *** types/frame.ts *)

Inductive CornerPosition : Type :=
| top_left | top_right | bottom_left | bottom_right.

Inductive BorderPosition : Type :=
| border_top | border_right | border_bottom | border_left.

Module ColorScheme.
Record t : Type := mk { primary : string; secondary : string; accent : string }.
End ColorScheme.

Module FramePresetConfig.
Record t (num : Type) : Type := mk {
  id : string;
  name : string;
  description : string;
  cornerAsset : string;
  borderAsset : string;
  cornerSize : num;
  borderThickness : num;
  insetOffset : num;
  colorScheme : ColorScheme.t
}.
End FramePresetConfig.

Module FrameRenderOptions.
Record t (num : Type) : Type := mk {
  presetId : string;
  cardWidth : num;
  cardHeight : num;
  layoutVariant : option LayoutVariant;
  insetOffset : option num;
  borderThickness : option num
}.
End FrameRenderOptions.

Module CornerTransform.
Record t : Type := mk { flipHorizontal : bool; flipVertical : bool }.
End CornerTransform.

Module Position.
Record t (num : Type) : Type := mk { x : num; y : num }.
End Position.

(** [BorderDimensions] of types/frame.ts: placement of an edge strip. *)
Module StripDimensions.
Record t (num : Type) : Type := mk { x : num; y : num; width : num; height : num }.
End StripDimensions.

(** *** Strings, property lookup, images *)

(** A JavaScript string: its UTF-16 code units. *)
Definition jsstring : Type := list N.

(** An ASCII literal as a JavaScript string. *)
Definition js_of_string (s : string) : jsstring :=
  map N_of_ascii (list_ascii_of_string s).

(** [s.trim() === ''] on a path: only white space (ASCII paths). *)
Definition is_space (c : ascii) : bool :=
  let n := nat_of_ascii c in
  ((9 <=? n) && (n <=? 13))%nat || (n =? 32)%nat.

Definition string_blank (s : string) : bool :=
  forallb is_space (list_ascii_of_string s).

Definition to_lower (c : ascii) : ascii :=
  let n := nat_of_ascii c in
  if ((65 <=? n) && (n <=? 90))%nat then ascii_of_nat (n + 32) else c.

Definition toLowerCase (s : string) : string :=
  string_of_list_ascii (map to_lower (list_ascii_of_string s)).

(** The characters before the first [c], and what follows it if it occurs. *)
Fixpoint take_until (c : ascii) (l : list ascii) : list ascii * option (list ascii) :=
  match l with
  | [] => ([], None)
  | a :: l' =>
      if Ascii.eqb a c then ([], Some l')
      else let (p, r) := take_until c l' in (a :: p, r)
  end.

(** [path.extname]: from the last dot of the last path segment, unless that
    dot starts the segment. *)
Definition extname (p : string) : string :=
  let rbase := fst (take_until "/" (rev (list_ascii_of_string p))) in
  match take_until "." rbase with
  | (rext, Some (_ :: _)) => String "." (string_of_list_ascii (rev rext))
  | _ => EmptyString
  end.

(** The decimal numeral of an index, as in a template literal. *)
Definition string_of_nat (n : nat) : string :=
  NilZero.string_of_uint (Nat.to_uint n).

(** White space of [String.prototype.trim], by code unit. *)
Definition is_js_whitespace (c : N) : bool :=
  (((9 <=? c) && (c <=? 13)) || (c =? 32) || (c =? 160) || (c =? 5760)
   || ((8192 <=? c) && (c <=? 8202)) || (c =? 8232) || (c =? 8233)
   || (c =? 8239) || (c =? 8287) || (c =? 12288) || (c =? 65279))%N.

Fixpoint trimStart (s : jsstring) : jsstring :=
  match s with
  | c :: s' => if is_js_whitespace c then trimStart s' else s
  | [] => []
  end.

Definition trim (s : jsstring) : jsstring :=
  rev (trimStart (rev (trimStart s))).

(** [text.split('\n')] *)
Fixpoint split_lines (s : jsstring) : list jsstring :=
  match s with
  | [] => [[]]
  | c :: s' =>
      if (c =? 10)%N then [] :: split_lines s'
      else match split_lines s' with
           | p :: ps => (c :: p) :: ps
           | [] => [[c]]
           end
  end.

(** The index a number argument of [substring] denotes in a string of
    length [len]: NaN and negatives are 0, larger values are [len]. *)
Definition to_index (v : xint) (len : nat) : nat :=
  match v with
  | XFin z => Nat.min (Z.to_nat z) len
  | XPosInf => len
  | XNegInf | XNaN => 0
  end.

(** [s.substring(start, end)]; the two indices are swapped when out of order. *)
Definition substring (s : jsstring) (start : xint) (end_ : option xint) : jsstring :=
  let len := List.length s in
  let a := to_index start len in
  let b := match end_ with Some e => to_index e len | None => len end in
  firstn (Nat.max a b - Nat.min a b) (skipn (Nat.min a b) s).

(** [TextBoxConfig] of types/index.ts. *)
Module TextBoxConfig.
Record t : Type := mk { id : string; text : jsstring }.
End TextBoxConfig.

(** The outcome of [table[key]] on an object literal: an own property, a
    member inherited from [Object.prototype] (a truthy value that is not an
    entry of the table), or [undefined]. *)
Inductive Lookup (A : Type) : Type :=
| Own (a : A)
| Inherited (key : string)
| Missing.
Arguments Inherited {A} key.
Arguments Missing {A}.

Definition OBJECT_PROTOTYPE_KEYS : list string :=
  [ "constructor"; "__proto__"; "hasOwnProperty"; "isPrototypeOf";
    "propertyIsEnumerable"; "toLocaleString"; "toString"; "valueOf";
    "__defineGetter__"; "__defineSetter__"; "__lookupGetter__";
    "__lookupSetter__" ]%string.

Definition string_mem (key : string) (keys : list string) : bool :=
  existsb (String.eqb key) keys.

Fixpoint own_property {A} (table : list (string * A)) (key : string) : option A :=
  match table with
  | [] => None
  | (k, v) :: rest => if String.eqb key k then Some v else own_property rest key
  end.

Definition js_lookup {A} (table : list (string * A)) (key : string) : Lookup A :=
  match own_property table key with
  | Some v => Own v
  | None => if string_mem key OBJECT_PROTOTYPE_KEYS then Inherited key else Missing
  end.

(** The documents handed to the rasteriser, each named after the function
    that writes its markup and carrying that function's arguments. *)
Inductive SvgDoc (num : Type) : Type :=
| DoubleLineBorderSvg (width height : num)
    (style : DoubleLineBorderStyle.t num) (uniqueId : string)
    (glow : OuterGlowConfig.t num)
| DoubleLineRoundedBorderSvg (width height : num)
    (style : DoubleLineBorderStyle.t num) (borderRadius : num)
    (uniqueId : string) (glow : OuterGlowConfig.t num)
| TextBoxBackgroundSvg (width height : num) (gradientColors : list string)
    (texture : TextureConfig.t num) (blur : Lookup (BlurConfig.t num))
| TextSvg (lines : list jsstring) (width height fontSize : num).

Definition svg_width {num} (d : SvgDoc num) : num :=
  match d with
  | DoubleLineBorderSvg w _ _ _ _ => w
  | DoubleLineRoundedBorderSvg w _ _ _ _ _ => w
  | TextBoxBackgroundSvg w _ _ _ _ => w
  | TextSvg _ w _ _ => w
  end.

Definition svg_height {num} (d : SvgDoc num) : num :=
  match d with
  | DoubleLineBorderSvg _ h _ _ _ => h
  | DoubleLineRoundedBorderSvg _ h _ _ _ _ => h
  | TextBoxBackgroundSvg _ h _ _ _ => h
  | TextSvg _ _ h _ => h
  end.

Inductive Fit : Type := fit_cover | fit_fill.

(** An entry of the list given to [sharp(...).composite]. *)
Module Overlay.
Record t (B num : Type) : Type := mk { input : B; left : num; top : num }.
End Overlay.

(** A [Buffer] of image bytes: bytes supplied from outside, the bytes
    [loadAsset] yields for a path, or the PNG a [sharp] pipeline produces,
    described by the pipeline.  The last argument of [Resized] is the
    [position] of a cover fit or the [kernel] of a fill. *)
Inductive Buffer (num : Type) : Type :=
| Raw (bytes : list Byte.byte)
| AssetFile (path : string)
| Rasterized (doc : SvgDoc num)
| Resized (src : Buffer num) (width height : num) (fit : Fit) (how : string)
| Rotated (src : Buffer num) (angle : Z)
| Flipped (src : Buffer num)
| Flopped (src : Buffer num)
| Composited (base : Buffer num) (layers : list (Overlay.t (Buffer num) num)).
Arguments Raw {num} bytes.
Arguments AssetFile {num} path.

Inductive BorderPreset : Type := gold | silver | bronze.

(** [ComposeCardOptions] of cardComposer.ts; [None] is an omitted property. *)
Module ComposeCardOptions.
Record t (num : Type) : Type := mk {
  backgroundBuffer : Buffer num;
  artworkBuffer : Buffer num;
  textBoxes : list TextBoxConfig.t;
  textBoxColorId : option string;
  layoutMode : option LayoutMode;
  layoutVariant : option LayoutVariant;
  borderPreset : option BorderPreset;
  textureType : option TextureType;
  blurIntensity : option string;
  glowIntensity : option GlowIntensity;
  scalePreset : option ScalePreset;
  cropAnchor : option CropAnchor
}.
End ComposeCardOptions.

(** *** Effects *)

Inductive Error : Type :=
| INVALID_PRESET (id : string)
| ASSET_NOT_FOUND (path : option string)
| UnsupportedAssetFormat (path : string)
| EmptyArtwork                       (* '原画图像数据为空' *)
| UnreadableArtworkSize              (* '无法读取原画图像尺寸' *)
| UnsupportedImage                   (* sharp rejects the input bytes *)
| InvalidParameter (name : string)   (* sharp rejects an argument:
                                        'Expected positive integer for width',
                                        'Expected integer for left', ... *)
| CompositeTooLarge                  (* 'Image to composite must have same
                                        dimensions or smaller' *)
| InvalidMarkup                      (* the rasteriser rejects the SVG text *)
| InvalidArrayLength.                (* RangeError: an array grown without end *)

(** A call returns, throws, or does not return. *)
Inductive Outcome (A : Type) : Type :=
| Ok (a : A)
| Throw (e : Error)
| Diverge.
Arguments Throw {A} e.
Arguments Diverge {A}.

Definition is_ok {A} (o : Outcome A) : bool :=
  match o with Ok _ => true | _ => false end.

Definition is_error {A} (o : Outcome A) : bool :=
  match o with Throw _ => true | _ => false end.

(** The messages of [validateLayoutBorders], content boxes numbered from 1
    as in the messages. *)
Inductive LayoutIssue : Type :=
| ArtworkBorderOutsideCanvas
| TitleBorderOutsideCanvas
| ContentBorderOutsideCanvas (i : nat)
| ArtworkTitleGapTooSmall
| TitleContentGapTooSmall (i : nat)
| ContentContentGapTooSmall (i j : nat).

(** The value [{ valid, errors }] of [validateLayoutBorders]. *)
Module LayoutValidation.
Record t : Type := mk { valid : bool; errors : list LayoutIssue }.
End LayoutValidation.

(** What the process keeps between statements: the asset cache of
    assetLoader.ts and what was written with [console.warn]. *)
Module World.
Record t (num : Type) : Type := mk {
  assetCache : list (string * Buffer num);
  warnings : list (list LayoutIssue)
}.
End World.

Definition M (num A : Type) : Type := World.t num -> Outcome A * World.t num.

Definition ret {num A} (a : A) : M num A := fun w => (Ok a, w).

Definition bind {num A B} (m : M num A) (k : A -> M num B) : M num B :=
  fun w =>
    match m w with
    | (Ok a, w') => k a w'
    | (Throw e, w') => (Throw e, w')
    | (Diverge, w') => (Diverge, w')
    end.

Definition throw {num A} (e : Error) : M num A := fun w => (Throw e, w).

Definition diverge {num A} : M num A := fun w => (Diverge, w).

Definition console_warn {num} (line : list LayoutIssue) : M num unit :=
  fun w => (Ok tt, World.mk (World.assetCache w) (World.warnings w ++ [line])).

Definition lift_outcome {num A} (o : Outcome A) : M num A := fun w => (o, w).

Declare Scope monad_scope.
Delimit Scope monad_scope with monad.
Notation "x <- m ;; k" := (bind m (fun x => k))
  (at level 61, m at next level, right associativity) : monad_scope.
Notation "m ;;; k" := (bind m (fun _ => k))
  (at level 61, right associativity) : monad_scope.

(** [for (...) { ... }] over a list, threading an accumulator. *)
Fixpoint foldM {num A B} (f : B -> A -> M num B) (l : list A) (acc : B) : M num B :=
  match l with
  | [] => ret acc
  | a :: l' => bind (f acc a) (foldM f l')
  end.

(* ================================================================== *)
(** * The program *)
(* ================================================================== *)

Section Program.

Context {num : Type} `{JsNumber num}.
Local Open Scope js_scope.

(* ------------------------------------------------------------------ *)
(** ** scaleConfig.ts *)
(* ------------------------------------------------------------------ *)

Definition SCALE_PRESETS (preset : ScalePreset) : ScaleConfig.t num :=
  match preset with
  | standard => ScaleConfig.mk (of_Z 1) "标准"
  | moderate => ScaleConfig.mk (frac 95 100) "适中"
  | compact => ScaleConfig.mk (frac 90 100) "紧凑"
  | slim => ScaleConfig.mk (frac 80 100) "精简"
  | mini => ScaleConfig.mk (frac 70 100) "迷你"
  end.

Definition DEFAULT_SCALE_PRESET : ScalePreset := standard.

Definition getScaleConfig (preset : ScalePreset) : ScaleConfig.t num :=
  SCALE_PRESETS preset.

(** [scaleRect]: scale a rect about the canvas centre and round to pixels. *)
Definition scaleRect (rect : FrameRect.t num) (scaleFactor centerX centerY : num)
  : FrameRect.t num :=
  let rectCenterX := FrameRect.x rect + FrameRect.width rect / of_Z 2 in
  let rectCenterY := FrameRect.y rect + FrameRect.height rect / of_Z 2 in
  let offsetX := rectCenterX - centerX in
  let offsetY := rectCenterY - centerY in
  let scaledOffsetX := offsetX * scaleFactor in
  let scaledOffsetY := offsetY * scaleFactor in
  let scaledWidth := FrameRect.width rect * scaleFactor in
  let scaledHeight := FrameRect.height rect * scaleFactor in
  let newCenterX := centerX + scaledOffsetX in
  let newCenterY := centerY + scaledOffsetY in
  let newX := newCenterX - scaledWidth / of_Z 2 in
  let newY := newCenterY - scaledHeight / of_Z 2 in
  FrameRect.mk (Math_round newX) (Math_round newY)
               (Math_round scaledWidth) (Math_round scaledHeight).

(** [scaleRect] at a rect with an id: the spread [...rect] keeps the id. *)
Definition scaleRect_withId (box : TextBoxRect.t num)
  (scaleFactor centerX centerY : num) : TextBoxRect.t num :=
  TextBoxRect.mk (TextBoxRect.id box)
    (scaleRect (TextBoxRect.rect box) scaleFactor centerX centerY).

Definition applyScaleFactor (layout : LayoutConfig.t num) (scaleFactor : num)
  : LayoutConfig.t num :=
  let clampedFactor :=
    Math_max (frac 70 100) (Math_min (of_Z 1) scaleFactor) in
  if clampedFactor === of_Z 1 then layout
  else
    let centerX := Canvas.width (LayoutConfig.canvas layout) / of_Z 2 in
    let centerY := Canvas.height (LayoutConfig.canvas layout) / of_Z 2 in
    let scaledArtworkFrame :=
      scaleRect (LayoutConfig.artworkFrame layout) clampedFactor centerX centerY in
    let scaledTitleBox :=
      scaleRect_withId (LayoutConfig.titleBox layout) clampedFactor centerX centerY in
    let scaledContentBoxes :=
      map (fun box => scaleRect_withId box clampedFactor centerX centerY)
          (LayoutConfig.contentBoxes layout) in
    LayoutConfig.mk (LayoutConfig.canvas layout)
      scaledArtworkFrame scaledTitleBox scaledContentBoxes.

Definition applyScalePreset (layout : LayoutConfig.t num) (preset : ScalePreset)
  : LayoutConfig.t num :=
  let config := getScaleConfig preset in
  applyScaleFactor layout (ScaleConfig.factor config).

(* ------------------------------------------------------------------ *)
(** ** cardComposer.ts: the layout catalogue *)
(* ------------------------------------------------------------------ *)

Definition frameRect (x y w h : Z) : FrameRect.t num :=
  FrameRect.mk (of_Z x) (of_Z y) (of_Z w) (of_Z h).

Definition textBoxRect (id : string) (x y w h : Z) : TextBoxRect.t num :=
  TextBoxRect.mk id (frameRect x y w h).

Definition LAYOUT_VARIANTS (variant : LayoutVariant) : LayoutConfig.t num :=
  match variant with
  | landscape_square =>
      LayoutConfig.mk (Canvas.mk (of_Z 1024) (of_Z 768))
        (frameRect 40 40 390 688)
        (textBoxRect "title" 480 40 504 100)
        [ textBoxRect "content1" 480 190 227 244;
          textBoxRect "content2" 757 190 227 244;
          textBoxRect "content3" 480 484 227 244;
          textBoxRect "content4" 757 484 227 244 ]
  | landscape_flat =>
      LayoutConfig.mk (Canvas.mk (of_Z 1024) (of_Z 768))
        (frameRect 40 40 390 688)
        (textBoxRect "title" 480 124 504 100)
        [ textBoxRect "content1" 480 274 227 160;
          textBoxRect "content2" 757 274 227 160;
          textBoxRect "content3" 480 484 227 160;
          textBoxRect "content4" 757 484 227 160 ]
  | portrait_square =>
      LayoutConfig.mk (Canvas.mk (of_Z 768) (of_Z 1024))
        (frameRect 144 40 480 480)
        (textBoxRect "title" 144 570 480 70)
        [ textBoxRect "content1" 144 690 215 130;
          textBoxRect "content2" 409 690 215 130;
          textBoxRect "content3" 144 870 215 110;
          textBoxRect "content4" 409 870 215 110 ]
  | portrait_flat =>
      LayoutConfig.mk (Canvas.mk (of_Z 768) (of_Z 1024))
        (frameRect 144 40 480 480)
        (textBoxRect "title" 144 570 480 70)
        [ textBoxRect "content1" 144 690 215 90;
          textBoxRect "content2" 409 690 215 90;
          textBoxRect "content3" 144 830 215 90;
          textBoxRect "content4" 409 830 215 90 ]
  end.

Definition LANDSCAPE_LAYOUT : LayoutConfig.t num := LAYOUT_VARIANTS landscape_square.
Definition PORTRAIT_LAYOUT : LayoutConfig.t num := LAYOUT_VARIANTS portrait_square.

Definition getLayoutConfig (mode : LayoutMode) : LayoutConfig.t num :=
  match mode with landscape => LANDSCAPE_LAYOUT | portrait => PORTRAIT_LAYOUT end.

Definition getLayoutConfigByVariant (variant : LayoutVariant) : LayoutConfig.t num :=
  LAYOUT_VARIANTS variant.

(** [variant.startsWith('landscape') ? 'landscape' : 'portrait'] *)
Definition getLayoutModeFromVariant (variant : LayoutVariant) : LayoutMode :=
  match variant with
  | landscape_square | landscape_flat => landscape
  | portrait_square | portrait_flat => portrait
  end.

Definition getDefaultCropAnchor (layoutMode : LayoutMode) : CropAnchor :=
  match layoutMode with portrait => anchor_top | landscape => anchor_center end.

Definition getAllTextBoxes (layout : LayoutConfig.t num) : list (TextBoxRect.t num) :=
  LayoutConfig.titleBox layout :: LayoutConfig.contentBoxes layout.

(* ------------------------------------------------------------------ *)
(** ** borderRenderer.ts: footprint of the double-line borders *)
(* ------------------------------------------------------------------ *)

Definition GLOW_PRESETS (intensity : GlowIntensity) : OuterGlowConfig.t num :=
  match intensity with
  | glow_subtle => OuterGlowConfig.mk (of_Z 4) (frac 15 100) (of_Z 2) "#FFD700"
  | glow_medium => OuterGlowConfig.mk (of_Z 6) (frac 22 100) (of_Z 3) "#FFD700"
  | glow_strong => OuterGlowConfig.mk (of_Z 8) (frac 30 100) (of_Z 4) "#FFD700"
  | glow_none => OuterGlowConfig.mk (of_Z 0) (of_Z 0) (of_Z 0) "#FFD700"
  end.

Definition DEFAULT_GLOW_CONFIG : OuterGlowConfig.t num := GLOW_PRESETS glow_medium.

(** [GLOW_PRESETS[intensity] || DEFAULT_GLOW_CONFIG]; every intensity of the
    enum has an entry. *)
Definition getGlowConfig (intensity : GlowIntensity) : OuterGlowConfig.t num :=
  GLOW_PRESETS intensity.

Definition ENHANCED_ARTWORK_BORDER : DoubleLineBorderStyle.t num :=
  DoubleLineBorderStyle.mk (of_Z 5) (frac 15 10) (frac 15 10)
    ["#FFE4A0"; "#D4AF37"; "#B8860B"; "#D4AF37"; "#FFE4A0"]%string
    "#000000" (frac 4 10).

Definition ENHANCED_TEXTBOX_BORDER : DoubleLineBorderStyle.t num :=
  DoubleLineBorderStyle.mk (of_Z 4) (of_Z 1) (of_Z 1)
    ["#B8A080"; "#8B7355"; "#6B5335"; "#8B7355"; "#B8A080"]%string
    "#000000" (frac 35 100).

Definition TEXT_BOX_BORDER_RADIUS : num := of_Z 10.

Definition MIN_BORDER_GAP : num := of_Z 2.

Definition calculateTotalBorderSpace (border : BorderDimensions.t num) : num :=
  BorderDimensions.outerWidth border + BorderDimensions.gap border
  + BorderDimensions.innerWidth border + BorderDimensions.innerStroke border
  + BorderDimensions.glowPadding border.

(** [glow.opacity > 0 ? Math.ceil(glow.blur + glow.spread) : 0] *)
Definition glowPaddingOf (glow : OuterGlowConfig.t num) : num :=
  if OuterGlowConfig.opacity glow >? of_Z 0
  then Math_ceil (OuterGlowConfig.blur glow + OuterGlowConfig.spread glow)
  else of_Z 0.

(** [glowConfig || DEFAULT_GLOW_CONFIG] *)
Definition glowOrDefault (glowConfig : option (OuterGlowConfig.t num))
  : OuterGlowConfig.t num :=
  match glowConfig with Some g => g | None => DEFAULT_GLOW_CONFIG end.

Definition getArtworkBorderDimensions (glowConfig : option (OuterGlowConfig.t num))
  : BorderDimensions.t num :=
  let glow := glowOrDefault glowConfig in
  BorderDimensions.mk
    (DoubleLineBorderStyle.outerWidth ENHANCED_ARTWORK_BORDER)
    (DoubleLineBorderStyle.gap ENHANCED_ARTWORK_BORDER)
    (DoubleLineBorderStyle.innerWidth ENHANCED_ARTWORK_BORDER)
    (of_Z 2)
    (glowPaddingOf glow).

Definition getTextBoxBorderDimensions (glowConfig : option (OuterGlowConfig.t num))
  : BorderDimensions.t num :=
  let glow := glowOrDefault glowConfig in
  BorderDimensions.mk
    (DoubleLineBorderStyle.outerWidth ENHANCED_TEXTBOX_BORDER)
    (DoubleLineBorderStyle.gap ENHANCED_TEXTBOX_BORDER)
    (DoubleLineBorderStyle.innerWidth ENHANCED_TEXTBOX_BORDER)
    (of_Z 2)
    (glowPaddingOf glow).

Definition validateBorderGap (frame1 frame2 : FrameRect.t num)
  (border1Dimensions border2Dimensions : BorderDimensions.t num)
  (minGap : num) : bool :=
  let border1Space := calculateTotalBorderSpace border1Dimensions in
  let border2Space := calculateTotalBorderSpace border2Dimensions in
  let frame1Left := FrameRect.x frame1 - border1Space in
  let frame1Right := FrameRect.x frame1 + FrameRect.width frame1 + border1Space in
  let frame1Top := FrameRect.y frame1 - border1Space in
  let frame1Bottom := FrameRect.y frame1 + FrameRect.height frame1 + border1Space in
  let frame2Left := FrameRect.x frame2 - border2Space in
  let frame2Right := FrameRect.x frame2 + FrameRect.width frame2 + border2Space in
  let frame2Top := FrameRect.y frame2 - border2Space in
  let frame2Bottom := FrameRect.y frame2 + FrameRect.height frame2 + border2Space in
  let horizontalGap :=
    Math_min (Math_abs (frame1Right - frame2Left))
             (Math_abs (frame2Right - frame1Left)) in
  let verticalGap :=
    Math_min (Math_abs (frame1Bottom - frame2Top))
             (Math_abs (frame2Bottom - frame1Top)) in
  let horizontalOverlap :=
    negb ((frame1Right <? frame2Left) || (frame2Right <? frame1Left)) in
  let verticalOverlap :=
    negb ((frame1Bottom <? frame2Top) || (frame2Bottom <? frame1Top)) in
  if negb horizontalOverlap && negb verticalOverlap then true
  else if horizontalOverlap && negb verticalOverlap then verticalGap >=? minGap
  else if negb horizontalOverlap && verticalOverlap then horizontalGap >=? minGap
  else false.

Definition validateBorderWithinCanvas (frame : FrameRect.t num)
  (borderDimensions : BorderDimensions.t num) (canvasWidth canvasHeight : num)
  : bool :=
  let borderSpace := calculateTotalBorderSpace borderDimensions in
  let left := FrameRect.x frame - borderSpace in
  let right := FrameRect.x frame + FrameRect.width frame + borderSpace in
  let top := FrameRect.y frame - borderSpace in
  let bottom := FrameRect.y frame + FrameRect.height frame + borderSpace in
  (left >=? of_Z 0) && (right <=? canvasWidth)
  && (top >=? of_Z 0) && (bottom <=? canvasHeight).

(** [{ ...base, ...customStyle }] *)
Definition mergeStyle (base : DoubleLineBorderStyle.t num)
  (customStyle : option (DoubleLineBorderStyle.partial num))
  : DoubleLineBorderStyle.t num :=
  match customStyle with
  | None => base
  | Some c =>
      let pick {A} (o : option A) (d : A) := match o with Some v => v | None => d end in
      DoubleLineBorderStyle.mk
        (pick (DoubleLineBorderStyle.outerWidth' c) (DoubleLineBorderStyle.outerWidth base))
        (pick (DoubleLineBorderStyle.innerWidth' c) (DoubleLineBorderStyle.innerWidth base))
        (pick (DoubleLineBorderStyle.gap' c) (DoubleLineBorderStyle.gap base))
        (pick (DoubleLineBorderStyle.outerGradient' c) (DoubleLineBorderStyle.outerGradient base))
        (pick (DoubleLineBorderStyle.innerStrokeColor' c) (DoubleLineBorderStyle.innerStrokeColor base))
        (pick (DoubleLineBorderStyle.innerStrokeOpacity' c) (DoubleLineBorderStyle.innerStrokeOpacity base))
  end.

(** The value [{ buffer, x, y }] the border generators resolve to. *)
Record BorderLayer : Type := mkBorderLayer {
  layer_buffer : Buffer num;
  layer_x : num;
  layer_y : num
}.

Definition renderDoubleLineArtworkBorder (frame : FrameRect.t num)
  (customStyle : option (DoubleLineBorderStyle.partial num))
  (glowConfig : option (OuterGlowConfig.t num)) : BorderLayer :=
  let style := mergeStyle ENHANCED_ARTWORK_BORDER customStyle in
  let glow := glowOrDefault glowConfig in
  let totalBorderWidth :=
    DoubleLineBorderStyle.outerWidth style + DoubleLineBorderStyle.gap style
    + DoubleLineBorderStyle.innerWidth style + of_Z 2 in
  let glowPadding := glowPaddingOf glow in
  let totalWidth :=
    FrameRect.width frame + totalBorderWidth * of_Z 2 + glowPadding * of_Z 2 in
  let totalHeight :=
    FrameRect.height frame + totalBorderWidth * of_Z 2 + glowPadding * of_Z 2 in
  let borderSvg := DoubleLineBorderSvg totalWidth totalHeight style "artwork" glow in
  mkBorderLayer (Rasterized borderSvg)
    (FrameRect.x frame - totalBorderWidth - glowPadding)
    (FrameRect.y frame - totalBorderWidth - glowPadding).

Definition renderDoubleLineTextBoxBorder (frame : FrameRect.t num)
  (customStyle : option (DoubleLineBorderStyle.partial num))
  (uniqueId : string)
  (glowConfig : option (OuterGlowConfig.t num)) : BorderLayer :=
  let style := mergeStyle ENHANCED_TEXTBOX_BORDER customStyle in
  let borderRadius := TEXT_BOX_BORDER_RADIUS in
  let glow := glowOrDefault glowConfig in
  let totalBorderWidth :=
    DoubleLineBorderStyle.outerWidth style + DoubleLineBorderStyle.gap style
    + DoubleLineBorderStyle.innerWidth style + of_Z 2 in
  let glowPadding := glowPaddingOf glow in
  let totalWidth :=
    FrameRect.width frame + totalBorderWidth * of_Z 2 + glowPadding * of_Z 2 in
  let totalHeight :=
    FrameRect.height frame + totalBorderWidth * of_Z 2 + glowPadding * of_Z 2 in
  let borderSvg :=
    DoubleLineRoundedBorderSvg totalWidth totalHeight style borderRadius uniqueId glow in
  mkBorderLayer (Rasterized borderSvg)
    (FrameRect.x frame - totalBorderWidth - glowPadding)
    (FrameRect.y frame - totalBorderWidth - glowPadding).

(** The pixel size of a buffer, where the pipeline that made it fixes it.
    The rasteriser gives an SVG document whole pixels: its width and height
    rounded to the nearest integer. *)
Fixpoint raster_size (b : Buffer num) : option (num * num) :=
  match b with
  | Raw _ | AssetFile _ => None
  | Rasterized doc => Some (Math_round (svg_width doc), Math_round (svg_height doc))
  | Resized _ w h _ _ => Some (w, h)
  | Rotated src angle =>
      match raster_size src with
      | Some (w, h) =>
          if (angle =? 90)%Z || (angle =? 270)%Z then Some (h, w)
          else if (angle =? 180)%Z || (angle =? 0)%Z then Some (w, h) else None
      | None => None
      end
  | Flipped src | Flopped src => raster_size src
  | Composited base _ => raster_size base
  end.

(* ------------------------------------------------------------------ *)
(** ** blurConfig.ts, textureConfig.ts, panel colours *)
(* ------------------------------------------------------------------ *)

Definition BLUR_PRESETS : list (string * BlurConfig.t num) :=
  [ ("light", BlurConfig.mk "light" "轻度" (of_Z 8) (frac 90 100));
    ("medium", BlurConfig.mk "medium" "中度" (of_Z 12) (frac 85 100));
    ("strong", BlurConfig.mk "strong" "强度" (of_Z 16) (frac 78 100)) ]%string.

Definition DEFAULT_BLUR_INTENSITY : string := "medium".

(** [BLUR_PRESETS[blurIntensity] || BLUR_PRESETS['medium']] *)
Definition getBlurConfig (blurIntensity : string) : Lookup (BlurConfig.t num) :=
  match js_lookup BLUR_PRESETS blurIntensity with
  | Missing => js_lookup BLUR_PRESETS "medium"
  | found => found
  end.

Definition isValidBlurIntensity (blurIntensity : string) : bool :=
  match js_lookup BLUR_PRESETS blurIntensity with
  | Missing => false
  | _ => true
  end.

Definition TEXTURE_PRESETS (textureType : TextureType) : TextureConfig.t num :=
  match textureType with
  | matte_paper => TextureConfig.mk matte_paper "磨砂黑纸" noise (frac 12 100) (of_Z 1)
  | silk => TextureConfig.mk silk "深色丝绸" diagonal_lines (frac 10 100) (frac 8 10)
  | ink_wash => TextureConfig.mk ink_wash "水墨晕染" cloud (frac 8 100) (frac 12 10)
  | texture_none => TextureConfig.mk texture_none "无纹理" pattern_none (of_Z 0) (of_Z 1)
  end.

Definition DEFAULT_TEXTURE_TYPE : TextureType := matte_paper.

Definition getTextureConfig (textureType : TextureType) : TextureConfig.t num :=
  TEXTURE_PRESETS textureType.

(** [PREMIUM_TEXTBOX_COLORS]: id, name, gradient. *)
Definition PREMIUM_TEXTBOX_COLORS : list (string * string * list string) :=
  [ ("obsidian", "黑曜石",
      ["rgba(35, 35, 40, 0.92)"; "rgba(20, 20, 25, 0.88)"; "rgba(25, 25, 30, 0.92)"]);
    ("bronze", "古铜",
      ["rgba(160, 130, 90, 0.92)"; "rgba(140, 110, 70, 0.88)"; "rgba(150, 120, 80, 0.92)"]);
    ("slate", "石板灰",
      ["rgba(80, 90, 100, 0.92)"; "rgba(60, 70, 80, 0.88)"; "rgba(70, 80, 90, 0.92)"]);
    ("burgundy", "勃艮第红",
      ["rgba(120, 50, 60, 0.92)"; "rgba(100, 40, 50, 0.88)"; "rgba(110, 45, 55, 0.92)"]);
    ("forest", "森林绿",
      ["rgba(50, 80, 60, 0.92)"; "rgba(40, 70, 50, 0.88)"; "rgba(45, 75, 55, 0.92)"]);
    ("navy", "海军蓝",
      ["rgba(45, 60, 90, 0.92)"; "rgba(35, 50, 80, 0.88)"; "rgba(40, 55, 85, 0.92)"]) ]%string.

(** [PREMIUM_TEXTBOX_COLORS[0].gradient] *)
Definition OBSIDIAN_GRADIENT : list string :=
  match PREMIUM_TEXTBOX_COLORS with
  | (_, _, gradient) :: _ => gradient
  | [] => []
  end.

Definition getTextBoxColorGradient (colorId : string) : list string :=
  match find (fun c => String.eqb (fst (fst c)) colorId) PREMIUM_TEXTBOX_COLORS with
  | Some color => snd color
  | None => OBSIDIAN_GRADIENT
  end.

(* ------------------------------------------------------------------ *)
(** ** framePresets.ts *)
(* ------------------------------------------------------------------ *)

Definition FRAME_PRESETS : list (string * FramePresetConfig.t num) :=
  [ ("cyber", FramePresetConfig.mk "cyber" "科技风" "金属质感、发光线条、几何图案"
       "frames/cyber/corner.svg" "frames/cyber/border.svg"
       (of_Z 100) (of_Z 20) (of_Z 10)
       (ColorScheme.mk "#00D4FF" "#0A1628" "#FF00FF"));
    ("classic", FramePresetConfig.mk "classic" "古典风" "金色花纹、巴洛克风格、精致雕刻"
       "frames/classic/corner.svg" "frames/classic/border.svg"
       (of_Z 110) (of_Z 25) (of_Z 8)
       (ColorScheme.mk "#D4AF37" "#1A0F00" "#FFD700"));
    ("minimal", FramePresetConfig.mk "minimal" "简约风" "细线条、现代感、低调优雅"
       "frames/minimal/corner.svg" "frames/minimal/border.svg"
       (of_Z 80) (of_Z 15) (of_Z 12)
       (ColorScheme.mk "#FFFFFF" "#333333" "#888888"));
    ("fantasy", FramePresetConfig.mk "fantasy" "奇幻风" "魔法符文、藤蔓装饰、神秘光效"
       "frames/fantasy/corner.svg" "frames/fantasy/border.svg"
       (of_Z 105) (of_Z 22) (of_Z 10)
       (ColorScheme.mk "#9B59B6" "#1A0A2E" "#00FF88"));
    ("battle", FramePresetConfig.mk "battle" "战场风" "铁锈质感、铆钉装饰、战损效果"
       "frames/battle/corner.svg" "frames/battle/border.svg"
       (of_Z 95) (of_Z 24) (of_Z 8)
       (ColorScheme.mk "#8B4513" "#2F2F2F" "#CD853F"));
    ("none", FramePresetConfig.mk "none" "无边框" "不添加装饰边框"
       "" "" (of_Z 0) (of_Z 0) (of_Z 0)
       (ColorScheme.mk "transparent" "transparent" "transparent")) ]%string.

Definition VALID_PRESET_IDS : list string :=
  ["cyber"; "classic"; "minimal"; "fantasy"; "battle"; "none"]%string.

Definition DECORATIVE_PRESET_IDS : list string :=
  ["cyber"; "classic"; "minimal"; "fantasy"; "battle"]%string.

Definition isValidPresetId (presetId : string) : bool :=
  string_mem presetId VALID_PRESET_IDS.

Definition isDecorativePreset (presetId : string) : bool :=
  negb (String.eqb presetId "none").

(* ------------------------------------------------------------------ *)
(** ** assetLoader.ts *)
(* ------------------------------------------------------------------ *)

(** The file system under the asset root: which relative paths exist. *)
Variable fs_existsSync : string -> bool.

(** What [sharp] reads from a buffer: its pixel size, or nothing when it
    rejects the bytes. *)
Variable decode : Buffer num -> option (Z * Z).

Definition validateAssetExists (assetPath : string) : bool :=
  if string_blank assetPath then false else fs_existsSync assetPath.

Inductive AssetFormat : Type := format_svg | format_png | format_unknown.

Definition getAssetFormat (assetPath : string) : AssetFormat :=
  let ext := toLowerCase (extname assetPath) in
  if String.eqb ext ".svg" then format_svg
  else if String.eqb ext ".png" then format_png
  else format_unknown.

(** [sharp(input)] followed by an output call: rejected when the input
    does not decode. *)
Definition sharp_input (input : Buffer num) : M num unit :=
  match decode input with
  | Some _ => ret tt
  | None => throw UnsupportedImage
  end.

(** [sharp(input).resize(width, height, ...)]: the call itself throws
    unless the width, and then the height, is a positive integer; the image
    is read later, by the output call. *)
Definition sharp_resize (input : Buffer num) (width height : num) (fit : Fit)
  (how : string) : M num (Buffer num) :=
  if negb (isPositiveInteger width) then throw (InvalidParameter "width")
  else if negb (isPositiveInteger height) then throw (InvalidParameter "height")
  else ret (Resized input width height fit how).

(** The pixel size [sharp] finds in a buffer: that of the pipeline which
    made it, else what the decoder reads. *)
Definition pixel_size (b : Buffer num) : option (num * num) :=
  match raster_size b with
  | Some size => Some size
  | None =>
      match decode b with
      | Some (width, height) => Some (of_Z width, of_Z height)
      | None => None
      end
  end.

(** [composite(images)] checks the images as they are listed: [left], then
    [top], must be an integer. *)
Fixpoint offsetRefusal (images : list (Overlay.t (Buffer num) num)) : option Error :=
  match images with
  | [] => None
  | image :: rest =>
      if negb (Number_isInteger (Overlay.left image))
      then Some (InvalidParameter "left")
      else if negb (Number_isInteger (Overlay.top image))
      then Some (InvalidParameter "top")
      else offsetRefusal rest
  end.

(** The output call then reads each image in turn: none may be wider or
    higher than the base. *)
Fixpoint overlayRefusal (baseWidth baseHeight : num)
  (images : list (Overlay.t (Buffer num) num)) : option Error :=
  match images with
  | [] => None
  | image :: rest =>
      match pixel_size (Overlay.input image) with
      | None => Some UnsupportedImage
      | Some (width, height) =>
          if (baseWidth <? width) || (baseHeight <? height)
          then Some CompositeTooLarge
          else overlayRefusal baseWidth baseHeight rest
      end
  end.

Definition compositeRefusal (base : Buffer num)
  (images : list (Overlay.t (Buffer num) num)) : option Error :=
  match offsetRefusal images with
  | Some e => Some e
  | None =>
      match pixel_size base with
      | None => Some UnsupportedImage
      | Some (baseWidth, baseHeight) => overlayRefusal baseWidth baseHeight images
      end
  end.

(** [sharp(base).composite(images)] followed by an output call. *)
Definition sharp_composite (base : Buffer num)
  (images : list (Overlay.t (Buffer num) num)) : M num (Buffer num) :=
  match compositeRefusal base images with
  | Some e => throw e
  | None => ret (Composited base images)
  end.

Definition cache_get (assetPath : string) : M num (option (Buffer num)) :=
  fun w => (Ok (own_property (World.assetCache w) assetPath), w).

Definition cache_set (assetPath : string) (buffer : Buffer num) : M num unit :=
  fun w => (Ok tt, World.mk ((assetPath, buffer) :: World.assetCache w)
                            (World.warnings w)).

Local Open Scope monad_scope.

Definition loadAsset (assetPath : string) : M num (Buffer num) :=
  cached <- cache_get assetPath ;;
  match cached with
  | Some buffer => ret buffer
  | None =>
      if negb (validateAssetExists assetPath)
      then throw (ASSET_NOT_FOUND (Some assetPath))
      else
        match getAssetFormat assetPath with
        | format_unknown => throw (UnsupportedAssetFormat assetPath)
        | format_svg =>
            sharp_input (AssetFile assetPath) ;;;
            cache_set assetPath (AssetFile assetPath) ;;;
            ret (AssetFile assetPath)
        | format_png =>
            cache_set assetPath (AssetFile assetPath) ;;;
            ret (AssetFile assetPath)
        end
  end.

(* ------------------------------------------------------------------ *)
(** ** frameRenderer.ts *)
(* ------------------------------------------------------------------ *)

Definition ALL_CORNERS : list CornerPosition :=
  [top_left; top_right; bottom_left; bottom_right].

Definition ALL_BORDERS : list BorderPosition :=
  [border_top; border_right; border_bottom; border_left].

Definition CORNER_TRANSFORMS (position : CornerPosition) : CornerTransform.t :=
  match position with
  | top_left => CornerTransform.mk false false
  | top_right => CornerTransform.mk true false
  | bottom_left => CornerTransform.mk false true
  | bottom_right => CornerTransform.mk true true
  end.

Definition getScaleFactorForLayout (layoutVariant : option LayoutVariant) : num :=
  match layoutVariant with
  | None => of_Z 1
  | Some v =>
      match getLayoutModeFromVariant v with
      | portrait => frac 95 100
      | landscape => of_Z 1
      end
  end.

Definition calculateCornerPosition (position : CornerPosition)
  (cardWidth cardHeight cornerSize insetOffset : num) : Position.t num :=
  match position with
  | top_left => Position.mk insetOffset insetOffset
  | top_right => Position.mk (cardWidth - cornerSize - insetOffset) insetOffset
  | bottom_left => Position.mk insetOffset (cardHeight - cornerSize - insetOffset)
  | bottom_right =>
      Position.mk (cardWidth - cornerSize - insetOffset)
                  (cardHeight - cornerSize - insetOffset)
  end.

Definition calculateBorderPosition (position : BorderPosition)
  (cardWidth cardHeight cornerSize borderThickness insetOffset : num)
  : StripDimensions.t num :=
  let borderStart := cornerSize + insetOffset in
  match position with
  | border_top =>
      StripDimensions.mk borderStart insetOffset
        (cardWidth - of_Z 2 * borderStart) borderThickness
  | border_bottom =>
      StripDimensions.mk borderStart (cardHeight - borderThickness - insetOffset)
        (cardWidth - of_Z 2 * borderStart) borderThickness
  | border_left =>
      StripDimensions.mk insetOffset borderStart
        borderThickness (cardHeight - of_Z 2 * borderStart)
  | border_right =>
      StripDimensions.mk (cardWidth - borderThickness - insetOffset) borderStart
        borderThickness (cardHeight - of_Z 2 * borderStart)
  end.

Definition renderCornerOrnament (preset : FramePresetConfig.t num)
  (position : CornerPosition) (scaleFactor : num) : M num (Buffer num) :=
  cornerBuffer <- loadAsset (FramePresetConfig.cornerAsset preset) ;;
  let scaledSize := Math_round (FramePresetConfig.cornerSize preset * scaleFactor) in
  let transform := CORNER_TRANSFORMS position in
  image <- sharp_resize cornerBuffer scaledSize scaledSize fit_fill "lanczos3" ;;
  let image :=
    if CornerTransform.flipHorizontal transform && CornerTransform.flipVertical transform
    then Rotated image 180
    else if CornerTransform.flipHorizontal transform then Flopped image
    else if CornerTransform.flipVertical transform then Flipped image
    else image in
  sharp_input cornerBuffer ;;;
  ret image.

Definition renderBorderStrip (preset : FramePresetConfig.t num)
  (position : BorderPosition) (length : num) (scaleFactor : num)
  : M num (Buffer num) :=
  borderBuffer <- loadAsset (FramePresetConfig.borderAsset preset) ;;
  let scaledThickness :=
    Math_round (FramePresetConfig.borderThickness preset * scaleFactor) in
  let isVertical :=
    match position with border_left | border_right => true | _ => false end in
  image <-
    (if isVertical
     then
       resized <- sharp_resize borderBuffer length scaledThickness fit_fill "lanczos3" ;;
       ret (Rotated resized 90)
     else sharp_resize borderBuffer length scaledThickness fit_fill "lanczos3") ;;
  sharp_input borderBuffer ;;;
  ret image.

Definition validatePresetAssets (preset : FramePresetConfig.t num) : M num unit :=
  if negb (validateAssetExists (FramePresetConfig.cornerAsset preset))
  then throw (ASSET_NOT_FOUND (Some (FramePresetConfig.cornerAsset preset)))
  else if negb (validateAssetExists (FramePresetConfig.borderAsset preset))
  then throw (ASSET_NOT_FOUND (Some (FramePresetConfig.borderAsset preset)))
  else ret tt.

(** [a ?? b] *)
Definition nullish {A} (a : option A) (b : A) : A :=
  match a with Some v => v | None => b end.

(** The body of [renderFrame] once a decorative preset is resolved. *)
Definition renderFrame_decorative (cardBuffer : Buffer num)
  (options : FrameRenderOptions.t num) (preset : FramePresetConfig.t num)
  : M num (Buffer num) :=
  let cardWidth := FrameRenderOptions.cardWidth options in
  let cardHeight := FrameRenderOptions.cardHeight options in
  validatePresetAssets preset ;;;
  let scaleFactor := getScaleFactorForLayout (FrameRenderOptions.layoutVariant options) in
  let insetOffset :=
    nullish (FrameRenderOptions.insetOffset options) (FramePresetConfig.insetOffset preset) in
  let borderThickness :=
    nullish (FrameRenderOptions.borderThickness options)
            (FramePresetConfig.borderThickness preset) in
  let cornerSize := Math_round (FramePresetConfig.cornerSize preset * scaleFactor) in
  let effectiveInsetOffset := Math_max (of_Z 0) (Math_min (of_Z 20) insetOffset) in
  compositeInputs <-
    foldM (fun compositeInputs position =>
      cornerBuffer <- renderCornerOrnament preset position scaleFactor ;;
      let cornerPos :=
        calculateCornerPosition position cardWidth cardHeight cornerSize
                                effectiveInsetOffset in
      ret (compositeInputs ++
           [Overlay.mk cornerBuffer (Math_round (Position.x cornerPos))
                       (Math_round (Position.y cornerPos))]))
      ALL_CORNERS [] ;;
  compositeInputs <-
    foldM (fun compositeInputs position =>
      let borderDims :=
        calculateBorderPosition position cardWidth cardHeight cornerSize
          (Math_round (borderThickness * scaleFactor)) effectiveInsetOffset in
      let borderLength :=
        match position with
        | border_top | border_bottom => StripDimensions.width borderDims
        | _ => StripDimensions.height borderDims
        end in
      if borderLength >? of_Z 0 then
        borderBuffer <- renderBorderStrip preset position borderLength scaleFactor ;;
        ret (compositeInputs ++
             [Overlay.mk borderBuffer (Math_round (StripDimensions.x borderDims))
                         (Math_round (StripDimensions.y borderDims))])
      else ret compositeInputs)
      ALL_BORDERS compositeInputs ;;
  sharp_composite cardBuffer compositeInputs.

Definition renderFrame (cardBuffer : Buffer num) (options : FrameRenderOptions.t num)
  : M num (Buffer num) :=
  let presetId := FrameRenderOptions.presetId options in
  match js_lookup FRAME_PRESETS presetId with
  | Missing => throw (INVALID_PRESET presetId)
  | Inherited _ =>
      (* a member of Object.prototype: truthy, and its [cornerAsset] is
         undefined *)
      if negb (isDecorativePreset presetId) then ret cardBuffer
      else throw (ASSET_NOT_FOUND None)
  | Own preset =>
      if negb (isDecorativePreset presetId) then ret cardBuffer
      else renderFrame_decorative cardBuffer options preset
  end.

(* ------------------------------------------------------------------ *)
(** ** cardComposer.ts: border validation *)
(* ------------------------------------------------------------------ *)

(** A list with the 0-based index of each element. *)
Definition indexed {A} (l : list A) : list (nat * A) :=
  combine (seq 0 (List.length l)) l.

Definition validateLayoutBorders (layout : LayoutConfig.t num)
  (glowConfig : option (OuterGlowConfig.t num)) : LayoutValidation.t :=
  let canvas := LayoutConfig.canvas layout in
  let artworkFrame := LayoutConfig.artworkFrame layout in
  let titleBox := TextBoxRect.rect (LayoutConfig.titleBox layout) in
  let contentBoxes := map (@TextBoxRect.rect num) (LayoutConfig.contentBoxes layout) in
  let artworkBorderDims := getArtworkBorderDimensions glowConfig in
  let textBoxBorderDims := getTextBoxBorderDimensions glowConfig in
  let within frame dims :=
    validateBorderWithinCanvas frame dims (Canvas.width canvas) (Canvas.height canvas) in
  let errors :=
    (if negb (within artworkFrame artworkBorderDims)
     then [ArtworkBorderOutsideCanvas] else [])
    ++ (if negb (within titleBox textBoxBorderDims)
        then [TitleBorderOutsideCanvas] else [])
    ++ flat_map (fun ib : nat * FrameRect.t num =>
         if negb (within (snd ib) textBoxBorderDims)
         then [ContentBorderOutsideCanvas (fst ib + 1)] else [])
         (indexed contentBoxes)
    ++ (if negb (validateBorderGap artworkFrame titleBox artworkBorderDims
                   textBoxBorderDims MIN_BORDER_GAP)
        then [ArtworkTitleGapTooSmall] else [])
    ++ flat_map (fun ib : nat * FrameRect.t num =>
         if negb (validateBorderGap titleBox (snd ib) textBoxBorderDims
                    textBoxBorderDims MIN_BORDER_GAP)
         then [TitleContentGapTooSmall (fst ib + 1)] else [])
         (indexed contentBoxes)
    ++ flat_map (fun ib : nat * FrameRect.t num =>
         flat_map (fun jb : nat * FrameRect.t num =>
           if (fst ib <? fst jb)%nat
              && negb (validateBorderGap (snd ib) (snd jb) textBoxBorderDims
                         textBoxBorderDims MIN_BORDER_GAP)
           then [ContentContentGapTooSmall (fst ib + 1) (fst jb + 1)] else [])
           (indexed contentBoxes))
         (indexed contentBoxes) in
  LayoutValidation.mk (match errors with [] => true | _ => false end) errors.

(* ------------------------------------------------------------------ *)
(** ** cardComposer.ts: text metrics and wrapping *)
(* ------------------------------------------------------------------ *)

Definition TITLE_FONT_SIZE : num := of_Z 48.
Definition TITLE_LINE_HEIGHT : num := frac 13 10.
Definition CONTENT_FONT_SIZE : num := of_Z 36.
Definition CONTENT_LINE_HEIGHT : num := frac 14 10.
Definition MIN_FONT_SIZE : num := of_Z 24.

Definition getFontSizeForBox (boxId : string) : num :=
  if String.eqb boxId "title" then TITLE_FONT_SIZE else CONTENT_FONT_SIZE.

(** [Math.floor((maxWidth - 40) / (fontSize * 0.8))], the local
    [maxCharsPerLine] of [calculateTextLines] and of [wrapText]. *)
Definition maxCharsPerLine (maxWidth fontSize : num) : xint :=
  let avgCharWidth := fontSize * frac 8 10 in
  floor_x ((maxWidth - of_Z 40) / avgCharWidth).

(** [Math.ceil(length / maxCharsPerLine)] for a string length and the
    result of a [Math.floor].  Lengths and line counts are integers far
    below 2^53, where the quotient's ceiling is the integer one. *)
Definition ceil_div (length : nat) (maxChars : xint) : xint :=
  match maxChars with
  | XNaN => XNaN
  | XPosInf | XNegInf => XFin 0
  | XFin z =>
      if (z =? 0)%Z then (if (length =? 0)%nat then XNaN else XPosInf)
      else XFin (- ((- Z.of_nat length) / z))
  end.

Definition calculateTextLines (text : jsstring) (maxWidth fontSize : num) : xint :=
  let maxChars := maxCharsPerLine maxWidth fontSize in
  let paragraphs := split_lines text in
  fold_left (fun totalLines paragraph =>
      if (List.length paragraph =? 0)%nat then xint_add totalLines (XFin 1)
      else xint_add totalLines (ceil_div (List.length paragraph) maxChars))
    paragraphs (XFin 0).

(** The [while (fontSize > minFontSize)] loop of [calculateFontSize]. *)
Fixpoint calculateFontSize_loop (fuel : nat) (text : jsstring)
  (lineHeight boxWidth boxHeight fontSize : num) : option num :=
  match fuel with
  | O => None
  | S fuel' =>
      if fontSize >? MIN_FONT_SIZE then
        let lines := calculateTextLines text boxWidth fontSize in
        let totalTextHeight := of_xint lines * fontSize * lineHeight in
        let availableHeight := boxHeight - of_Z 20 in
        if totalTextHeight <=? availableHeight then Some fontSize
        else calculateFontSize_loop fuel' text lineHeight boxWidth boxHeight
               (fontSize - of_Z 2)
      else Some fontSize
  end.

(** Iterations granted to the loop above; thirteen are used at most. *)
Definition FONT_SIZE_FUEL : nat := 16.

Definition calculateFontSize (text : jsstring) (boxId : string)
  (boxWidth boxHeight : num) : option num :=
  let baseFontSize := getFontSizeForBox boxId in
  let lineHeight :=
    if String.eqb boxId "title" then TITLE_LINE_HEIGHT else CONTENT_LINE_HEIGHT in
  match calculateFontSize_loop FONT_SIZE_FUEL text lineHeight boxWidth boxHeight
          baseFontSize with
  | Some fontSize => Some (Math_max fontSize MIN_FONT_SIZE)
  | None => None
  end.

(** The [while (remaining.length > 0)] loop of [wrapText]; [None] when the
    fuel runs out. *)
Fixpoint wrapText_loop (fuel : nat) (maxChars : xint) (remaining : jsstring)
  (lines : list jsstring) : option (list jsstring) :=
  match fuel with
  | O => None
  | S fuel' =>
      if (0 <? List.length remaining)%nat then
        if xint_leb (XFin (Z.of_nat (List.length remaining))) maxChars
        then Some (lines ++ [remaining])
        else wrapText_loop fuel' maxChars
               (substring remaining maxChars None)
               (lines ++ [substring remaining (XFin 0) (Some maxChars)])
      else Some lines
  end.

(** The [for (const paragraph of paragraphs)] loop of [wrapText], with
    [fuel] iterations granted to each inner loop. *)
Fixpoint wrapText_paragraphs (fuel : nat) (maxChars : xint)
  (paragraphs : list jsstring) (lines : list jsstring)
  : option (list jsstring) :=
  match paragraphs with
  | [] => Some lines
  | paragraph :: rest =>
      if xint_leb (XFin (Z.of_nat (List.length paragraph))) maxChars
      then wrapText_paragraphs fuel maxChars rest (lines ++ [paragraph])
      else
        match wrapText_loop fuel maxChars paragraph lines with
        | Some lines' => wrapText_paragraphs fuel maxChars rest lines'
        | None => None
        end
  end.

Definition wrapText_fuel (fuel : nat) (text : jsstring) (maxWidth fontSize : num)
  : option (list jsstring) :=
  wrapText_paragraphs fuel (maxCharsPerLine maxWidth fontSize) (split_lines text) [].

(** [wrapText], each inner loop granted one iteration more than the text
    has code units. *)
Definition wrapText (text : jsstring) (maxWidth fontSize : num)
  : option (list jsstring) :=
  wrapText_fuel (S (List.length text)) text maxWidth fontSize.

(** A code unit an XML 1.0 document may hold: tab, line feed, carriage
    return and everything from the space on, U+FFFE and U+FFFF apart.  (A
    surrogate reaches the parser as half of a pair or, alone, replaced by
    U+FFFD when the markup is encoded.) *)
Definition isXmlChar (c : N) : bool :=
  (((c =? 9) || (c =? 10) || (c =? 13) || (32 <=? c))
   && negb ((c =? 65534) || (c =? 65535)))%N.

(** The rasteriser parses the document: the text of a text document, which
    [escapeXml] passes on but for the five delimiters, holds no code unit
    XML forbids.  The other documents are written from the program's own
    tables. *)
Definition svgParses (doc : SvgDoc num) : bool :=
  match doc with
  | TextSvg lines _ _ _ => forallb (forallb isXmlChar) lines
  | _ => true
  end.

(** [sharp(Buffer.from(svg)).png().toBuffer()] *)
Definition sharp_rasterize (doc : SvgDoc num) : M num (Buffer num) :=
  if svgParses doc then ret (Rasterized doc) else throw InvalidMarkup.

Definition createTextSvg (text : jsstring) (width height fontSize : num)
  : option (SvgDoc num) :=
  match wrapText text width fontSize with
  | Some lines => Some (TextSvg lines width height fontSize)
  | None => None
  end.

(* ------------------------------------------------------------------ *)
(** ** cardComposer.ts: the compositor *)
(* ------------------------------------------------------------------ *)

Definition getCropPosition (anchor : CropAnchor) : string :=
  match anchor with
  | anchor_top => "north"
  | anchor_center => "centre"
  | anchor_bottom => "south"
  end.

(** [sharp(buffer).metadata()] *)
Definition sharp_metadata (buffer : Buffer num) : M num (Z * Z) :=
  match decode buffer with
  | Some size => ret size
  | None => throw UnsupportedImage
  end.

Definition resizeAndCropArtwork (artworkBuffer : Buffer num)
  (targetWidth targetHeight : num) (layoutMode : LayoutMode)
  (cropAnchor : CropAnchor) : M num (Buffer num) :=
  _ <- sharp_metadata artworkBuffer ;;
  let cropPosition := getCropPosition cropAnchor in
  sharp_resize artworkBuffer targetWidth targetHeight fit_cover cropPosition.

(** [value || fallback] on an optional string: the empty string is falsy. *)
Definition string_or (value : option string) (fallback : string) : string :=
  match value with
  | Some EmptyString | None => fallback
  | Some v => v
  end.

(** The two layers one pass of the panel loop pushes: the background of the
    box, then its border. *)
Definition textBoxLayers (gradientColors : list string)
  (texture : TextureConfig.t num) (blur : Lookup (BlurConfig.t num))
  (glowConfig : option (OuterGlowConfig.t num))
  (i : nat) (layoutBox : TextBoxRect.t num)
  : list (Overlay.t (Buffer num) num) :=
  let backgroundSvg :=
    TextBoxBackgroundSvg (TextBoxRect.width layoutBox) (TextBoxRect.height layoutBox)
      gradientColors texture blur in
  let backgroundBuffer := Rasterized backgroundSvg in
  let border :=
    renderDoubleLineTextBoxBorder (TextBoxRect.rect layoutBox) None
      ("textbox" ++ string_of_nat i) glowConfig in
  [ Overlay.mk backgroundBuffer (TextBoxRect.x layoutBox) (TextBoxRect.y layoutBox);
    Overlay.mk (layer_buffer border)
      (Math_max (of_Z 0) (layer_x border)) (Math_max (of_Z 0) (layer_y border)) ].

(** The [composites] array the panel loop of [renderTextBoxBackgrounds]
    fills. *)
Definition textBoxComposites (textBoxColorId : option string)
  (layout : option (LayoutConfig.t num))
  (textureType : option TextureType) (blurIntensity : option string)
  (glowConfig : option (OuterGlowConfig.t num))
  : list (Overlay.t (Buffer num) num) :=
  let gradientColors := getTextBoxColorGradient (string_or textBoxColorId "obsidian") in
  let texture := getTextureConfig (nullish textureType DEFAULT_TEXTURE_TYPE) in
  let blur := getBlurConfig (string_or blurIntensity DEFAULT_BLUR_INTENSITY) in
  let currentLayout := nullish layout LANDSCAPE_LAYOUT in
  let allTextBoxes := getAllTextBoxes currentLayout in
  flat_map (fun ib : nat * TextBoxRect.t num =>
              textBoxLayers gradientColors texture blur glowConfig (fst ib) (snd ib))
           (indexed allTextBoxes).

(** The style read from [borderPreset] is handed to no one. *)
Definition renderTextBoxBackgrounds (baseBuffer : Buffer num)
  (textBoxes : list TextBoxConfig.t) (textBoxColorId : option string)
  (layout : option (LayoutConfig.t num)) (borderPreset : option BorderPreset)
  (textureType : option TextureType) (blurIntensity : option string)
  (glowConfig : option (OuterGlowConfig.t num)) : M num (Buffer num) :=
  let composites :=
    textBoxComposites textBoxColorId layout textureType blurIntensity glowConfig in
  sharp_composite baseBuffer composites.

(** [textBoxes.find(tb => tb.id === layoutBox.id)?.text || ''] *)
Definition textOfBox (textBoxes : list TextBoxConfig.t) (boxId : string) : jsstring :=
  match find (fun tb => String.eqb (TextBoxConfig.id tb) boxId) textBoxes with
  | Some textConfig => TextBoxConfig.text textConfig
  | None => []
  end.

(** [!text.trim()] *)
Definition isBlank (text : jsstring) : bool :=
  match trim text with [] => true | _ => false end.

(** One pass of the text loop: nothing for a blank text ([continue]),
    otherwise the glyph layer of the box, rasterised from its SVG.  A
    [wrapText] that makes no headway pushes lines until the array can grow
    no more, which throws a RangeError.  The font loop takes two off a
    fixed size until it reaches the floor, thirteen times at most, and so
    ends within its fuel; [None] would be a loop that does not end. *)
Definition textLayer (textBoxes : list TextBoxConfig.t) (layoutBox : TextBoxRect.t num)
  : M num (list (Overlay.t (Buffer num) num)) :=
  let text := textOfBox textBoxes (TextBoxRect.id layoutBox) in
  if isBlank text then ret []
  else
    match calculateFontSize text (TextBoxRect.id layoutBox)
            (TextBoxRect.width layoutBox) (TextBoxRect.height layoutBox) with
    | None => diverge
    | Some fontSize =>
        match createTextSvg text (TextBoxRect.width layoutBox)
                (TextBoxRect.height layoutBox) fontSize with
        | None => throw InvalidArrayLength
        | Some textSvg =>
            textBuffer <- sharp_rasterize textSvg ;;
            ret [Overlay.mk textBuffer
                   (TextBoxRect.x layoutBox) (TextBoxRect.y layoutBox)]
        end
    end.

Definition renderTextContent (baseBuffer : Buffer num)
  (textBoxes : list TextBoxConfig.t) (layout : option (LayoutConfig.t num))
  : M num (Buffer num) :=
  let currentLayout := nullish layout LANDSCAPE_LAYOUT in
  let allTextBoxes := getAllTextBoxes currentLayout in
  composites <-
    foldM (fun composites layoutBox =>
             layer <- textLayer textBoxes layoutBox ;;
             ret (composites ++ layer))
          allTextBoxes [] ;;
  match composites with
  | [] => ret baseBuffer
  | _ => sharp_composite baseBuffer composites
  end.

(** [!artworkBuffer || artworkBuffer.length === 0] *)
Definition isEmptyBuffer (buffer : Buffer num) : bool :=
  match buffer with
  | Raw [] => true
  | _ => false
  end.

(** The layout [composeCard] works on: the variant if given, else the mode
    (landscape by default), scaled unless the preset is absent or standard. *)
Definition composeCard_layout (options : ComposeCardOptions.t num)
  : LayoutConfig.t num :=
  let layout :=
    match ComposeCardOptions.layoutVariant options with
    | Some layoutVariant => getLayoutConfigByVariant layoutVariant
    | None => getLayoutConfig (nullish (ComposeCardOptions.layoutMode options) landscape)
    end in
  match ComposeCardOptions.scalePreset options with
  | Some standard | None => layout
  | Some scalePreset => applyScalePreset layout scalePreset
  end.

(** The glow configuration [composeCard] works with:
    [glowIntensity ? getGlowConfig(glowIntensity) : undefined]. *)
Definition composeCard_glowConfig (options : ComposeCardOptions.t num)
  : option (OuterGlowConfig.t num) :=
  match ComposeCardOptions.glowIntensity options with
  | Some glowIntensity => Some (getGlowConfig glowIntensity)
  | None => None
  end.

(** The statements of [composeCard] that follow the border validation. *)
Definition composeCard_render (options : ComposeCardOptions.t num)
  : M num (Buffer num) :=
  let backgroundBuffer := ComposeCardOptions.backgroundBuffer options in
  let artworkBuffer := ComposeCardOptions.artworkBuffer options in
  let textBoxes := ComposeCardOptions.textBoxes options in
  let layoutMode := nullish (ComposeCardOptions.layoutMode options) landscape in
  let layout := composeCard_layout options in
  let effectiveLayoutMode :=
    match ComposeCardOptions.layoutVariant options with
    | Some layoutVariant => getLayoutModeFromVariant layoutVariant
    | None => layoutMode
    end in
  let effectiveCropAnchor :=
    nullish (ComposeCardOptions.cropAnchor options)
            (getDefaultCropAnchor effectiveLayoutMode) in
  let glowConfig := composeCard_glowConfig options in
  (if isEmptyBuffer artworkBuffer then throw EmptyArtwork else ret tt) ;;;
  resultBuffer <-
    sharp_resize backgroundBuffer
      (Canvas.width (LayoutConfig.canvas layout))
      (Canvas.height (LayoutConfig.canvas layout)) fit_cover "center" ;;
  sharp_input backgroundBuffer ;;;
  let artworkFrame := LayoutConfig.artworkFrame layout in
  artworkMetadata <- sharp_metadata artworkBuffer ;;
  (if (fst artworkMetadata =? 0)%Z || (snd artworkMetadata =? 0)%Z
   then throw UnreadableArtworkSize else ret tt) ;;;
  resizedArtwork <-
    resizeAndCropArtwork artworkBuffer (FrameRect.width artworkFrame)
      (FrameRect.height artworkFrame) effectiveLayoutMode effectiveCropAnchor ;;
  resultBuffer <-
    sharp_composite resultBuffer
      [Overlay.mk resizedArtwork (FrameRect.x artworkFrame) (FrameRect.y artworkFrame)] ;;
  let artworkBorder := renderDoubleLineArtworkBorder artworkFrame None glowConfig in
  resultBuffer <-
    sharp_composite resultBuffer
      [Overlay.mk (layer_buffer artworkBorder)
         (Math_max (of_Z 0) (layer_x artworkBorder))
         (Math_max (of_Z 0) (layer_y artworkBorder))] ;;
  resultBuffer <-
    renderTextBoxBackgrounds resultBuffer textBoxes
      (ComposeCardOptions.textBoxColorId options) (Some layout)
      (ComposeCardOptions.borderPreset options)
      (ComposeCardOptions.textureType options)
      (ComposeCardOptions.blurIntensity options) glowConfig ;;
  resultBuffer <- renderTextContent resultBuffer textBoxes (Some layout) ;;
  ret resultBuffer.

(** [composeCard] with the border validation it calls as a parameter: the
    layout and glow are resolved, the validation is run and a failed one is
    reported with [console.warn], then the card is rendered. *)
Definition composeCardWith
  (validate : LayoutConfig.t num -> option (OuterGlowConfig.t num) -> LayoutValidation.t)
  (options : ComposeCardOptions.t num) : M num (Buffer num) :=
  let layout := composeCard_layout options in
  let glowConfig := composeCard_glowConfig options in
  let layoutValidation := validate layout glowConfig in
  (if negb (LayoutValidation.valid layoutValidation)
   then console_warn (LayoutValidation.errors layoutValidation)
   else ret tt) ;;;
  composeCard_render options.

Definition composeCard (options : ComposeCardOptions.t num) : M num (Buffer num) :=
  composeCardWith validateLayoutBorders options.

(* ------------------------------------------------------------------ *)
(** ** Vocabulary of the statements *)
(* ------------------------------------------------------------------ *)

(** The rects of a layout: illustration frame, title panel, content panels. *)
Definition layout_rects (l : LayoutConfig.t num) : list (FrameRect.t num) :=
  LayoutConfig.artworkFrame l :: map (@TextBoxRect.rect num) (getAllTextBoxes l).

(** A rect lies inside the canvas. *)
Definition insideCanvas (c : Canvas.t num) (r : FrameRect.t num) : bool :=
  (of_Z 0 <=? FrameRect.x r) && (of_Z 0 <=? FrameRect.y r)
  && (FrameRect.x r + FrameRect.width r <=? Canvas.width c)
  && (FrameRect.y r + FrameRect.height r <=? Canvas.height c).

(** Every rect of [a] is strictly narrower than the rect of [b] at the same
    place of the layout. *)
Definition narrowerThan (a b : LayoutConfig.t num) : bool :=
  (List.length (layout_rects a) =? List.length (layout_rects b))%nat
  && forallb (fun p => FrameRect.width (fst p) <? FrameRect.width (snd p))
             (combine (layout_rects a) (layout_rects b)).

End Program.

Arguments BorderLayer num : clear implicits.

(* ================================================================== *)
(** * Vocabulary of the statements at the two instances *)
(* ================================================================== *)

(** The presets from the smallest to the largest. *)
Definition SCALE_ORDER : list ScalePreset := [mini; slim; compact; moderate; standard].

(** The layout a preset yields from a catalogue variant. *)
Definition scaled (variant : LayoutVariant) (preset : ScalePreset)
  : LayoutConfig.t Double.t :=
  applyScalePreset (LAYOUT_VARIANTS variant) preset.


(** An integer small enough for sums of a few such to stay exact on
    doubles. *)
Definition pixelRange (z : Z) : Prop := (Z.abs z <= 2 ^ 40)%Z.





(** The edges of a rect expanded outward by the footprint of its border. *)
Definition expandedLeft (f : FrameRect.t Q) (b : BorderDimensions.t Q) : Q :=
  FrameRect.x f - calculateTotalBorderSpace b.

Definition expandedRight (f : FrameRect.t Q) (b : BorderDimensions.t Q) : Q :=
  FrameRect.x f + FrameRect.width f + calculateTotalBorderSpace b.

Definition expandedTop (f : FrameRect.t Q) (b : BorderDimensions.t Q) : Q :=
  FrameRect.y f - calculateTotalBorderSpace b.

Definition expandedBottom (f : FrameRect.t Q) (b : BorderDimensions.t Q) : Q :=
  FrameRect.y f + FrameRect.height f + calculateTotalBorderSpace b.

(** A rect of non-negative size with a non-negative border footprint. *)
Definition wellFormed (f : FrameRect.t Q) (b : BorderDimensions.t Q) : Prop :=
  0 <= FrameRect.width f /\ 0 <= FrameRect.height f
  /\ 0 <= calculateTotalBorderSpace b.

(** The intervals [lo1, hi1] and [lo2, hi2] lie apart, [sep] being the
    distance from the end of the first to the start of the second. *)
Definition apartBy (lo1 hi1 lo2 hi2 sep : Q) : Prop :=
  (hi1 < lo2 /\ lo2 - hi1 == sep) \/ (hi2 < lo1 /\ lo1 - hi2 == sep).

Definition apart (lo1 hi1 lo2 hi2 : Q) : Prop := hi1 < lo2 \/ hi2 < lo1.

(** The two intervals share a point. *)
Definition meet (lo1 hi1 lo2 hi2 : Q) : Prop := lo2 <= hi1 /\ lo1 <= hi2.

(** The same on integers. *)
Definition apartByZ (lo1 hi1 lo2 hi2 sep : Z) : Prop :=
  ((hi1 < lo2 /\ lo2 - hi1 = sep) \/ (hi2 < lo1 /\ lo1 - hi2 = sep))%Z.

Definition apartZ (lo1 hi1 lo2 hi2 : Z) : Prop := (hi1 < lo2 \/ hi2 < lo1)%Z.

Definition meetZ (lo1 hi1 lo2 hi2 : Z) : Prop := (lo2 <= hi1 /\ lo1 <= hi2)%Z.

(** C3's clause on diagonal placements as the specification words it: a
    box that starts where the other ends, or further on, along both axes
    (the footprints counted in) passes, be the gap zero. *)
Definition diagonalPlacementsPass : Prop :=
  forall (f1 f2 : FrameRect.t Double.t) (b1 b2 : BorderDimensions.t Double.t)
         (minGap : Double.t),
    let s1 := calculateTotalBorderSpace b1 in
    let s2 := calculateTotalBorderSpace b2 in
    leb (add (add (FrameRect.x f1) (FrameRect.width f1)) s1) (sub (FrameRect.x f2) s2)
    = true ->
    leb (add (add (FrameRect.y f1) (FrameRect.height f1)) s1) (sub (FrameRect.y f2) s2)
    = true ->
    validateBorderGap f1 f2 b1 b2 minGap = true.

(** Border dimensions without any width. *)
Definition noBorder : BorderDimensions.t Double.t :=
  BorderDimensions.mk (of_Z 0) (of_Z 0) (of_Z 0) (of_Z 0) (of_Z 0).

(** The artwork frame of the catalogue and a title box placed so that the
    expanded boxes are exactly [MIN_BORDER_GAP] apart, with the default
    (medium) glow. *)
Definition gapExampleFrame1 : FrameRect.t Q := FrameRect.mk 40 40 390 688.
Definition gapExampleFrame2 : FrameRect.t Q := FrameRect.mk 468 40 504 100.

(** The ids of the three enums of C9. *)
Definition BLUR_INTENSITY_IDS : list string := ["light"; "medium"; "strong"]%string.

Definition PREMIUM_COLOR_IDS : list string :=
  ["obsidian"; "bronze"; "slate"; "burgundy"; "forest"; "navy"]%string.

(** C9 as the specification words it: each of the three lookups ends in an
    error on every id outside its enum.  The two configuration lookups are
    functions that return a value; [Ok] is that return. *)
Definition unknownIdsAreFatal : Prop :=
  (forall fs decode (cardBuffer : Buffer Double.t) cardWidth cardHeight layoutVariant
          insetOffset borderThickness w (id : string),
      ~ In id VALID_PRESET_IDS ->
      is_error (fst (renderFrame fs decode cardBuffer
                       (FrameRenderOptions.mk id cardWidth cardHeight layoutVariant
                          insetOffset borderThickness) w)) = true)
  /\ (forall id : string,
        ~ In id BLUR_INTENSITY_IDS ->
        is_error (Ok (getBlurConfig (num := Double.t) id)) = true)
  /\ (forall id : string,
        ~ In id PREMIUM_COLOR_IDS ->
        is_error (Ok (getTextBoxColorGradient id)) = true).

(** The failing input of C7: the cyber frame on a landscape card with the
    edge thickness overridden to 30. *)
Definition thicknessOverrideOptions : FrameRenderOptions.t Double.t :=
  FrameRenderOptions.mk "cyber" (of_Z 1024) (of_Z 768) (Some landscape_square)
    None (Some (of_Z 30)).

Definition emptyWorld {num} : World.t num := World.mk [] [].

(** The layers of a composited buffer. *)
Definition layersOf {num} (b : Buffer num) : list (Overlay.t (Buffer num) num) :=
  match b with
  | Composited _ layers => layers
  | _ => []
  end.

(** The pixel sizes of the edge strips of an assembled frame: the layers
    after the four corners. *)
Definition stripRasters {num} `{JsNumber num} (framed : Buffer num)
  : list (option (num * num)) :=
  map (fun ov => raster_size (Overlay.input ov)) (skipn 4 (layersOf framed)).

(** The placement rectangle [renderFrame] computes for an edge strip at
    [thicknessOverrideOptions]. *)
Definition overridePlacement (position : BorderPosition) : StripDimensions.t Double.t :=
  calculateBorderPosition position (of_Z 1024) (of_Z 768)
    (Math_round (mul (of_Z 100) (of_Z 1)))
    (Math_round (mul (of_Z 30) (of_Z 1)))
    (Math_max (of_Z 0) (Math_min (of_Z 20) (of_Z 10))).

(** The thickness of a placement rectangle: its height for the top and
    bottom strips, its width for the left and right ones. *)
Definition placementThickness {num} (position : BorderPosition)
  (dims : StripDimensions.t num) : num :=
  match position with
  | border_top | border_bottom => StripDimensions.height dims
  | border_left | border_right => StripDimensions.width dims
  end.

(** A line holds at most [maxChars] code units. *)
Definition fitsIn (maxChars : xint) (line : jsstring) : Prop :=
  xint_leb (XFin (Z.of_nat (List.length line))) maxChars = true.

(** Structural equality of doubles. *)
Definition spec_float_eqb (a b : spec_float) : bool :=
  match a, b with
  | S754_zero s, S754_zero s' => Bool.eqb s s'
  | S754_infinity s, S754_infinity s' => Bool.eqb s s'
  | S754_nan, S754_nan => true
  | S754_finite s m e, S754_finite s' m' e' =>
      Bool.eqb s s' && (m =? m')%positive && (e =? e')%Z
  | _, _ => false
  end.

(** The font sizes the shrinking loop of [calculateFontSize] can pass
    through, from the title size down to the floor. *)
Definition FONT_SIZES : list Double.t :=
  map Double.of_Z [48; 46; 44; 42; 40; 38; 36; 34; 32; 30; 28; 26; 24]%Z.

(** [sizes] is a run of the loop: each size but the last exceeds the floor
    and is followed by itself minus 2; the last does not exceed the floor. *)
Fixpoint shrinkChain (sizes : list Double.t) : bool :=
  match sizes with
  | [] => false
  | a :: rest =>
      match rest with
      | [] => negb (ltb MIN_FONT_SIZE a)
      | b :: _ =>
          ltb MIN_FONT_SIZE a && spec_float_eqb (sub a (of_Z 2)) b
          && shrinkChain rest
      end
  end.

(** At every font size of the loop the box has room for one character per
    line at least. *)
Definition boxTakesText (box : TextBoxRect.t Double.t) : bool :=
  forallb (fun fontSize =>
             xint_leb (XFin 1) (maxCharsPerLine (TextBoxRect.width box) fontSize))
          FONT_SIZES.

(** The final [Math.max(fontSize, minFontSize)] leaves a size of the loop
    as it is. *)
Definition atLeastFloor (fontSize : Double.t) : bool :=
  spec_float_eqb (Math_max fontSize MIN_FONT_SIZE) fontSize.

(** The text entry of a box is missing, empty or blank. *)
Definition hasNoText {num} (texts : list TextBoxConfig.t) (box : TextBoxRect.t num)
  : bool :=
  isBlank (textOfBox texts (TextBoxRect.id box)).

(** A text the rasteriser can draw: it holds no code unit XML forbids. *)
Definition drawable (text : jsstring) : bool := forallb isXmlChar text.

(** Every box has a text that is skipped, being blank, or can be drawn. *)
Definition textsDrawable {num} (texts : list TextBoxConfig.t)
  (boxes : list (TextBoxRect.t num)) : bool :=
  forallb (fun box =>
             hasNoText texts box || drawable (textOfBox texts (TextBoxRect.id box)))
          boxes.

(** [composite] takes the layer on a base of the given size: its place is
    a pair of integers and its image is no larger than the base. *)
Definition layerFits {num} `{JsNumber num} (baseWidth baseHeight : num)
  (ov : Overlay.t (Buffer num) num) : bool :=
  Number_isInteger (Overlay.left ov) && Number_isInteger (Overlay.top ov)
  && match raster_size (Overlay.input ov) with
     | Some (width, height) =>
         negb (ltb baseWidth width) && negb (ltb baseHeight height)
     | None => false
     end.

(** What the panel loop of [composeCard] composites onto [base]. *)
Definition panelStage {num} `{JsNumber num} (options : ComposeCardOptions.t num)
  (base : Buffer num) : Buffer num :=
  Composited base
    (textBoxComposites
       (ComposeCardOptions.textBoxColorId options)
       (Some (composeCard_layout options))
       (ComposeCardOptions.textureType options)
       (ComposeCardOptions.blurIntensity options)
       (composeCard_glowConfig options)).

(** The background layer of a box, as the panel loop places it. *)
Definition isBackgroundOf {num} (box : TextBoxRect.t num)
  (ov : Overlay.t (Buffer num) num) : Prop :=
  exists gradientColors texture blur,
    ov = Overlay.mk
           (Rasterized (TextBoxBackgroundSvg (TextBoxRect.width box)
                          (TextBoxRect.height box) gradientColors texture blur))
           (TextBoxRect.x box) (TextBoxRect.y box).

(** The border layer of the [i]-th box, as the panel loop places it. *)
Definition isBorderOf {num} `{JsNumber num} (options : ComposeCardOptions.t num)
  (i : nat) (box : TextBoxRect.t num) (ov : Overlay.t (Buffer num) num) : Prop :=
  let border :=
    renderDoubleLineTextBoxBorder (TextBoxRect.rect box) None
      ("textbox" ++ string_of_nat i) (composeCard_glowConfig options) in
  ov = Overlay.mk (layer_buffer border)
         (Math_max (of_Z 0) (layer_x border)) (Math_max (of_Z 0) (layer_y border)).

(** A computation that neither reads nor changes the world. *)
Definition stateless {num A} (m : M num A) : Prop :=
  exists o, forall w, m w = (o, w).

(** A glyph layer: a rasterised text document. *)
Definition isGlyphLayer {num} (ov : Overlay.t (Buffer num) num) : bool :=
  match Overlay.input ov with
  | Rasterized (TextSvg _ _ _ _) => true
  | _ => false
  end.

(** A request on which the border validation fails: the landscape-square
    variant at the mini scale with the medium glow, where the boxes end up
    35px apart and the two footprints with the minimum gap need 36. *)
Definition crowdedOptions : ComposeCardOptions.t Double.t :=
  ComposeCardOptions.mk (Raw [Byte.x01]) (Raw [Byte.x02])
    [TextBoxConfig.mk "title" (js_of_string "Hero")]
    None None (Some landscape_square) None None None (Some glow_medium)
    (Some mini) None.

(** A decoder that reads every buffer as a 720x1280 image. *)
Definition decodeAll (b : Buffer Double.t) : option (Z * Z) := Some (720, 1280)%Z.

(** The world after [composeCard]'s validation step: a failed validation
    adds its messages as one warning, nothing else changes. *)
Definition warned {num} (validation : LayoutValidation.t) (w : World.t num)
  : World.t num :=
  if LayoutValidation.valid validation then w
  else World.mk (World.assetCache w)
         (World.warnings w ++ [LayoutValidation.errors validation]).

(** On doubles: taking the footprint off the placed layer gives back the
    rect, for both border kinds. *)
Definition roundTripExact (glowConfig : option (OuterGlowConfig.t Double.t))
  (frame : FrameRect.t Double.t) : bool :=
  let check (layer : BorderLayer Double.t) (space : Double.t) :=
    match raster_size (layer_buffer layer) with
    | Some (w, h) =>
        spec_float_eqb (add (layer_x layer) space) (FrameRect.x frame)
        && spec_float_eqb (add (layer_y layer) space) (FrameRect.y frame)
        && spec_float_eqb (sub w (mul (of_Z 2) space)) (FrameRect.width frame)
        && spec_float_eqb (sub h (mul (of_Z 2) space)) (FrameRect.height frame)
    | None => false
    end in
  check (renderDoubleLineArtworkBorder frame None glowConfig)
        (calculateTotalBorderSpace (getArtworkBorderDimensions glowConfig))
  && check (renderDoubleLineTextBoxBorder frame None "textbox" glowConfig)
           (calculateTotalBorderSpace (getTextBoxBorderDimensions glowConfig)).

Definition GLOW_CHOICES : list (option (OuterGlowConfig.t Double.t)) :=
  None :: map (fun i => Some (getGlowConfig i))
              [glow_subtle; glow_medium; glow_strong; glow_none].

(** The thickness of each rasterised strip, in the order of [ALL_BORDERS]:
    the height of a horizontal strip, the width of a rotated one. *)
Definition stripThicknesses {num} `{JsNumber num} (framed : Buffer num)
  : list (option num) :=
  map (fun pr : BorderPosition * option (num * num) =>
         match snd pr with
         | Some (w, h) =>
             match fst pr with
             | border_top | border_bottom => Some h
             | border_left | border_right => Some w
             end
         | None => None
         end)
      (combine ALL_BORDERS (stripRasters framed)).

(** A frame request for a catalogue card, as the route builds it. *)
Definition frameRequest (presetId : string) (variant : LayoutVariant)
  (borderThickness : option Double.t) : FrameRenderOptions.t Double.t :=
  let canvas := LayoutConfig.canvas (LAYOUT_VARIANTS variant) in
  FrameRenderOptions.mk presetId (Canvas.width canvas) (Canvas.height canvas)
    (Some variant) None borderThickness.

(** A decoder that reads every buffer as an image of the card size the
    request states. *)
Definition decodeCard (options : FrameRenderOptions.t Double.t) (b : Buffer Double.t)
  : option (Z * Z) :=
  match Double.to_Z (FrameRenderOptions.cardWidth options),
        Double.to_Z (FrameRenderOptions.cardHeight options) with
  | Some width, Some height => Some (width, height)
  | _, _ => None
  end.

(** The strips of the frame rendered for [options] are as thick as
    [thickness] scaled for the layout. *)
Definition stripsAreThick (options : FrameRenderOptions.t Double.t)
  (thickness : Double.t) : bool :=
  let scaled :=
    Math_round (mul thickness
                    (getScaleFactorForLayout (FrameRenderOptions.layoutVariant options))) in
  match fst (renderFrame (fun _ => true) (decodeCard options) (Raw [Byte.x00]) options
               emptyWorld) with
  | Ok framed =>
      forallb (fun t => match t with
                        | Some t => spec_float_eqb t scaled
                        | None => false
                        end)
              (stripThicknesses framed)
      && (List.length (stripThicknesses framed) =? 4)%nat
  | _ => false
  end.

(* ================================================================== *)
(** * Further functions of the same files *)
(* ================================================================== *)

(** ** cardComposer.ts: markup escaping *)

(** [s.replace(/c/g, by)] for a single code unit [c]. *)
Definition replaceAll (c : N) (by_ : jsstring) (s : jsstring) : jsstring :=
  flat_map (fun d => if (d =? c)%N then by_ else [d]) s.

Definition escapeXml (text : jsstring) : jsstring :=
  replaceAll 39 (js_of_string "&apos;")
    (replaceAll 34 (js_of_string "&quot;")
       (replaceAll 62 (js_of_string "&gt;")
          (replaceAll 60 (js_of_string "&lt;")
             (replaceAll 38 (js_of_string "&amp;") text)))).

(** The entity that stands for one code unit, or the code unit itself. *)
Definition escapeUnit (c : N) : jsstring :=
  if (c =? 38)%N then js_of_string "&amp;"
  else if (c =? 60)%N then js_of_string "&lt;"
  else if (c =? 62)%N then js_of_string "&gt;"
  else if (c =? 34)%N then js_of_string "&quot;"
  else if (c =? 39)%N then js_of_string "&apos;"
  else [c].

(** The code units that open or close markup or an attribute value. *)
Definition isMarkupDelimiter (c : N) : bool :=
  ((c =? 60) || (c =? 62) || (c =? 34) || (c =? 39))%N.

(** A text without its line feeds. *)
Definition withoutLineFeeds (text : jsstring) : jsstring :=
  filter (fun c => negb (c =? 10)%N) text.

(** The test of the shrinking loop of [calculateFontSize]: the wrapped text
    is no higher than the box less its 20px of padding. *)
Definition textFits (text : jsstring) (lineHeight boxWidth boxHeight fontSize : Double.t)
  : bool :=
  leb (mul (mul (of_xint (calculateTextLines text boxWidth fontSize)) fontSize) lineHeight)
      (sub boxHeight (of_Z 20)).

(** The sizes the loop passes through for a box: from 48 for the title,
    from 36 for a content box, down to 24. *)
Definition fontSizesOf (boxId : string) : list Double.t :=
  if String.eqb boxId "title" then FONT_SIZES else skipn 6 FONT_SIZES.

Definition lineHeightOf (boxId : string) : Double.t :=
  if String.eqb boxId "title" then TITLE_LINE_HEIGHT else CONTENT_LINE_HEIGHT.


(** ** cardComposer.ts: what a composed card is made of *)

(** The error [composeCard] ends with, read off its images and texts: an
    empty illustration, a background or an illustration the decoder rejects,
    an illustration without a width or a height, a text the rasteriser
    cannot draw. *)
Definition composeRefusal (decode : Buffer Double.t -> option (Z * Z))
  (options : ComposeCardOptions.t Double.t) : option Error :=
  if isEmptyBuffer (ComposeCardOptions.artworkBuffer options) then Some EmptyArtwork
  else
    match decode (ComposeCardOptions.backgroundBuffer options) with
    | None => Some UnsupportedImage
    | Some _ =>
        match decode (ComposeCardOptions.artworkBuffer options) with
        | None => Some UnsupportedImage
        | Some (width, height) =>
            if (width =? 0)%Z || (height =? 0)%Z then Some UnreadableArtworkSize
            else if textsDrawable (ComposeCardOptions.textBoxes options)
                      (getAllTextBoxes (composeCard_layout options))
                 then None
                 else Some InvalidMarkup
        end
    end.

(** The image a stack of [composite] calls starts from. *)
Fixpoint bottomOf {num} (b : Buffer num) : Buffer num :=
  match b with
  | Composited base _ => bottomOf base
  | _ => b
  end.

(** The layers of a stack of [composite] calls, the lowest first. *)
Fixpoint compositeStack {num} (b : Buffer num) : list (Overlay.t (Buffer num) num) :=
  match b with
  | Composited base layers => compositeStack base ++ layers
  | _ => []
  end.

(** The orientation a request ends up with: that of the variant when there
    is one, else the mode, landscape when both are omitted. *)
Definition orientationOf {num} (options : ComposeCardOptions.t num) : LayoutMode :=
  match ComposeCardOptions.layoutVariant options with
  | Some layoutVariant => getLayoutModeFromVariant layoutVariant
  | None => nullish (ComposeCardOptions.layoutMode options) landscape
  end.

Definition canvasOf (mode : LayoutMode) : Double.t * Double.t :=
  match mode with
  | landscape => (of_Z 1024, of_Z 768)
  | portrait => (of_Z 768, of_Z 1024)
  end.

(** The illustration as [composeCard] lays it on the background. *)
Definition illustrationLayer {num} `{JsNumber num} (options : ComposeCardOptions.t num)
  : Overlay.t (Buffer num) num :=
  let artworkFrame := LayoutConfig.artworkFrame (composeCard_layout options) in
  let cropAnchor :=
    nullish (ComposeCardOptions.cropAnchor options)
            (getDefaultCropAnchor (orientationOf options)) in
  Overlay.mk
    (Resized (ComposeCardOptions.artworkBuffer options)
       (FrameRect.width artworkFrame) (FrameRect.height artworkFrame)
       fit_cover (getCropPosition cropAnchor))
    (FrameRect.x artworkFrame) (FrameRect.y artworkFrame).

(** The border of the illustration as [composeCard] lays it on. *)
Definition illustrationBorderLayer {num} `{JsNumber num}
  (options : ComposeCardOptions.t num) : Overlay.t (Buffer num) num :=
  let artworkBorder :=
    renderDoubleLineArtworkBorder
      (LayoutConfig.artworkFrame (composeCard_layout options)) None
      (composeCard_glowConfig options) in
  Overlay.mk (layer_buffer artworkBorder)
    (Math_max (of_Z 0) (layer_x artworkBorder))
    (Math_max (of_Z 0) (layer_y artworkBorder)).

(** The card before the panel loop. *)
Definition illustrationStage {num} `{JsNumber num} (options : ComposeCardOptions.t num)
  : Buffer num :=
  let layout := composeCard_layout options in
  Composited
    (Composited
       (Resized (ComposeCardOptions.backgroundBuffer options)
          (Canvas.width (LayoutConfig.canvas layout))
          (Canvas.height (LayoutConfig.canvas layout)) fit_cover "center")
       [illustrationLayer options])
    [illustrationBorderLayer options].

(** The glyph layer of a box, whatever its text, fits a base of the given
    size. *)
Definition glyphFits (baseWidth baseHeight : Double.t) (box : TextBoxRect.t Double.t)
  : bool :=
  layerFits baseWidth baseHeight
    (Overlay.mk
       (Rasterized (TextSvg [] (TextBoxRect.width box) (TextBoxRect.height box) (of_Z 0)))
       (TextBoxRect.x box) (TextBoxRect.y box)).

(** The geometry [composeCard] hands to [resize] and [composite] is made
    of pixels: the canvas and the illustration frame have positive integer
    sizes, and every layer has an integer place and fits the canvas. *)
Definition composeGeometryFits (options : ComposeCardOptions.t Double.t) : bool :=
  let layout := composeCard_layout options in
  let canvasWidth := Canvas.width (LayoutConfig.canvas layout) in
  let canvasHeight := Canvas.height (LayoutConfig.canvas layout) in
  isPositiveInteger canvasWidth && isPositiveInteger canvasHeight
  && isPositiveInteger (FrameRect.width (LayoutConfig.artworkFrame layout))
  && isPositiveInteger (FrameRect.height (LayoutConfig.artworkFrame layout))
  && forallb (layerFits canvasWidth canvasHeight)
       (illustrationLayer options :: illustrationBorderLayer options
        :: layersOf (panelStage options (illustrationStage options)))
  && forallb (glyphFits canvasWidth canvasHeight) (getAllTextBoxes layout).

(** The scale and glow choices at which the border footprints of a
    catalogue layout come closer than the minimum gap. *)
Definition crowded (scalePreset : option ScalePreset) (glowIntensity : option GlowIntensity)
  : bool :=
  match scalePreset, glowIntensity with
  | Some mini, (None | Some glow_medium | Some glow_strong) => true
  | Some slim, Some glow_strong => true
  | _, _ => false
  end.

(** The footprint of every border of a layout lies inside the canvas. *)
Definition bordersInsideCanvas (glowConfig : option (OuterGlowConfig.t Double.t))
  (layout : LayoutConfig.t Double.t) : bool :=
  let canvas := LayoutConfig.canvas layout in
  validateBorderWithinCanvas (LayoutConfig.artworkFrame layout)
    (getArtworkBorderDimensions glowConfig) (Canvas.width canvas) (Canvas.height canvas)
  && forallb (fun box =>
                validateBorderWithinCanvas (TextBoxRect.rect box)
                  (getTextBoxBorderDimensions glowConfig)
                  (Canvas.width canvas) (Canvas.height canvas))
             (getAllTextBoxes layout).

(** [Math.max(0, x)] leaves the place of every border layer as it is. *)
Definition bordersUnclamped (glowConfig : option (OuterGlowConfig.t Double.t))
  (layout : LayoutConfig.t Double.t) : bool :=
  let unclamped (layer : BorderLayer Double.t) :=
    spec_float_eqb (Math_max (of_Z 0) (layer_x layer)) (layer_x layer)
    && spec_float_eqb (Math_max (of_Z 0) (layer_y layer)) (layer_y layer) in
  unclamped (renderDoubleLineArtworkBorder (LayoutConfig.artworkFrame layout) None glowConfig)
  && forallb (fun box =>
                unclamped (renderDoubleLineTextBoxBorder (TextBoxRect.rect box) None
                             "textbox" glowConfig))
             (getAllTextBoxes layout).

(** ** scaleConfig.ts: a factor that is not a number *)

(** A rect whose four fields are NaN. *)
Definition notANumberRect : FrameRect.t Double.t :=
  FrameRect.mk S754_nan S754_nan S754_nan S754_nan.

(** A layout whose rects are all [notANumberRect]; canvas, ids and the
    number of boxes are those of [layout]. *)
Definition notANumberLayout (layout : LayoutConfig.t Double.t) : LayoutConfig.t Double.t :=
  LayoutConfig.mk (LayoutConfig.canvas layout) notANumberRect
    (TextBoxRect.mk (TextBoxRect.id (LayoutConfig.titleBox layout)) notANumberRect)
    (map (fun box => TextBoxRect.mk (TextBoxRect.id box) notANumberRect)
         (LayoutConfig.contentBoxes layout)).


(* ------------------------------------------------------------------ *)
(** ** assetLoader.ts: the other operations on the cache *)
(* ------------------------------------------------------------------ *)

(** An entry of the array [preloadAssets] returns. *)
Module PreloadResult.
Record t : Type := mk { path : string; success : bool; error : option Error }.
End PreloadResult.

(** [try { body } catch (error) { handler(error) }] *)
Definition try_catch {num A} (body : M num A) (handler : Error -> M num A) : M num A :=
  fun w =>
    match body w with
    | (Throw e, w') => handler e w'
    | result => result
    end.

Section AssetLoader.

Context {num : Type} `{JsNumber num}.
Variable fs_existsSync : string -> bool.
Variable decode : Buffer num -> option (Z * Z).

Local Open Scope monad_scope.

Definition loadAssetWithSize (assetPath : string) (width height : num)
  : M num (Buffer num) :=
  buffer <- loadAsset fs_existsSync decode assetPath ;;
  image <- sharp_resize buffer width height fit_fill "lanczos3" ;;
  sharp_input decode buffer ;;;
  ret image.

Definition clearAssetCache : M num unit :=
  fun w => (Ok tt, World.mk [] (World.warnings w)).

Definition isAssetCached (assetPath : string) : M num bool :=
  fun w =>
    (Ok (match own_property (World.assetCache w) assetPath with
         | Some _ => true
         | None => false
         end), w).

Definition preloadAssets (assetPaths : list string) : M num (list PreloadResult.t) :=
  foldM (fun results assetPath =>
           try_catch
             (loadAsset fs_existsSync decode assetPath ;;;
              ret (results ++ [PreloadResult.mk assetPath true None]))
             (fun error =>
                ret (results ++ [PreloadResult.mk assetPath false (Some error)])))
        assetPaths [].

End AssetLoader.

(** A path is in the cache of a world. *)
Definition cached {num} (assetPath : string) (w : World.t num) : bool :=
  match own_property (World.assetCache w) assetPath with
  | Some _ => true
  | None => false
  end.

(** Every entry of the cache holds the asset of its own path. *)
Definition cacheFaithful {num} (w : World.t num) : Prop :=
  forall assetPath buffer,
    own_property (World.assetCache w) assetPath = Some buffer ->
    buffer = AssetFile assetPath.

(** A file system in which the cyber assets are present. *)
Definition cyberFiles (assetPath : string) : bool :=
  String.eqb assetPath "frames/cyber/corner.svg"
  || String.eqb assetPath "frames/cyber/border.svg".

(* ------------------------------------------------------------------ *)
(** ** frameRenderer.ts: the report of the geometry, and what a frame is *)
(* ------------------------------------------------------------------ *)

(** The object [getFrameRenderInfo] returns. *)
Module FrameRenderInfo.
Record t (num : Type) : Type := mk {
  preset : FramePresetConfig.t num;
  scaleFactor : num;
  effectiveCornerSize : num;
  effectiveBorderThickness : num;
  effectiveInsetOffset : num;
  corners : list (CornerPosition * Position.t num);
  borders : list (BorderPosition * StripDimensions.t num)
}.
End FrameRenderInfo.

(** A specification of a computation: run in a world that satisfies [P],
    it returns a value and a world that satisfy [Q], or throws an error
    with a world that satisfy [E]; it does not run on. *)
Definition hoare {num A} (P : World.t num -> Prop) (m : M num A)
  (Q : A -> World.t num -> Prop) (E : Error -> World.t num -> Prop) : Prop :=
  forall w, P w ->
    match m w with
    | (Ok a, w') => Q a w'
    | (Throw e, w') => E e w'
    | (Diverge, _) => False
    end.

(** The worlds the frame assembler runs in and leaves: a faithful cache,
    the given warnings, the given paths cached. *)
Definition frameWorld {num} (warnings : list (list LayoutIssue)) (loaded : list string)
  (w : World.t num) : Prop :=
  cacheFaithful w
  /\ World.warnings w = warnings
  /\ Forall (fun assetPath => cached assetPath w = true) loaded.

Section FrameReport.

Context {num : Type} `{JsNumber num}.

Local Open Scope js_scope.

(** [getFrameRenderInfo]; the report computed from a member inherited from
    [Object.prototype], whose numbers are all NaN, is [Inherited]. *)
Definition getFrameRenderInfo (options : FrameRenderOptions.t num)
  : Outcome (Lookup (FrameRenderInfo.t num)) :=
  let presetId := FrameRenderOptions.presetId options in
  let cardWidth := FrameRenderOptions.cardWidth options in
  let cardHeight := FrameRenderOptions.cardHeight options in
  match js_lookup FRAME_PRESETS presetId with
  | Missing => Throw (INVALID_PRESET presetId)
  | Inherited key => Ok (Inherited key)
  | Own preset =>
      let scaleFactor :=
        getScaleFactorForLayout (FrameRenderOptions.layoutVariant options) in
      let effectiveCornerSize :=
        Math_round (FramePresetConfig.cornerSize preset * scaleFactor) in
      let effectiveBorderThickness :=
        Math_round
          (nullish (FrameRenderOptions.borderThickness options)
                   (FramePresetConfig.borderThickness preset) * scaleFactor) in
      let effectiveInsetOffset :=
        Math_max (of_Z 5)
          (Math_min (of_Z 20)
             (nullish (FrameRenderOptions.insetOffset options)
                      (FramePresetConfig.insetOffset preset))) in
      let corners :=
        map (fun position =>
               (position,
                calculateCornerPosition position cardWidth cardHeight
                  effectiveCornerSize effectiveInsetOffset))
            ALL_CORNERS in
      let borders :=
        map (fun position =>
               (position,
                calculateBorderPosition position cardWidth cardHeight
                  effectiveCornerSize effectiveBorderThickness effectiveInsetOffset))
            ALL_BORDERS in
      Ok (Own (FrameRenderInfo.mk preset scaleFactor effectiveCornerSize
                 effectiveBorderThickness effectiveInsetOffset corners borders))
  end.

(** The quantities [renderFrame] works with. *)
Definition frameScale (options : FrameRenderOptions.t num) : num :=
  getScaleFactorForLayout (FrameRenderOptions.layoutVariant options).

Definition frameCornerSize (options : FrameRenderOptions.t num)
  (preset : FramePresetConfig.t num) : num :=
  Math_round (FramePresetConfig.cornerSize preset * frameScale options).

Definition frameInset (options : FrameRenderOptions.t num)
  (preset : FramePresetConfig.t num) : num :=
  Math_max (of_Z 0)
    (Math_min (of_Z 20)
       (nullish (FrameRenderOptions.insetOffset options)
                (FramePresetConfig.insetOffset preset))).

(** The thickness of the rectangle a strip is placed by, and the thickness
    the strip is rasterised at. *)
Definition framePlacedThickness (options : FrameRenderOptions.t num)
  (preset : FramePresetConfig.t num) : num :=
  Math_round
    (nullish (FrameRenderOptions.borderThickness options)
             (FramePresetConfig.borderThickness preset) * frameScale options).

Definition frameRasterThickness (options : FrameRenderOptions.t num)
  (preset : FramePresetConfig.t num) : num :=
  Math_round (FramePresetConfig.borderThickness preset * frameScale options).

Definition cornerPlace (options : FrameRenderOptions.t num)
  (preset : FramePresetConfig.t num) (position : CornerPosition) : Position.t num :=
  calculateCornerPosition position
    (FrameRenderOptions.cardWidth options) (FrameRenderOptions.cardHeight options)
    (frameCornerSize options preset) (frameInset options preset).

Definition stripPlace (options : FrameRenderOptions.t num)
  (preset : FramePresetConfig.t num) (position : BorderPosition)
  : StripDimensions.t num :=
  calculateBorderPosition position
    (FrameRenderOptions.cardWidth options) (FrameRenderOptions.cardHeight options)
    (frameCornerSize options preset) (framePlacedThickness options preset)
    (frameInset options preset).

Definition stripLength (options : FrameRenderOptions.t num)
  (preset : FramePresetConfig.t num) (position : BorderPosition) : num :=
  match position with
  | border_top | border_bottom => StripDimensions.width (stripPlace options preset position)
  | _ => StripDimensions.height (stripPlace options preset position)
  end.

(** The edges that get a strip: those of positive length. *)
Definition renderedStrips (options : FrameRenderOptions.t num)
  (preset : FramePresetConfig.t num) : list BorderPosition :=
  filter (fun position => stripLength options preset position >? of_Z 0) ALL_BORDERS.

(** A layer is the corner ornament of a position: a square of the corner
    size, laid at the rounded place of the corner. *)
Definition isCornerLayer (options : FrameRenderOptions.t num)
  (preset : FramePresetConfig.t num) (position : CornerPosition)
  (ov : Overlay.t (Buffer num) num) : Prop :=
  raster_size (Overlay.input ov)
  = Some (frameCornerSize options preset, frameCornerSize options preset)
  /\ Overlay.left ov = Math_round (Position.x (cornerPlace options preset position))
  /\ Overlay.top ov = Math_round (Position.y (cornerPlace options preset position)).

(** A layer is the strip of an edge: as long as the edge between the
    corners, as thick as the preset says, laid at the rounded place of the
    strip. *)
Definition isStripLayer (options : FrameRenderOptions.t num)
  (preset : FramePresetConfig.t num) (position : BorderPosition)
  (ov : Overlay.t (Buffer num) num) : Prop :=
  raster_size (Overlay.input ov)
  = Some (match position with
          | border_left | border_right =>
              (frameRasterThickness options preset, stripLength options preset position)
          | _ =>
              (stripLength options preset position, frameRasterThickness options preset)
          end)
  /\ Overlay.left ov = Math_round (StripDimensions.x (stripPlace options preset position))
  /\ Overlay.top ov = Math_round (StripDimensions.y (stripPlace options preset position)).

(** The errors [sharp] answers a size or a place with: a width or a height
    that is not a positive integer, a left or a top that is not an integer,
    a layer larger than its base. *)
Definition sharpRefusal (e : Error) : Prop :=
  e = InvalidParameter "width" \/ e = InvalidParameter "height"
  \/ e = InvalidParameter "left" \/ e = InvalidParameter "top"
  \/ e = CompositeTooLarge.

(** The errors a frame of a decorative preset can end with: a missing asset
    file, an image the decoder rejects, a size or a place [sharp] refuses. *)
Definition frameFailure (preset : FramePresetConfig.t num) (e : Error) : Prop :=
  e = ASSET_NOT_FOUND (Some (FramePresetConfig.cornerAsset preset))
  \/ e = ASSET_NOT_FOUND (Some (FramePresetConfig.borderAsset preset))
  \/ e = UnsupportedImage
  \/ sharpRefusal e.

(** A card with its frame: the card itself, under the four corner
    ornaments and then the strips of the edges of positive length. *)
Definition isFramed (options : FrameRenderOptions.t num)
  (preset : FramePresetConfig.t num) (cardBuffer framed : Buffer num) : Prop :=
  exists corners strips,
    framed = Composited cardBuffer (corners ++ strips)
    /\ Forall2 (isCornerLayer options preset) ALL_CORNERS corners
    /\ Forall2 (isStripLayer options preset) (renderedStrips options preset) strips.

End FrameReport.

(** The entry of the preset table under an id of the enum. *)
Definition presetNamed {num} `{JsNumber num} (presetId : string)
  : FramePresetConfig.t num :=
  match own_property FRAME_PRESETS presetId with
  | Some preset => preset
  | None =>
      FramePresetConfig.mk "" "" "" "" "" (of_Z 0) (of_Z 0) (of_Z 0)
        (ColorScheme.mk "" "" "")
  end.

(** A world in which the two cyber assets are cached. *)
Definition cyberCached : World.t Double.t :=
  World.mk [ ("frames/cyber/border.svg"%string, AssetFile "frames/cyber/border.svg");
             ("frames/cyber/corner.svg"%string, AssetFile "frames/cyber/corner.svg") ] [].

(* ------------------------------------------------------------------ *)
(** ** borderRenderer.ts: all the borders of a card at once *)
(* ------------------------------------------------------------------ *)

Section AllBorders.

Context {num : Type} `{JsNumber num}.
Variable decode : Buffer num -> option (Z * Z).

Local Open Scope monad_scope.



End AllBorders.



(* ------------------------------------------------------------------ *)
(** ** scaleConfig.ts, framePresets.ts: the other lookups by id *)
(* ------------------------------------------------------------------ *)

Section IdLookups.

Context {num : Type} `{JsNumber num}.

(** The keys of the object literal [SCALE_PRESETS], in order. *)
Definition SCALE_PRESET_ENTRIES : list (string * ScaleConfig.t num) :=
  [ ("standard", SCALE_PRESETS standard); ("moderate", SCALE_PRESETS moderate);
    ("compact", SCALE_PRESETS compact); ("slim", SCALE_PRESETS slim);
    ("mini", SCALE_PRESETS mini) ]%string.

(** [preset in SCALE_PRESETS] *)
Definition isValidScalePreset (preset : string) : bool :=
  match js_lookup SCALE_PRESET_ENTRIES preset with
  | Missing => false
  | _ => true
  end.

(** [FRAME_PRESETS[presetId]] *)
Definition getFramePreset (presetId : string) : Lookup (FramePresetConfig.t num) :=
  js_lookup FRAME_PRESETS presetId.

End IdLookups.

Definition SCALE_PRESET_IDS : list string :=
  ["standard"; "moderate"; "compact"; "slim"; "mini"]%string.

(* ------------------------------------------------------------------ *)
(** ** routes/frame.ts: the request that reaches [renderFrame] *)
(* ------------------------------------------------------------------ *)

(** A value of a request body. *)
Inductive JsValue (num : Type) : Type :=
| js_undefined
| js_null
| js_boolean (b : bool)
| js_number (n : num)
| js_string (s : string)
| js_object.
Arguments js_undefined {num}.
Arguments js_null {num}.
Arguments js_boolean {num} b.
Arguments js_string {num} s.
Arguments js_object {num}.

(** [ApplyFrameRequest] as it arrives: any value in any field. *)
Module ApplyFrameRequest.
Record t (num : Type) : Type := mk {
  cardImageUrl : JsValue num;
  framePresetId : JsValue num;
  layoutVariant : JsValue num;
  insetOffset : JsValue num;
  borderThickness : JsValue num
}.
End ApplyFrameRequest.

(** The messages of [validateApplyFrameRequest]. *)
Inductive RequestError : Type :=
| MissingCardImageUrl
| EmptyCardImageUrl
| MissingFramePresetId
| InvalidFramePresetId (id : string)
| MissingLayoutVariant
| InvalidLayoutVariant (name : string)
| InsetOffsetNotANumber
| InsetOffsetOutOfRange
| BorderThicknessNotANumber
| BorderThicknessOutOfRange.

Section FrameRoute.

Context {num : Type} `{JsNumber num}.

Local Open Scope js_scope.

(** [!!value] *)
Definition js_truthy (value : JsValue num) : bool :=
  match value with
  | js_undefined | js_null => false
  | js_boolean b => b
  | js_number n => negb (n === of_Z 0) && (n === n)
  | js_string s => negb (String.eqb s "")
  | js_object => true
  end.

(** [typeof value === 'string'], [typeof value === 'number'] *)
Definition is_js_string (value : JsValue num) : bool :=
  match value with js_string _ => true | _ => false end.

Definition is_js_number (value : JsValue num) : bool :=
  match value with js_number _ => true | _ => false end.

Definition is_js_undefined (value : JsValue num) : bool :=
  match value with js_undefined => true | _ => false end.

(** The string a value known to be one holds. *)
Definition js_string_of (value : JsValue num) : string :=
  match value with js_string s => s | _ => EmptyString end.

(** The number a value known to be one holds. *)
Definition js_number_of (value : JsValue num) : num :=
  match value with js_number n => n | _ => of_Z 0 end.

Definition VALID_LAYOUT_VARIANTS : list string :=
  ["landscape-square"; "landscape-flat"; "portrait-square"; "portrait-flat"]%string.

Definition getCanvasDimensions (layoutVariant : string) : num * num :=
  if String.prefix "portrait" layoutVariant then (of_Z 768, of_Z 1024)
  else (of_Z 1024, of_Z 768).

(** [validateApplyFrameRequest]: [None] is [{ valid: true }]. *)
Definition validateApplyFrameRequest (request : ApplyFrameRequest.t num)
  : option RequestError :=
  let cardImageUrl := ApplyFrameRequest.cardImageUrl request in
  let framePresetId := ApplyFrameRequest.framePresetId request in
  let layoutVariant := ApplyFrameRequest.layoutVariant request in
  let insetOffset := ApplyFrameRequest.insetOffset request in
  let borderThickness := ApplyFrameRequest.borderThickness request in
  if negb (js_truthy cardImageUrl) || negb (is_js_string cardImageUrl)
  then Some MissingCardImageUrl
  else if string_blank (js_string_of cardImageUrl) then Some EmptyCardImageUrl
  else if negb (js_truthy framePresetId) || negb (is_js_string framePresetId)
  then Some MissingFramePresetId
  else if negb (isValidPresetId (js_string_of framePresetId))
  then Some (InvalidFramePresetId (js_string_of framePresetId))
  else if negb (js_truthy layoutVariant) || negb (is_js_string layoutVariant)
  then Some MissingLayoutVariant
  else if negb (string_mem (js_string_of layoutVariant) VALID_LAYOUT_VARIANTS)
  then Some (InvalidLayoutVariant (js_string_of layoutVariant))
  else if negb (is_js_undefined insetOffset) && negb (is_js_number insetOffset)
  then Some InsetOffsetNotANumber
  else if negb (is_js_undefined insetOffset)
          && ((js_number_of insetOffset <? of_Z 0)
              || (js_number_of insetOffset >? of_Z 20))
  then Some InsetOffsetOutOfRange
  else if negb (is_js_undefined borderThickness) && negb (is_js_number borderThickness)
  then Some BorderThicknessNotANumber
  else if negb (is_js_undefined borderThickness)
          && ((js_number_of borderThickness <? of_Z 15)
              || (js_number_of borderThickness >? of_Z 30))
  then Some BorderThicknessOutOfRange
  else None.

(** A layout variant by its name. *)
Definition layoutVariantNamed (name : string) : option LayoutVariant :=
  if String.eqb name "landscape-square" then Some landscape_square
  else if String.eqb name "landscape-flat" then Some landscape_flat
  else if String.eqb name "portrait-square" then Some portrait_square
  else if String.eqb name "portrait-flat" then Some portrait_flat
  else None.

(** An optional number of a request: [undefined] and [null] give way to the
    preset under [??]. *)
Definition js_optional_number (value : JsValue num) : option num :=
  match value with js_number n => Some n | _ => None end.

(** The options the handler of [POST /apply-frame] hands to [renderFrame]
    for a request it has validated. *)
Definition applyFrameOptions (request : ApplyFrameRequest.t num)
  : FrameRenderOptions.t num :=
  let framePresetId := js_string_of (ApplyFrameRequest.framePresetId request) in
  let layoutVariant := js_string_of (ApplyFrameRequest.layoutVariant request) in
  let dimensions := getCanvasDimensions layoutVariant in
  FrameRenderOptions.mk framePresetId (fst dimensions) (snd dimensions)
    (layoutVariantNamed layoutVariant)
    (js_optional_number (ApplyFrameRequest.insetOffset request))
    (js_optional_number (ApplyFrameRequest.borderThickness request)).

End FrameRoute.

(** A request with its two optional numbers replaced by NaN. *)
Definition withNotANumber (request : ApplyFrameRequest.t Double.t)
  : ApplyFrameRequest.t Double.t :=
  ApplyFrameRequest.mk (ApplyFrameRequest.cardImageUrl request)
    (ApplyFrameRequest.framePresetId request)
    (ApplyFrameRequest.layoutVariant request)
    (js_number S754_nan) (js_number S754_nan).

(* ------------------------------------------------------------------ *)
(** ** borderRenderer.ts: the stops of a gradient *)
(* ------------------------------------------------------------------ *)

Section GradientStops.

Context {num : Type} `{JsNumber num}.

Local Open Scope js_scope.

(** [generateGradientStops]: the offset (in percent) and the colour of each
    [<stop>] element, in order. *)
Definition generateGradientStops (colors : list string) : list (num * string) :=
  map (fun ic : nat * string =>
         let index := of_Z (Z.of_nat (fst ic)) in
         let offset := index / (of_Z (Z.of_nat (List.length colors)) - of_Z 1) * of_Z 100 in
         (offset, snd ic))
      (indexed colors).

End GradientStops.

(** ** cardComposer.ts: what the border validation looks at *)

(** A layout with another illustration frame. *)
Definition withArtworkFrame {num} (layout : LayoutConfig.t num)
  (artworkFrame : FrameRect.t num) : LayoutConfig.t num :=
  LayoutConfig.mk (LayoutConfig.canvas layout) artworkFrame
    (LayoutConfig.titleBox layout) (LayoutConfig.contentBoxes layout).

(** The landscape layout with its illustration frame moved below the title
    box and widened over the first content box. *)
Definition overlappingLayout : LayoutConfig.t Q :=
  withArtworkFrame LANDSCAPE_LAYOUT (FrameRect.mk 40 180 600 548).

(** A list of messages is empty. *)
Definition no_issue (issues : list LayoutIssue) : bool :=
  match issues with [] => true | _ => false end.

(* ------------------------------------------------------------------ *)
(** ** cardComposer.ts: where [createTextSvg] puts the lines *)
(* ------------------------------------------------------------------ *)

Section TextBlock.

Context {num : Type} `{JsNumber num}.

Local Open Scope js_scope.

(** The locals [lineHeight], [totalTextHeight] and [startY] of
    [createTextSvg]. *)
Definition createTextSvg_lineHeight (fontSize : num) : num :=
  fontSize * frac 14 10.

Definition createTextSvg_totalTextHeight (lines : list jsstring) (fontSize : num) : num :=
  of_Z (Z.of_nat (List.length lines)) * createTextSvg_lineHeight fontSize.

Definition createTextSvg_startY (lines : list jsstring) (height fontSize : num) : num :=
  (height - createTextSvg_totalTextHeight lines fontSize) / of_Z 2
  + fontSize * frac 8 10.

(** The line height [calculateFontSize] reckons with for a box. *)
Definition lineHeightFor (boxId : string) : num :=
  if String.eqb boxId "title" then TITLE_LINE_HEIGHT else CONTENT_LINE_HEIGHT.

(** The test of the loop of [calculateFontSize] at a font size. *)
Definition fitsBox (text : jsstring) (lineHeight boxWidth boxHeight fontSize : num)
  : bool :=
  of_xint (calculateTextLines text boxWidth fontSize) * fontSize * lineHeight
  <=? boxHeight - of_Z 20.

End TextBlock.


(** ** cardComposer.ts: options that change nothing *)

(** A request with another border preset and another layout mode. *)
Definition withPresetAndMode {num} (options : ComposeCardOptions.t num)
  (borderPreset : option BorderPreset) (layoutMode : option LayoutMode)
  : ComposeCardOptions.t num :=
  ComposeCardOptions.mk
    (ComposeCardOptions.backgroundBuffer options)
    (ComposeCardOptions.artworkBuffer options)
    (ComposeCardOptions.textBoxes options)
    (ComposeCardOptions.textBoxColorId options)
    layoutMode
    (ComposeCardOptions.layoutVariant options)
    borderPreset
    (ComposeCardOptions.textureType options)
    (ComposeCardOptions.blurIntensity options)
    (ComposeCardOptions.glowIntensity options)
    (ComposeCardOptions.scalePreset options)
    (ComposeCardOptions.cropAnchor options).

(** ** assetLoader.ts: what every operation keeps *)

(** A computation keeps the cache faithful and writes no warning. *)
Definition keepsCacheFaithful {num A} (m : M num A) : Prop :=
  forall w,
    cacheFaithful w ->
    cacheFaithful (snd (m w)) /\ World.warnings (snd (m w)) = World.warnings w.
(* ================================================================== *)
(** * Properties *)
(* ================================================================== *)

(** ** Scaling (scaleConfig.ts), on binary64 *)

Section ScaleFacts.

Local Open Scope js_scope.

Lemma clamp_of_one :
  (Math_max (frac 70 100) (Math_min (of_Z 1) (of_Z 1 : Double.t)) === of_Z 1) = true.
Proof. vm_compute. reflexivity. Qed.

Lemma applyScaleFactor_one (layout : LayoutConfig.t Double.t) :
  applyScaleFactor layout (of_Z 1) = layout.
Proof.
  unfold applyScaleFactor.
  rewrite clamp_of_one. reflexivity.
Qed.

(** C1.  Scaling by the factor 1.0, and hence by the preset [standard], hands
    back the layout it was given, whatever its rects hold, with nothing
    recomputed or rounded; so it does on the four catalogue variants, and
    [composeCard] works on the catalogue entry itself when the preset is
    [standard] or omitted. *)
Theorem standard_scale_is_noop :
  (forall layout : LayoutConfig.t Double.t,
      applyScaleFactor layout (of_Z 1) = layout
      /\ applyScalePreset layout standard = layout)
  /\ (forall variant : LayoutVariant,
         applyScalePreset (LAYOUT_VARIANTS variant) standard
         = (LAYOUT_VARIANTS variant : LayoutConfig.t Double.t))
  /\ (forall bg art texts color mode variant border texture blur glow crop,
         let unscaled : LayoutConfig.t Double.t :=
           match variant with
           | Some v => LAYOUT_VARIANTS v
           | None => getLayoutConfig (nullish mode landscape)
           end in
         composeCard_layout
           (ComposeCardOptions.mk bg art texts color mode variant border
              texture blur glow (Some standard) crop) = unscaled
         /\ composeCard_layout
              (ComposeCardOptions.mk bg art texts color mode variant border
                 texture blur glow None crop) = unscaled).
Proof.
  split; [| split].
  - intros layout. split.
    + apply applyScaleFactor_one.
    + unfold applyScalePreset, getScaleConfig. simpl.
      apply applyScaleFactor_one.
  - intros variant. unfold applyScalePreset, getScaleConfig. simpl.
    apply applyScaleFactor_one.
  - intros. unfold composeCard_layout. simpl.
    destruct variant; split; reflexivity.
Qed.

(** C5.  On each catalogue variant the width of every rect grows strictly
    along mini, slim, compact, moderate, standard; every preset leaves the
    canvas as it is, yields the six rects, and keeps each of them inside the
    canvas. *)
Theorem scale_presets_monotone_and_bounded :
  forall variant : LayoutVariant,
    map (fun preset => ScaleConfig.factor (getScaleConfig (num := Double.t) preset))
        SCALE_ORDER
    = [frac 70 100; frac 80 100; frac 90 100; frac 95 100; of_Z 1]
    /\ narrowerThan (scaled variant mini) (scaled variant slim) = true
    /\ narrowerThan (scaled variant slim) (scaled variant compact) = true
    /\ narrowerThan (scaled variant compact) (scaled variant moderate) = true
    /\ narrowerThan (scaled variant moderate) (scaled variant standard) = true
    /\ forall preset : ScalePreset,
         LayoutConfig.canvas (scaled variant preset)
         = LayoutConfig.canvas (LAYOUT_VARIANTS variant)
         /\ List.length (layout_rects (scaled variant preset)) = 6%nat
         /\ forallb (insideCanvas (LayoutConfig.canvas (LAYOUT_VARIANTS variant)))
                    (layout_rects (scaled variant preset)) = true.
Proof.
  intros variant.
  split; [reflexivity |].
  split; [| split; [| split; [| split]]];
    [ destruct variant; vm_compute; reflexivity ..
    | intros preset; split; [| split];
      destruct variant, preset; vm_compute; reflexivity ].
Qed.

End ScaleFacts.

(** ** Integers on binary64 *)

(** Sums, differences and comparisons of integers below 2^53 are exact on
    doubles.  The lemmas below follow the operations of [SpecFloat] on the
    normal form [Double.normal] of such an integer. *)

Section IntegerDoubles.

Local Open Scope Z_scope.
Unset Implicit Arguments.

Lemma digits2_size (p : positive) : digits2_pos p = Pos.size p.
Proof. induction p; simpl; congruence. Qed.

Lemma iter_pos_iter {A} (f : A -> A) (n : positive) :
  forall x, iter_pos f n x = Pos.iter f x n.
Proof.
  induction n as [n IH | n IH |]; intros x; simpl.
  - rewrite !IH. rewrite <- Pos.iter_swap. f_equal. rewrite <- Pos.iter_swap. reflexivity.
  - rewrite !IH. reflexivity.
  - reflexivity.
Qed.

Lemma size_shift (p : positive) (n : positive) :
  Pos.size (Pos.iter xO p n) = (Pos.size p + n)%positive.
Proof.
  induction n as [| n IH] using Pos.peano_ind.
  - simpl. lia.
  - rewrite Pos.iter_succ. simpl. rewrite IH. lia.
Qed.

Lemma size_shiftl (p : positive) (n : N) :
  Z.pos (Pos.size (Pos.shiftl p n)) = Z.pos (Pos.size p) + Z.of_N n.
Proof.
  destruct n as [| n]; simpl; [lia |]. rewrite size_shift. lia.
Qed.

Lemma shiftl_shiftl (p : positive) (n m : N) :
  Pos.shiftl (Pos.shiftl p n) m = Pos.shiftl p (n + m).
Proof.
  destruct n as [| n], m as [| m]; simpl; try reflexivity.
  rewrite Pos.add_comm, Pos.iter_add. reflexivity.
Qed.

Lemma Zpos_shift (p n : positive) : Z.pos (Pos.iter xO p n) = Z.pos p * 2 ^ Z.pos n.
Proof.
  induction n as [| n IH] using Pos.peano_ind.
  - simpl. lia.
  - rewrite Pos.iter_succ, Pos2Z.inj_xO, IH, Pos2Z.inj_succ, Z.pow_succ_r by lia. lia.
Qed.

Lemma Zpos_shiftl (p : positive) (n : N) :
  Z.pos (Pos.shiftl p n) = Z.pos p * 2 ^ Z.of_N n.
Proof.
  destruct n as [| n]; simpl Pos.shiftl; [simpl; lia |]. apply Zpos_shift.
Qed.

Lemma size_bound (z : positive) : Z.pos z < 2 ^ 53 -> Z.pos (Pos.size z) <= 53.
Proof.
  intros Hz.
  pose proof (Pos.size_le z) as Hle.
  apply Pos2Z.pos_le_pos in Hle. rewrite Pos2Z.inj_pow in Hle.
  change (Z.pos 2) with 2 in Hle. rewrite (Pos2Z.inj_xO z) in Hle.
  destruct (Z_le_gt_dec (Z.pos (Pos.size z)) 53) as [H | H]; [exact H |].
  assert (2 ^ 54 <= 2 ^ Z.pos (Pos.size z)) by (apply Z.pow_le_mono_r; lia).
  assert (2 ^ 54 = 2 * 2 ^ 53) by reflexivity.
  lia.
Qed.

Lemma shr_exact (q : positive) (n : positive) :
  iter_pos shr_1 n (Build_shr_record (Z.pos (Pos.iter xO q n)) false false)
  = Build_shr_record (Z.pos q) false false.
Proof.
  rewrite iter_pos_iter.
  induction n as [| n IH] using Pos.peano_ind.
  - reflexivity.
  - rewrite Pos.iter_succ_r, Pos.iter_succ. simpl. exact IH.
Qed.

Lemma fexp_small (d : Z) : 1 <= d -> fexp Double.prec Double.emax d = d - 53.
Proof. intros Hd. unfold fexp, emin, Double.prec, Double.emax. lia. Qed.

(** A 53-bit mantissa with a small exponent is left as it is. *)
Lemma round_aux_normal (s : bool) (m : positive) (e : Z) :
  Z.pos (Pos.size m) = 53 -> -52 <= e <= 0 ->
  binary_round_aux Double.prec Double.emax s (Z.pos m) e loc_Exact = S754_finite s m e.
Proof.
  intros Hm He. unfold binary_round_aux, shr_fexp. cbn [Zdigits2 shr_record_of_loc].
  rewrite digits2_size, Hm, fexp_small by lia.
  replace (53 + e - 53 - e) with 0 by lia. cbn [shr shr_m loc_of_shr_record round_nearest_even].
  cbn [Zdigits2]. rewrite digits2_size, Hm, fexp_small by lia.
  replace (53 + e - 53 - e) with 0 by lia. cbn [shr shr_m].
  unfold Double.prec, Double.emax.
  destruct (Z.leb_spec e (1024 - 53)); [reflexivity | lia].
Qed.

(** Rounding a mantissa [z * 2^k] at the exponent [-k] gives the double of
    [z], given enough bits. *)
Lemma round_aux_exact (s : bool) (z : positive) (k : N) :
  Z.pos (Pos.size z) <= 53 ->
  53 - Z.pos (Pos.size z) <= Z.of_N k ->
  binary_round_aux Double.prec Double.emax s (Z.pos (Pos.shiftl z k)) (- Z.of_N k) loc_Exact
  = Double.normal s z.
Proof.
  intros Hz Hk.
  set (D := Z.pos (Pos.size z)) in *.
  assert (HD : 1 <= D) by (unfold D; lia).
  set (k0 := Z.to_N (53 - D)).
  destruct (Z.eq_dec (Z.of_N k) (53 - D)) as [Heq | Hne].
  - assert (k = k0) by (unfold k0; lia). subst k.
    rewrite round_aux_normal.
    + unfold Double.normal. fold D. fold k0. f_equal. lia.
    + rewrite size_shiftl. fold D. lia.
    + lia.
  - assert (Hn : exists n : positive, k = (k0 + N.pos n)%N).
    { exists (Z.to_pos (Z.of_N k - (53 - D))). unfold k0. lia. }
    destruct Hn as [n ->].
    rewrite <- shiftl_shiftl.
    set (m := Pos.shiftl z k0).
    assert (Hm : Z.pos (Pos.size m) = 53).
    { unfold m. rewrite size_shiftl. fold D. unfold k0. lia. }
    unfold binary_round_aux, shr_fexp. cbn [Zdigits2 shr_record_of_loc].
    rewrite digits2_size, size_shiftl, Hm, fexp_small by lia.
    replace (53 + Z.of_N (N.pos n) + - Z.of_N (k0 + N.pos n) - 53
             - - Z.of_N (k0 + N.pos n)) with (Z.pos n) by lia.
    cbn [shr Pos.shiftl]. rewrite shr_exact.
    cbn [shr_m loc_of_shr_record round_nearest_even Zdigits2].
    rewrite digits2_size, Hm, fexp_small by lia.
    replace (53 + (- Z.of_N (k0 + N.pos n) + Z.pos n) - 53
             - (- Z.of_N (k0 + N.pos n) + Z.pos n)) with 0 by lia.
    cbn [shr shr_m]. unfold Double.prec, Double.emax.
    destruct (Z.leb_spec (- Z.of_N (k0 + N.pos n) + Z.pos n) (1024 - 53)); [| lia].
    unfold Double.normal. fold D. fold k0. fold m. f_equal. unfold k0. lia.
Qed.

Lemma round_exact (s : bool) (z : positive) (k : N) :
  Z.pos (Pos.size z) <= 53 ->
  binary_round Double.prec Double.emax s (Pos.shiftl z k) (- Z.of_N k) = Double.normal s z.
Proof.
  intros Hz. unfold binary_round, shl_align.
  set (D := Z.pos (Pos.size z)) in *.
  assert (HD : 1 <= D) by (unfold D; lia).
  rewrite digits2_size, size_shiftl. fold D.
  rewrite fexp_small by lia.
  destruct (D + Z.of_N k + - Z.of_N k - 53 - - Z.of_N k) as [| d | d] eqn:Hd.
  - apply round_aux_exact; fold D; lia.
  - apply round_aux_exact; fold D; lia.
  - replace (Pos.iter xO (Pos.shiftl z k) d) with (Pos.shiftl z (k + N.pos d))
      by (rewrite <- shiftl_shiftl; reflexivity).
    replace (D + Z.of_N k + - Z.of_N k - 53) with (- Z.of_N (k + N.pos d)) by lia.
    apply round_aux_exact; fold D; lia.
Qed.

(** The double of an integer below 2^53. *)
Lemma of_Z_normal (v : Z) :
  Z.abs v < 2 ^ 53 ->
  Double.of_Z v
  = match v with
    | 0 => S754_zero false
    | Z.pos z => Double.normal false z
    | Z.neg z => Double.normal true z
    end.
Proof.
  intros Hv. unfold Double.of_Z, binary_normalize.
  destruct v as [| z | z]; [reflexivity | |].
  - apply (round_exact false z 0). apply size_bound; lia.
  - apply (round_exact true z 0). apply size_bound; lia.
Qed.

(** A mantissa [v * 2^k] at the exponent [-k] normalises to the double of
    [v]. *)
Lemma normalize_exact (v e : Z) :
  e <= 0 -> Z.abs v < 2 ^ 53 ->
  binary_normalize Double.prec Double.emax (v * 2 ^ (- e)) e false = Double.of_Z v.
Proof.
  intros He Hv. rewrite (of_Z_normal v Hv).
  assert (Hpow : 0 < 2 ^ (- e)) by (apply Z.pow_pos_nonneg; lia).
  assert (Hshift : forall z, Z.pos z * 2 ^ (- e) = Z.pos (Pos.shiftl z (Z.to_N (- e)))).
  { intros z. rewrite Zpos_shiftl. f_equal. f_equal. lia. }
  destruct v as [| z | z].
  - reflexivity.
  - rewrite Hshift. unfold binary_normalize.
    replace e with (- Z.of_N (Z.to_N (- e))) at 2 by lia.
    apply round_exact. apply size_bound; lia.
  - change (Z.neg z) with (- Z.pos z). rewrite Z.mul_opp_l, Hshift.
    unfold binary_normalize. cbn [Z.opp].
    replace e with (- Z.of_N (Z.to_N (- e))) at 2 by lia.
    apply round_exact. apply size_bound; lia.
Qed.


(** The double of a non-zero integer below 2^53: a 53-bit mantissa, an
    exponent between -52 and 0, and the integer as their value. *)
Lemma of_Z_finite (v : Z) :
  v <> 0 -> Z.abs v < 2 ^ 53 ->
  exists m e,
    Double.of_Z v = S754_finite (v <? 0) m e
    /\ -52 <= e <= 0
    /\ cond_Zopp (v <? 0) (Z.pos m) = v * 2 ^ (- e)
    /\ Z.pos (Pos.size m) = 53.
Proof.
  intros Hnz Hv. rewrite (of_Z_normal v Hv).
  assert (Hrep : forall s z,
             Z.pos z < 2 ^ 53 ->
             exists m e,
               Double.normal s z = S754_finite s m e
               /\ -52 <= e <= 0
               /\ Z.pos m = Z.pos z * 2 ^ (- e)
               /\ Z.pos (Pos.size m) = 53).
  { intros s z Hz. pose proof (size_bound z Hz) as Hsize.
    unfold Double.normal. do 2 eexists. split; [reflexivity |].
    split; [lia |]. split.
    - rewrite Zpos_shiftl. f_equal. f_equal. lia.
    - rewrite size_shiftl. lia. }
  destruct v as [| z | z]; [contradiction | |].
  - destruct (Hrep false z) as (m & e & Hn & He & Hval & Hsize); [lia |].
    exists m, e. cbn [Z.ltb Z.compare cond_Zopp].
    split; [exact Hn |]. split; [exact He |]. split; [exact Hval | exact Hsize].
  - destruct (Hrep true z) as (m & e & Hn & He & Hval & Hsize); [lia |].
    exists m, e. cbn [Z.ltb Z.compare cond_Zopp].
    split; [exact Hn |]. split; [exact He |]. split; [| exact Hsize].
    rewrite Hval. change (Z.neg z) with (- Z.pos z). lia.
Qed.

Lemma shl_align_value (m : positive) (e e' : Z) :
  e' <= e -> Z.pos (fst (shl_align m e e')) = Z.pos m * 2 ^ (e - e').
Proof.
  intros Hle. unfold shl_align.
  destruct (e' - e) as [| d | d] eqn:Hd; cbn [fst].
  - replace (e - e') with 0 by lia. simpl. lia.
  - lia.
  - rewrite Zpos_shift. f_equal. f_equal. lia.
Qed.

Lemma aligned_value (s : bool) (m : positive) (e ez v : Z) :
  ez <= e -> e <= 0 ->
  cond_Zopp s (Z.pos m) = v * 2 ^ (- e) ->
  cond_Zopp s (Z.pos (fst (shl_align m e ez))) = v * 2 ^ (- ez).
Proof.
  intros Hz He Hval. rewrite shl_align_value by exact Hz.
  replace (- ez) with (- e + (e - ez)) by lia.
  rewrite Z.pow_add_r by lia. rewrite Z.mul_assoc, <- Hval.
  destruct s; cbn [cond_Zopp]; lia.
Qed.

(** Sums and differences of integers are exact while the result stays
    below 2^53. *)
Lemma add_exact (a b : Z) :
  Z.abs a < 2 ^ 53 -> Z.abs b < 2 ^ 53 -> Z.abs (a + b) < 2 ^ 53 ->
  SFadd Double.prec Double.emax (Double.of_Z a) (Double.of_Z b) = Double.of_Z (a + b).
Proof.
  intros Ha Hb Hab.
  destruct (Z.eq_dec a 0) as [-> | Hna].
  { destruct (Z.eq_dec b 0) as [-> | Hnb]; [reflexivity |].
    cbn [Z.add].
    destruct (of_Z_finite b Hnb Hb) as (m & e & -> & _). reflexivity. }
  destruct (Z.eq_dec b 0) as [-> | Hnb].
  { rewrite Z.add_0_r.
    destruct (of_Z_finite a Hna Ha) as (m & e & -> & _). reflexivity. }
  destruct (of_Z_finite a Hna Ha) as (ma & ea & -> & Hea & Hva & _).
  destruct (of_Z_finite b Hnb Hb) as (mb & eb & -> & Heb & Hvb & _).
  unfold SFadd.
  rewrite (aligned_value (a <? 0) ma ea (Z.min ea eb) a) by (try exact Hva; lia).
  rewrite (aligned_value (b <? 0) mb eb (Z.min ea eb) b) by (try exact Hvb; lia).
  rewrite <- Z.mul_add_distr_r.
  apply normalize_exact; [lia | exact Hab].
Qed.

Lemma opp_exact (b : Z) :
  Z.abs b < 2 ^ 53 -> SFopp (Double.of_Z b) = Double.of_Z (- b) \/ b = 0.
Proof.
  intros Hb. destruct b as [| z | z]; [right; reflexivity | left | left].
  - rewrite (of_Z_normal (Z.pos z)), (of_Z_normal (- Z.pos z)) by (simpl; lia).
    reflexivity.
  - rewrite (of_Z_normal (Z.neg z)), (of_Z_normal (- Z.neg z)) by (simpl; lia).
    reflexivity.
Qed.

Lemma sub_exact (a b : Z) :
  Z.abs a < 2 ^ 53 -> Z.abs b < 2 ^ 53 -> Z.abs (a - b) < 2 ^ 53 ->
  SFsub Double.prec Double.emax (Double.of_Z a) (Double.of_Z b) = Double.of_Z (a - b).
Proof.
  intros Ha Hb Hab.
  destruct (Z.eq_dec b 0) as [-> | Hnb].
  { rewrite Z.sub_0_r.
    destruct (Z.eq_dec a 0) as [-> | Hna]; [reflexivity |].
    destruct (of_Z_finite a Hna Ha) as (m & e & -> & _). reflexivity. }
  destruct (Z.eq_dec a 0) as [-> | Hna].
  { destruct (opp_exact b Hb) as [Hopp | ?]; [| contradiction].
    cbn [Z.sub Z.add]. rewrite <- Hopp.
    destruct (of_Z_finite b Hnb Hb) as (m & e & -> & _). reflexivity. }
  destruct (of_Z_finite a Hna Ha) as (ma & ea & -> & Hea & Hva & _).
  destruct (of_Z_finite b Hnb Hb) as (mb & eb & -> & Heb & Hvb & _).
  unfold SFsub.
  rewrite (aligned_value (a <? 0) ma ea (Z.min ea eb) a) by (try exact Hva; lia).
  rewrite (aligned_value (b <? 0) mb eb (Z.min ea eb) b) by (try exact Hvb; lia).
  rewrite <- Z.mul_sub_distr_r.
  apply normalize_exact; [lia | exact Hab].
Qed.


Lemma size53_bounds (m : positive) :
  Z.pos (Pos.size m) = 53 -> 2 ^ 52 <= Z.pos m < 2 ^ 53.
Proof.
  intros Hm.
  pose proof (Pos.size_le m) as Hle. pose proof (Pos.size_gt m) as Hgt.
  apply Pos2Z.pos_le_pos in Hle. apply Pos2Z.pos_lt_pos in Hgt.
  rewrite Pos2Z.inj_pow in Hle, Hgt. change (Z.pos 2) with 2 in Hle, Hgt.
  rewrite (Pos2Z.inj_xO m) in Hle. rewrite Hm in Hle, Hgt.
  assert (2 ^ 53 = 2 * 2 ^ 52) by reflexivity. lia.
Qed.


Lemma magnitude_compare (x y : Z) (mx my : positive) (ex ey : Z) :
  Z.pos mx = x * 2 ^ (- ex) -> Z.pos my = y * 2 ^ (- ey) ->
  Z.pos (Pos.size mx) = 53 -> Z.pos (Pos.size my) = 53 ->
  ex <= 0 -> ey <= 0 ->
  match ex ?= ey with
  | Lt => Lt
  | Gt => Gt
  | Eq => Pos.compare_cont Eq mx my
  end = (x ?= y).
Proof.
  intros Hx Hy Hsx Hsy Hex Hey.
  pose proof (size53_bounds mx Hsx) as Bx. pose proof (size53_bounds my Hsy) as By.
  assert (Px : 0 < 2 ^ (- ex)) by (apply Z.pow_pos_nonneg; lia).
  assert (Py : 0 < 2 ^ (- ey)) by (apply Z.pow_pos_nonneg; lia).
  assert (H53 : 2 ^ 53 = 2 * 2 ^ 52) by reflexivity.
  symmetry.
  destruct (Z.compare_spec ex ey) as [Heq | Hlt | Hgt].
  - subst ey. change (Pos.compare_cont Eq mx my) with (Z.pos mx ?= Z.pos my).
    rewrite Hx, Hy. apply Zmult_compare_compat_r. lia.
  - apply Z.compare_lt_iff.
    assert (Hd : 2 ^ (- ex) = 2 ^ (- ey) * 2 ^ (ey - ex)).
    { rewrite <- Z.pow_add_r by lia. f_equal. lia. }
    assert (H2 : 2 <= 2 ^ (ey - ex)).
    { change 2 with (2 ^ 1) at 1. apply Z.pow_le_mono_r; lia. }
    apply (Z.mul_lt_mono_pos_r (2 ^ (- ex))); [exact Px |].
    rewrite <- Hx. rewrite Hd, Z.mul_assoc, <- Hy. nia.
  - apply Z.compare_gt_iff.
    assert (Hd : 2 ^ (- ey) = 2 ^ (- ex) * 2 ^ (ex - ey)).
    { rewrite <- Z.pow_add_r by lia. f_equal. lia. }
    assert (H2 : 2 <= 2 ^ (ex - ey)).
    { change 2 with (2 ^ 1) at 1. apply Z.pow_le_mono_r; lia. }
    apply (Z.mul_lt_mono_pos_r (2 ^ (- ey))); [exact Py |].
    rewrite <- Hy. rewrite Hd, Z.mul_assoc, <- Hx. nia.
Qed.

(** Integers compare on doubles as they do as integers. *)
Lemma compare_exact (a b : Z) :
  Z.abs a < 2 ^ 53 -> Z.abs b < 2 ^ 53 ->
  SFcompare (Double.of_Z a) (Double.of_Z b) = Some (a ?= b).
Proof.
  intros Ha Hb.
  destruct (Z.eq_dec a 0) as [-> | Hna].
  { destruct (Z.eq_dec b 0) as [-> | Hnb]; [reflexivity |].
    destruct (of_Z_finite b Hnb Hb) as (m & e & -> & _).
    change (Double.of_Z 0) with (S754_zero false). cbn [SFcompare].
    destruct (Z.ltb_spec b 0); f_equal; symmetry;
      [apply Z.compare_gt_iff | apply Z.compare_lt_iff]; lia. }
  destruct (Z.eq_dec b 0) as [-> | Hnb].
  { destruct (of_Z_finite a Hna Ha) as (m & e & -> & _).
    change (Double.of_Z 0) with (S754_zero false). cbn [SFcompare].
    destruct (Z.ltb_spec a 0); f_equal; symmetry;
      [apply Z.compare_lt_iff | apply Z.compare_gt_iff]; lia. }
  destruct (of_Z_finite a Hna Ha) as (ma & ea & -> & Hea & Hva & Hsa).
  destruct (of_Z_finite b Hnb Hb) as (mb & eb & -> & Heb & Hvb & Hsb).
  cbn [SFcompare].
  destruct (Z.ltb_spec a 0) as [Hneg_a | Hpos_a], (Z.ltb_spec b 0) as [Hneg_b | Hpos_b];
    cbn [cond_Zopp] in Hva, Hvb; f_equal.
  - assert (Hx : Z.pos ma = (- a) * 2 ^ (- ea)) by lia.
    assert (Hy : Z.pos mb = (- b) * 2 ^ (- eb)) by lia.
    pose proof (magnitude_compare (- a) (- b) ma mb ea eb Hx Hy Hsa Hsb
                  (proj2 Hea) (proj2 Heb)) as Hc.
    rewrite Z.compare_opp in Hc. rewrite (Z.compare_antisym a b) in Hc.
    rewrite <- (CompOpp_involutive (a ?= b)), <- Hc.
    destruct (ea ?= eb); reflexivity.
  - symmetry. apply Z.compare_lt_iff. lia.
  - symmetry. apply Z.compare_gt_iff. lia.
  - exact (magnitude_compare a b ma mb ea eb Hva Hvb Hsa Hsb (proj2 Hea) (proj2 Heb)).
Qed.

Lemma ltb_exact (a b : Z) :
  Z.abs a < 2 ^ 53 -> Z.abs b < 2 ^ 53 ->
  SFltb (Double.of_Z a) (Double.of_Z b) = (a <? b).
Proof.
  intros Ha Hb. unfold SFltb, Z.ltb. rewrite (compare_exact a b Ha Hb).
  destruct (a ?= b); reflexivity.
Qed.

Lemma leb_exact (a b : Z) :
  Z.abs a < 2 ^ 53 -> Z.abs b < 2 ^ 53 ->
  SFleb (Double.of_Z a) (Double.of_Z b) = (a <=? b).
Proof.
  intros Ha Hb. unfold SFleb, Z.leb. rewrite (compare_exact a b Ha Hb).
  destruct (a ?= b); reflexivity.
Qed.

Lemma eqb_exact (a b : Z) :
  Z.abs a < 2 ^ 53 -> Z.abs b < 2 ^ 53 ->
  SFeqb (Double.of_Z a) (Double.of_Z b) = (a =? b).
Proof.
  intros Ha Hb. unfold SFeqb. rewrite (compare_exact a b Ha Hb).
  destruct (Z.compare_spec a b) as [-> | Hlt | Hgt];
    [rewrite Z.eqb_refl; reflexivity | |];
    symmetry; apply Z.eqb_neq; lia.
Qed.


Lemma of_Z_not_nan (a : Z) : Z.abs a < 2 ^ 53 -> Double.is_nan (Double.of_Z a) = false.
Proof.
  intros Ha. rewrite (of_Z_normal a Ha). destruct a; reflexivity.
Qed.

Lemma abs_exact (a : Z) :
  Z.abs a < 2 ^ 53 -> SFabs (Double.of_Z a) = Double.of_Z (Z.abs a).
Proof.
  intros Ha. rewrite (of_Z_normal a Ha), (of_Z_normal (Z.abs a)) by lia.
  destruct a; reflexivity.
Qed.

Lemma min_exact (a b : Z) :
  Z.abs a < 2 ^ 53 -> Z.abs b < 2 ^ 53 ->
  Double.min (Double.of_Z a) (Double.of_Z b) = Double.of_Z (Z.min a b).
Proof.
  intros Ha Hb. unfold Double.min.
  rewrite (of_Z_not_nan a Ha), (of_Z_not_nan b Hb), (ltb_exact b a Hb Ha). cbn [orb].
  destruct (Z.ltb_spec b a); f_equal; lia.
Qed.

Lemma max_exact (a b : Z) :
  Z.abs a < 2 ^ 53 -> Z.abs b < 2 ^ 53 ->
  Double.max (Double.of_Z a) (Double.of_Z b) = Double.of_Z (Z.max a b).
Proof.
  intros Ha Hb. unfold Double.max.
  rewrite (of_Z_not_nan a Ha), (of_Z_not_nan b Hb), (ltb_exact a b Ha Hb). cbn [orb].
  destruct (Z.ltb_spec a b); f_equal; lia.
Qed.

(** An integer is its own floor, ceiling and nearest integer. *)
Lemma rounding_exact (a : Z) :
  Z.abs a < 2 ^ 53 ->
  Double.floor_x (Double.of_Z a) = XFin a
  /\ Double.ceil_x (Double.of_Z a) = XFin a
  /\ Double.round_x (Double.of_Z a) = XFin a.
Proof.
  intros Ha.
  destruct (Z.eq_dec a 0) as [-> | Hna]; [repeat split |].
  destruct (of_Z_finite a Hna Ha) as (m & e & -> & He & Hval & _).
  assert (Hsigned : Double.signed (a <? 0) m = a * 2 ^ (- e)).
  { rewrite <- Hval. destruct (a <? 0); reflexivity. }
  assert (Hpow : 0 < 2 ^ (- e)) by (apply Z.pow_pos_nonneg; lia).
  unfold Double.floor_x, Double.ceil_x, Double.round_x. rewrite Hsigned.
  destruct (Z.leb_spec 0 e) as [H0 | Hneg].
  - assert (e = 0) by lia. subst e. cbn [Z.opp Z.pow Z.pow_pos Pos.iter].
    repeat split; f_equal; lia.
  - split; [| split]; f_equal.
    + apply Z.div_mul. lia.
    + rewrite <- Z.mul_opp_l, Z.div_mul by lia. lia.
    + replace (2 * (a * 2 ^ (- e)) + 2 ^ (- e)) with ((2 * a + 1) * 2 ^ (- e)) by ring.
      rewrite Z.div_mul_cancel_r by lia.
      replace (2 * a + 1) with (1 + a * 2) by ring.
      rewrite Z.div_add by lia. reflexivity.
Qed.

Lemma isInteger_exact (a : Z) :
  Z.abs a < 2 ^ 53 -> Number_isInteger (Double.of_Z a) = true.
Proof.
  intros Ha. unfold Number_isInteger.
  cbn [floor_x eqb of_Z double_number].
  rewrite (proj1 (rounding_exact a Ha)), (eqb_exact a a Ha Ha).
  apply Z.eqb_refl.
Qed.

End IntegerDoubles.

Set Implicit Arguments.

(** ** Border footprint and gaps (borderRenderer.ts), on pixel rects *)

Section PixelBorders.

Local Open Scope Z_scope.
Unset Implicit Arguments.

Ltac pixel_bounds :=
  unfold pixelRange in *;
  repeat match goal with
         | H : Z.abs _ <= _ |- _ => apply Z.abs_le in H
         end.

Ltac pixels := first [ apply Z.abs_lt; lia | lia ].






End PixelBorders.

Set Implicit Arguments.



Section PixelGaps.

Local Open Scope Z_scope.
Unset Implicit Arguments.

Ltac pixel_bounds :=
  unfold pixelRange in *;
  repeat match goal with
         | H : Z.abs _ <= _ |- _ => apply Z.abs_le in H
         end.

Ltac pixels := first [ apply Z.abs_lt; lia | lia ].

(** [validateBorderGap] on pixel rects, in terms of the expanded edges. *)
Lemma validateBorderGap_pixels
  (x1 y1 w1 h1 x2 y2 w2 h2 s1 s2 g : Z) (b1 b2 : BorderDimensions.t Double.t) :
  Forall pixelRange [x1; y1; w1; h1; x2; y2; w2; h2; s1; s2; g] ->
  calculateTotalBorderSpace b1 = Double.of_Z s1 ->
  calculateTotalBorderSpace b2 = Double.of_Z s2 ->
  validateBorderGap (frameRect x1 y1 w1 h1) (frameRect x2 y2 w2 h2) b1 b2 (Double.of_Z g)
  = let l1 := x1 - s1 in let r1 := x1 + w1 + s1 in
    let t1 := y1 - s1 in let d1 := y1 + h1 + s1 in
    let l2 := x2 - s2 in let r2 := x2 + w2 + s2 in
    let t2 := y2 - s2 in let d2 := y2 + h2 + s2 in
    let ho := negb ((r1 <? l2) || (r2 <? l1)) in
    let vo := negb ((d1 <? t2) || (d2 <? t1)) in
    if negb ho && negb vo then true
    else if ho && negb vo
         then g <=? Z.min (Z.abs (d1 - t2)) (Z.abs (d2 - t1))
         else if negb ho && vo
              then g <=? Z.min (Z.abs (r1 - l2)) (Z.abs (r2 - l1))
              else false.
Proof.
  intros Hall Hs1 Hs2.
  repeat match goal with
         | H : Forall _ (_ :: _) |- _ => inversion H; clear H; subst
         end.
  pixel_bounds.
  unfold validateBorderGap. rewrite Hs1, Hs2.
  cbn [FrameRect.x FrameRect.y FrameRect.width FrameRect.height frameRect
       add sub ltb leb of_Z Math_abs Math_min double_number].
  rewrite !add_exact by pixels.
  rewrite !sub_exact by pixels.
  rewrite !abs_exact by pixels.
  rewrite !min_exact by pixels.
  rewrite !ltb_exact by pixels.
  rewrite !leb_exact by pixels.
  reflexivity.
Qed.

(** C3, on pixel rects.  On the rects expanded by their border footprints:
    when the boxes lie apart along exactly one axis, the check passes at a
    separation of exactly [minGap] and fails at [minGap - 1]; when they lie
    strictly apart along both axes it passes whatever the gaps; when they
    meet on both axes, be it only at a corner, it fails. *)
Theorem gap_validation_boundary :
  forall (x1 y1 w1 h1 x2 y2 w2 h2 s1 s2 minGap : Z)
         (b1 b2 : BorderDimensions.t Double.t),
    Forall pixelRange [x1; y1; w1; h1; x2; y2; w2; h2; s1; s2; minGap] ->
    0 <= w1 -> 0 <= h1 -> 0 <= w2 -> 0 <= h2 -> 0 <= s1 -> 0 <= s2 ->
    calculateTotalBorderSpace b1 = Double.of_Z s1 ->
    calculateTotalBorderSpace b2 = Double.of_Z s2 ->
    let f1 : FrameRect.t Double.t := frameRect x1 y1 w1 h1 in
    let f2 : FrameRect.t Double.t := frameRect x2 y2 w2 h2 in
    let l1 := x1 - s1 in let r1 := x1 + w1 + s1 in
    let t1 := y1 - s1 in let d1 := y1 + h1 + s1 in
    let l2 := x2 - s2 in let r2 := x2 + w2 + s2 in
    let t2 := y2 - s2 in let d2 := y2 + h2 + s2 in
    (forall sep : Z,
        (apartByZ l1 r1 l2 r2 sep /\ meetZ t1 d1 t2 d2)
        \/ (apartByZ t1 d1 t2 d2 sep /\ meetZ l1 r1 l2 r2) ->
        (sep = minGap -> validateBorderGap f1 f2 b1 b2 (Double.of_Z minGap) = true)
        /\ (sep = minGap - 1 ->
            validateBorderGap f1 f2 b1 b2 (Double.of_Z minGap) = false))
    /\ (apartZ l1 r1 l2 r2 -> apartZ t1 d1 t2 d2 ->
        validateBorderGap f1 f2 b1 b2 (Double.of_Z minGap) = true)
    /\ (meetZ l1 r1 l2 r2 -> meetZ t1 d1 t2 d2 ->
        validateBorderGap f1 f2 b1 b2 (Double.of_Z minGap) = false).
Proof.
  intros x1 y1 w1 h1 x2 y2 w2 h2 s1 s2 minGap b1 b2 Hall Hw1 Hh1 Hw2 Hh2 Hp1 Hp2
         Hs1 Hs2 f1 f2 l1 r1 t1 d1 l2 r2 t2 d2.
  unfold f1, f2.
  rewrite (validateBorderGap_pixels x1 y1 w1 h1 x2 y2 w2 h2 s1 s2 minGap b1 b2
             Hall Hs1 Hs2).
  cbv zeta. fold l1 r1 t1 d1 l2 r2 t2 d2.
  unfold apartByZ, apartZ, meetZ.
  split; [| split].
  - intros sep Hadj. split; intros Hsep;
      destruct (Z.ltb_spec r1 l2), (Z.ltb_spec r2 l1),
               (Z.ltb_spec d1 t2), (Z.ltb_spec d2 t1);
      cbn [negb orb andb];
      first [ apply Z.leb_le; lia | apply Z.leb_gt; lia | lia ].
  - intros Hx Hy.
    destruct (Z.ltb_spec r1 l2), (Z.ltb_spec r2 l1),
             (Z.ltb_spec d1 t2), (Z.ltb_spec d2 t1);
      cbn [negb orb andb]; first [ reflexivity | lia ].
  - intros Hx Hy.
    destruct (Z.ltb_spec r1 l2), (Z.ltb_spec r2 l1),
             (Z.ltb_spec d1 t2), (Z.ltb_spec d2 t1);
      cbn [negb orb andb]; first [ reflexivity | lia ].
Qed.

End PixelGaps.

Set Implicit Arguments.


(** The illustration frame of the catalogue and a title box whose expanded
    rects stand 2 apart: the check passes for a minimum gap of 2 and fails
    for 3. *)
Lemma gap_validation_boundary_witness :
  let f1 : FrameRect.t Double.t := frameRect 40 40 390 688 in
  let f2 : FrameRect.t Double.t := frameRect 468 40 504 100 in
  validateBorderGap f1 f2 (getArtworkBorderDimensions None)
    (getTextBoxBorderDimensions None) (of_Z 2) = true
  /\ validateBorderGap f1 f2 (getArtworkBorderDimensions None)
       (getTextBoxBorderDimensions None) (of_Z 3) = false.
Proof.
  intros f1 f2.
  assert (Hall : forall g, (Z.abs g <= 3)%Z ->
            Forall pixelRange [40; 40; 390; 688; 468; 40; 504; 100; 19; 17; g]%Z).
  { intros g Hg. repeat constructor; unfold pixelRange; lia. }
  assert (Hs1 : calculateTotalBorderSpace (getArtworkBorderDimensions None)
                = Double.of_Z 19) by (vm_compute; reflexivity).
  assert (Hs2 : calculateTotalBorderSpace (getTextBoxBorderDimensions None)
                = Double.of_Z 17) by (vm_compute; reflexivity).
  assert (Hadj : (apartByZ (40 - 19) (40 + 390 + 19) (468 - 17) (468 + 504 + 17) 2
                  /\ meetZ (40 - 19) (40 + 688 + 19) (40 - 17) (40 + 100 + 17))
                 \/ (apartByZ (40 - 19) (40 + 688 + 19) (40 - 17) (40 + 100 + 17) 2
                     /\ meetZ (40 - 19) (40 + 390 + 19) (468 - 17) (468 + 504 + 17))).
  { left. unfold apartByZ, meetZ. lia. }
  split.
  - apply (proj1 (proj1 (gap_validation_boundary 40 40 390 688 468 40 504 100 19 17 2
                           (getArtworkBorderDimensions None)
                           (getTextBoxBorderDimensions None)
                           (Hall 2%Z ltac:(lia)) ltac:(lia) ltac:(lia) ltac:(lia)
                           ltac:(lia) ltac:(lia) ltac:(lia) Hs1 Hs2) 2%Z Hadj)).
    reflexivity.
  - apply (proj2 (proj1 (gap_validation_boundary 40 40 390 688 468 40 504 100 19 17 3
                           (getArtworkBorderDimensions None)
                           (getTextBoxBorderDimensions None)
                           (Hall 3%Z ltac:(lia)) ltac:(lia) ltac:(lia) ltac:(lia)
                           ltac:(lia) ltac:(lia) ltac:(lia) Hs1 Hs2) 2%Z Hadj)).
    reflexivity.
Defined.

(** C3's clause on diagonal placements does not hold as worded: two boxes
    that touch at a corner, with no border at all, fail the check, even for
    a minimum gap of 0. *)
Lemma corner_touching_boxes_fail : ~ diagonalPlacementsPass.
Proof.
  intros Hclaim.
  assert (Hrun : validateBorderGap (frameRect 0 0 10 10 : FrameRect.t Double.t)
                   (frameRect 10 10 10 10) noBorder noBorder (of_Z 0) = true).
  { apply Hclaim; vm_compute; reflexivity. }
  vm_compute in Hrun. discriminate Hrun.
Qed.

(** ** Border footprint and gaps (borderRenderer.ts), on exact rationals *)

Section BorderFacts.

Local Open Scope Q_scope.

Lemma exact_ltb_true (a b : Q) : Exact.ltb a b = true <-> a < b.
Proof.
  unfold Exact.ltb. rewrite negb_true_iff.
  split; intros Hab.
  - apply Qnot_le_lt. intros Hle. apply Qle_bool_iff in Hle. congruence.
  - destruct (Qle_bool b a) eqn:E; [| reflexivity].
    apply Qle_bool_iff in E. exfalso. apply (Qlt_not_le _ _ Hab E).
Qed.

Lemma exact_ltb_false (a b : Q) : Exact.ltb a b = false <-> b <= a.
Proof.
  unfold Exact.ltb. rewrite negb_false_iff. apply Qle_bool_iff.
Qed.

Lemma exact_leb_false (a b : Q) : Qle_bool a b = false <-> b < a.
Proof.
  split; intros Hab.
  - apply Qnot_le_lt. intros Hle. apply Qle_bool_iff in Hle. congruence.
  - destruct (Qle_bool a b) eqn:E; [| reflexivity].
    apply Qle_bool_iff in E. exfalso. apply (Qlt_not_le _ _ Hab E).
Qed.

(** The same round trip computed on binary64, for every rect of every
    catalogue variant at every scale preset and every glow choice. *)
Lemma border_layer_footprint_binary64 :
  forall (variant : LayoutVariant) (preset : ScalePreset),
    forallb (fun glowConfig =>
               forallb (roundTripExact glowConfig)
                       (layout_rects (scaled variant preset)))
            GLOW_CHOICES = true.
Proof. intros variant preset. destruct variant, preset; vm_compute; reflexivity. Qed.

Lemma gap_when_apart (lo1 hi1 lo2 hi2 sep : Q) :
  lo1 <= hi1 -> lo2 <= hi2 -> apartBy lo1 hi1 lo2 hi2 sep ->
  Qmin (Qabs (hi1 - lo2)) (Qabs (hi2 - lo1)) == sep.
Proof.
  intros H1 H2 [[Hlt Hsep] | [Hlt Hsep]].
  - rewrite (Qabs_neg (hi1 - lo2)) by lra.
    rewrite (Qabs_pos (hi2 - lo1)) by lra.
    rewrite Q.min_l by lra. lra.
  - rewrite (Qabs_pos (hi1 - lo2)) by lra.
    rewrite (Qabs_neg (hi2 - lo1)) by lra.
    rewrite Q.min_r by lra. lra.
Qed.

Lemma apart_ltb (lo1 hi1 lo2 hi2 : Q) :
  apart lo1 hi1 lo2 hi2 -> Exact.ltb hi1 lo2 || Exact.ltb hi2 lo1 = true.
Proof.
  intros [H | H]; apply exact_ltb_true in H; rewrite H;
    auto using orb_true_r.
Qed.

Lemma meet_ltb (lo1 hi1 lo2 hi2 : Q) :
  meet lo1 hi1 lo2 hi2 -> Exact.ltb hi1 lo2 || Exact.ltb hi2 lo1 = false.
Proof.
  intros [H1 H2]. apply exact_ltb_false in H1, H2. rewrite H1, H2. reflexivity.
Qed.

Lemma apartBy_apart (lo1 hi1 lo2 hi2 sep : Q) :
  apartBy lo1 hi1 lo2 hi2 sep -> apart lo1 hi1 lo2 hi2.
Proof. intros [[H _] | [H _]]; [left | right]; exact H. Qed.

(** [validateBorderGap] in terms of the expanded edges. *)
Lemma validateBorderGap_edges (f1 f2 : FrameRect.t Q) (b1 b2 : BorderDimensions.t Q)
  (minGap : Q) :
  validateBorderGap f1 f2 b1 b2 minGap
  = let l1 := expandedLeft f1 b1 in let r1 := expandedRight f1 b1 in
    let t1 := expandedTop f1 b1 in let d1 := expandedBottom f1 b1 in
    let l2 := expandedLeft f2 b2 in let r2 := expandedRight f2 b2 in
    let t2 := expandedTop f2 b2 in let d2 := expandedBottom f2 b2 in
    let ho := negb (Exact.ltb r1 l2 || Exact.ltb r2 l1) in
    let vo := negb (Exact.ltb d1 t2 || Exact.ltb d2 t1) in
    if negb ho && negb vo then true
    else if ho && negb vo
         then Qle_bool minGap (Qmin (Qabs (d1 - t2)) (Qabs (d2 - t1)))
         else if negb ho && vo
              then Qle_bool minGap (Qmin (Qabs (r1 - l2)) (Qabs (r2 - l1)))
              else false.
Proof. reflexivity. Qed.

Lemma expanded_ordered (f : FrameRect.t Q) (b : BorderDimensions.t Q) :
  wellFormed f b ->
  expandedLeft f b <= expandedRight f b /\ expandedTop f b <= expandedBottom f b.
Proof.
  unfold wellFormed, expandedLeft, expandedRight, expandedTop, expandedBottom.
  intros (Hw & Hh & Hs). split; lra.
Qed.

(** The boundary of the gap check on exact rationals: when the expanded
    boxes lie apart along exactly one axis, the check passes at a
    separation of exactly [minGap] and fails at [minGap - 1]; when they lie
    apart along both axes it passes whatever the gaps; when they meet on
    both axes it fails. *)
Lemma gap_validation_boundary_rational :
  forall (f1 f2 : FrameRect.t Q) (b1 b2 : BorderDimensions.t Q) (minGap : Q),
    let l1 := expandedLeft f1 b1 in let r1 := expandedRight f1 b1 in
    let t1 := expandedTop f1 b1 in let d1 := expandedBottom f1 b1 in
    let l2 := expandedLeft f2 b2 in let r2 := expandedRight f2 b2 in
    let t2 := expandedTop f2 b2 in let d2 := expandedBottom f2 b2 in
    (wellFormed f1 b1 -> wellFormed f2 b2 ->
     forall sep : Q,
       (apartBy l1 r1 l2 r2 sep /\ meet t1 d1 t2 d2)
       \/ (apartBy t1 d1 t2 d2 sep /\ meet l1 r1 l2 r2) ->
       (sep == minGap -> validateBorderGap f1 f2 b1 b2 minGap = true)
       /\ (sep == minGap - 1 -> validateBorderGap f1 f2 b1 b2 minGap = false))
    /\ (apart l1 r1 l2 r2 -> apart t1 d1 t2 d2 ->
        validateBorderGap f1 f2 b1 b2 minGap = true)
    /\ (meet l1 r1 l2 r2 -> meet t1 d1 t2 d2 ->
        validateBorderGap f1 f2 b1 b2 minGap = false).
Proof.
  intros f1 f2 b1 b2 minGap l1 r1 t1 d1 l2 r2 t2 d2.
  rewrite validateBorderGap_edges.
  fold l1 r1 t1 d1 l2 r2 t2 d2. cbv zeta.
  split; [| split].
  - intros W1 W2 sep Hadj.
    destruct (expanded_ordered W1) as [Hx1 Hy1].
    destruct (expanded_ordered W2) as [Hx2 Hy2].
    fold l1 r1 t1 d1 in Hx1, Hy1. fold l2 r2 t2 d2 in Hx2, Hy2.
    destruct Hadj as [[Hap Hmeet] | [Hap Hmeet]].
    + rewrite (apart_ltb (apartBy_apart Hap)), (meet_ltb Hmeet). cbn [negb andb].
      rewrite (gap_when_apart Hx1 Hx2 Hap).
      split; intros Hsep.
      * apply Qle_bool_iff. lra.
      * apply exact_leb_false. lra.
    + rewrite (apart_ltb (apartBy_apart Hap)), (meet_ltb Hmeet). cbn [negb andb].
      rewrite (gap_when_apart Hy1 Hy2 Hap).
      split; intros Hsep.
      * apply Qle_bool_iff. lra.
      * apply exact_leb_false. lra.
  - intros Hx Hy. rewrite (apart_ltb Hx), (apart_ltb Hy). reflexivity.
  - intros Hx Hy. rewrite (meet_ltb Hx), (meet_ltb Hy). reflexivity.
Qed.

(** The same boundary computed on binary64. *)
Lemma gap_validation_boundary_binary64 :
  let f1 : FrameRect.t Double.t := frameRect 40 40 390 688 in
  let f2 : FrameRect.t Double.t := frameRect 468 40 504 100 in
  validateBorderGap f1 f2 (getArtworkBorderDimensions None)
    (getTextBoxBorderDimensions None) (of_Z 2) = true
  /\ validateBorderGap f1 f2 (getArtworkBorderDimensions None)
       (getTextBoxBorderDimensions None) (of_Z 3) = false.
Proof. split; vm_compute; reflexivity. Qed.

(** Expanded boxes that touch along an axis are not apart on it: they meet,
    and the check fails even for a minimum gap of 0. *)
Lemma touching_boxes_fail :
  validateBorderGap gapExampleFrame1 (FrameRect.mk 466 40 504 100)
    (getArtworkBorderDimensions None) (getTextBoxBorderDimensions None) 0 = false.
Proof. vm_compute. reflexivity. Qed.

End BorderFacts.

(** ** Lookups by id and the frame assembler *)

Section LookupFacts.

Context {num : Type} `{JsNumber num}.

Lemma own_property_absent {A} (table : list (string * A)) (key : string) :
  ~ In key (map fst table) -> own_property table key = None.
Proof.
  induction table as [| [k v] rest IH]; intros Hnot; [reflexivity |].
  simpl in *. destruct (String.eqb_spec key k) as [-> | Hne].
  - exfalso. apply Hnot. left. reflexivity.
  - apply IH. intros Hin. apply Hnot. right. exact Hin.
Qed.

(** C6.  With the preset id 'none', [renderFrame] returns the very buffer
    it was given: nothing is composited, and no asset is loaded. *)
Theorem renderFrame_none_is_identity :
  forall fs decode (cardBuffer : Buffer num) cardWidth cardHeight layoutVariant
         insetOffset borderThickness (w : World.t num),
    renderFrame fs decode cardBuffer
      (FrameRenderOptions.mk "none" cardWidth cardHeight layoutVariant
         insetOffset borderThickness) w
    = (Ok cardBuffer, w).
Proof. intros. reflexivity. Qed.

Lemma renderFrame_unknown_throws fs decode (cardBuffer : Buffer num)
  cardWidth cardHeight layoutVariant insetOffset borderThickness w (id : string) :
  ~ In id VALID_PRESET_IDS ->
  exists e,
    renderFrame fs decode cardBuffer
      (FrameRenderOptions.mk id cardWidth cardHeight layoutVariant
         insetOffset borderThickness) w = (Throw e, w)
    /\ e = (if string_mem id OBJECT_PROTOTYPE_KEYS then ASSET_NOT_FOUND None
            else INVALID_PRESET id).
Proof.
  intros Hnot. unfold renderFrame, js_lookup.
  cbn [FrameRenderOptions.presetId].
  rewrite own_property_absent by exact Hnot.
  destruct (string_mem id OBJECT_PROTOTYPE_KEYS).
  - assert (Hd : isDecorativePreset id = true).
    { unfold isDecorativePreset. destruct (String.eqb_spec id "none") as [-> | Hne].
      - exfalso. apply Hnot. simpl. tauto.
      - reflexivity. }
    rewrite Hd. cbn [negb]. eexists. split; reflexivity.
  - eexists. split; reflexivity.
Qed.

Lemma getBlurConfig_unknown (id : string) :
  ~ In id BLUR_INTENSITY_IDS ->
  getBlurConfig (num := num) id
  = if string_mem id OBJECT_PROTOTYPE_KEYS then Inherited id
    else Own (BlurConfig.mk "medium" "中度" (of_Z 12) (frac 85 100)).
Proof.
  intros Hnot. unfold getBlurConfig, js_lookup at 1.
  rewrite own_property_absent by exact Hnot.
  destruct (string_mem id OBJECT_PROTOTYPE_KEYS); reflexivity.
Qed.

Lemma getTextBoxColorGradient_unknown (id : string) :
  ~ In id PREMIUM_COLOR_IDS ->
  getTextBoxColorGradient id = OBSIDIAN_GRADIENT.
Proof.
  intros Hnot. unfold getTextBoxColorGradient, PREMIUM_TEXTBOX_COLORS.
  cbn [find fst snd].
  repeat match goal with
  | |- context [String.eqb ?k id] =>
      destruct (String.eqb_spec k id) as [<- | _];
      [exfalso; apply Hnot; simpl; tauto |]
  end.
  reflexivity.
Qed.

(** C9, as the code has it.  Only the frame assembler fails on an id
    outside its enum: [renderFrame] throws on every such id, and with
    INVALID_PRESET on an unknown name.  The two configuration lookups
    substitute a default: [getBlurConfig] returns the medium configuration
    on an unknown name, [getTextBoxColorGradient] the obsidian gradient on
    every id outside its enum.  An unknown name is a string that is in no
    enum and is not the name of a member of [Object.prototype]. *)
Theorem unknown_id_handling :
  (forall fs decode (cardBuffer : Buffer num) cardWidth cardHeight layoutVariant
          insetOffset borderThickness w (id : string),
      ~ In id VALID_PRESET_IDS ->
      exists e,
        renderFrame fs decode cardBuffer
          (FrameRenderOptions.mk id cardWidth cardHeight layoutVariant
             insetOffset borderThickness) w = (Throw e, w)
        /\ (string_mem id OBJECT_PROTOTYPE_KEYS = false -> e = INVALID_PRESET id))
  /\ (forall id : string,
        ~ In id BLUR_INTENSITY_IDS ->
        string_mem id OBJECT_PROTOTYPE_KEYS = false ->
        getBlurConfig (num := num) id
        = Own (BlurConfig.mk "medium" "中度" (of_Z 12) (frac 85 100)))
  /\ (forall id : string,
        ~ In id PREMIUM_COLOR_IDS ->
        getTextBoxColorGradient id = OBSIDIAN_GRADIENT).
Proof.
  split; [| split].
  - intros fs decode cardBuffer cw ch lv io bt w id Hnot.
    destruct (renderFrame_unknown_throws fs decode cardBuffer cw ch lv io bt w Hnot)
      as (e & Hrun & Hkind).
    exists e. split; [exact Hrun |]. intros Hplain. rewrite Hplain in Hkind.
    exact Hkind.
  - intros id Hnot Hplain. rewrite (getBlurConfig_unknown Hnot), Hplain. reflexivity.
  - exact getTextBoxColorGradient_unknown.
Qed.

End LookupFacts.

Lemma bogus_not_listed (ids : list string) :
  string_mem "bogus" ids = false -> ~ In "bogus"%string ids.
Proof.
  unfold string_mem. intros Hmem Hin.
  assert (Hex : existsb (String.eqb "bogus") ids = true).
  { apply existsb_exists. exists "bogus"%string. split; [exact Hin |].
    apply String.eqb_refl. }
  congruence.
Qed.

(** The id 'bogus' is in none of the enums: the frame assembler throws
    INVALID_PRESET on it, the blur lookup hands out the medium configuration
    and the colour lookup the obsidian gradient. *)
Lemma unknown_id_handling_witness :
  fst (renderFrame (fun _ => true) (fun _ => Some (1, 1)%Z)
         (Raw [] : Buffer Double.t)
         (FrameRenderOptions.mk "bogus" (of_Z 1024) (of_Z 768) None None None)
         emptyWorld)
  = Throw (INVALID_PRESET "bogus")
  /\ getBlurConfig (num := Double.t) "bogus"
     = Own (BlurConfig.mk "medium" "中度" (of_Z 12) (frac 85 100))
  /\ getTextBoxColorGradient "bogus" = OBSIDIAN_GRADIENT.
Proof.
  destruct (unknown_id_handling (num := Double.t)) as (Hframe & Hblur & Hcolor).
  split; [| split].
  - destruct (Hframe (fun _ => true) (fun _ => Some (1, 1)%Z) (Raw []) (of_Z 1024)
                (of_Z 768) None None None emptyWorld "bogus"%string) as (e & Hrun & Hkind).
    + apply bogus_not_listed. reflexivity.
    + rewrite Hrun, (Hkind eq_refl). reflexivity.
  - apply Hblur; [apply bogus_not_listed |]; reflexivity.
  - apply Hcolor. apply bogus_not_listed. reflexivity.
Defined.

(** C9 as worded does not hold: on the id 'bogus' the blur lookup returns a
    configuration instead of failing. *)
Lemma unknown_ids_are_not_all_fatal : ~ unknownIdsAreFatal.
Proof.
  intros (_ & Hblur & _).
  assert (Hnot : ~ In "bogus"%string BLUR_INTENSITY_IDS)
    by (apply bogus_not_listed; reflexivity).
  specialize (Hblur "bogus"%string Hnot).
  discriminate Hblur.
Qed.

(** The raster thickness of a strip comes from the preset alone. *)
Lemma renderBorderStrip_thickness (fs : string -> bool)
  (decode : Buffer Double.t -> option (Z * Z)) preset position length scaleFactor w strip w' :
  renderBorderStrip fs decode preset position length scaleFactor w = (Ok strip, w') ->
  exists asset,
    let thickness :=
      Math_round (mul (FramePresetConfig.borderThickness preset) scaleFactor) in
    strip = match position with
            | border_left | border_right =>
                Rotated (Resized asset length thickness fit_fill "lanczos3") 90
            | _ => Resized asset length thickness fit_fill "lanczos3"
            end.
Proof.
  unfold renderBorderStrip, bind, sharp_resize.
  destruct (loadAsset fs decode (FramePresetConfig.borderAsset preset) w)
    as [[asset | e |] w1]; try discriminate.
  destruct (isPositiveInteger length); cbn [negb];
    [| destruct position; discriminate].
  destruct (isPositiveInteger
              (Math_round (mul (FramePresetConfig.borderThickness preset) scaleFactor)));
    cbn [negb]; [| destruct position; discriminate].
  unfold sharp_input.
  destruct (decode asset); [| destruct position; discriminate].
  intros E. exists asset. cbv zeta.
  destruct position; cbn [ret throw] in E; injection E as <- _; reflexivity.
Qed.

(** The length of a strip is the card dimension along it less twice the
    corner size and inset. *)
Lemma strip_length (position : BorderPosition)
  (cardWidth cardHeight cornerSize borderThickness insetOffset : Double.t) :
  let dims :=
    calculateBorderPosition position cardWidth cardHeight cornerSize
      borderThickness insetOffset in
  match position with
  | border_top | border_bottom =>
      StripDimensions.width dims
      = sub cardWidth (mul (of_Z 2) (add cornerSize insetOffset))
  | border_left | border_right =>
      StripDimensions.height dims
      = sub cardHeight (mul (of_Z 2) (add cornerSize insetOffset))
  end.
Proof. destruct position; reflexivity. Qed.

(** On a card too narrow for two corners the top and bottom strips are left
    out: four corners and the two vertical strips remain. *)
Lemma short_strips_are_skipped :
  exists framed : Buffer Double.t,
    fst (renderFrame (fun _ => true) decodeAll (Raw [Byte.x00])
           (FrameRenderOptions.mk "cyber" (of_Z 220) (of_Z 768) None None None)
           emptyWorld) = Ok framed
    /\ map (fun ov => raster_size (Overlay.input ov)) (skipn 4 (layersOf framed))
       = [Some (of_Z 20, of_Z 548); Some (of_Z 20, of_Z 548)].
Proof. eexists. split; vm_compute; reflexivity. Qed.

(** Without an override the strips are rasterised as thick as they are
    placed, for every decorative preset on every catalogue card. *)
Lemma strips_match_preset_thickness :
  forall variant : LayoutVariant,
    forallb (fun entry : string * FramePresetConfig.t Double.t =>
               negb (isDecorativePreset (fst entry))
               || stripsAreThick (frameRequest (fst entry) variant None)
                    (FramePresetConfig.borderThickness (snd entry)))
            FRAME_PRESETS = true.
Proof. intros variant. destruct variant; vm_compute; reflexivity. Qed.

(** With an override of 30 the strips of the cyber frame stay as thick as
    the preset says (20), not as the override does. *)
Lemma strips_ignore_override :
  forall variant : LayoutVariant,
    stripsAreThick (frameRequest "cyber" variant (Some (of_Z 30))) (of_Z 20) = true
    /\ stripsAreThick (frameRequest "cyber" variant (Some (of_Z 30))) (of_Z 30) = false.
Proof. intros variant. destruct variant; split; vm_compute; reflexivity. Qed.

(** C7, at the failing input: with the edge thickness overridden to 30 on
    the cyber frame (preset thickness 20, landscape card), the four strips
    are rasterised 20 thick, 804 and 548 long, while the rectangles they are
    placed by are 30 thick. *)
Theorem strip_raster_ignores_thickness_override :
  exists framed : Buffer Double.t,
    fst (renderFrame (fun _ => true) (fun _ => Some (1024, 768)%Z)
           (Raw [Byte.x00]) thicknessOverrideOptions emptyWorld) = Ok framed
    /\ stripRasters framed
       = [ Some (of_Z 804, of_Z 20); Some (of_Z 20, of_Z 548);
           Some (of_Z 804, of_Z 20); Some (of_Z 20, of_Z 548) ]
    /\ map (fun position => placementThickness position (overridePlacement position))
           ALL_BORDERS
       = [of_Z 30; of_Z 30; of_Z 30; of_Z 30].
Proof.
  eexists. split; [vm_compute; reflexivity |].
  split; vm_compute; reflexivity.
Qed.

(** ** Line wrapping (cardComposer.ts) *)

Section WrapFacts.

Context {num : Type} `{JsNumber num}.

Lemma split_lines_nonempty (text : jsstring) : split_lines text <> [].
Proof.
  destruct text as [| c s]; simpl; [discriminate |].
  destruct (c =? 10)%N; [discriminate |].
  destruct (split_lines s); discriminate.
Qed.

Lemma split_lines_length (text : jsstring) :
  Forall (fun p => (List.length p <= List.length text)%nat) (split_lines text).
Proof.
  induction text as [| c s IH]; simpl.
  - constructor; [simpl; lia | constructor].
  - destruct (c =? 10)%N.
    + constructor; [simpl; lia |].
      eapply Forall_impl; [| exact IH]. simpl. intros; lia.
    + destruct (split_lines s) as [| p ps].
      * constructor; [simpl; lia | constructor].
      * inversion IH as [| ? ? Hp Hps]; subst.
        constructor; [simpl; lia |].
        eapply Forall_impl; [| exact Hps]. simpl. intros; lia.
Qed.

Lemma at_least_one_cases (maxChars : xint) :
  xint_leb (XFin 1) maxChars = true ->
  maxChars = XPosInf \/ exists z, maxChars = XFin z /\ (1 <= z)%Z.
Proof.
  destruct maxChars as [z | | |]; simpl; intros Hge; try discriminate.
  - right. exists z. split; [reflexivity | lia].
  - left. reflexivity.
Qed.

Lemma wrapText_loop_total (maxChars : xint) :
  xint_leb (XFin 1) maxChars = true ->
  forall (fuel : nat) (remaining : jsstring) (lines : list jsstring),
    (List.length remaining < fuel)%nat ->
    Forall (fitsIn maxChars) lines ->
    exists lines',
      wrapText_loop fuel maxChars remaining lines = Some lines'
      /\ Forall (fitsIn maxChars) lines'.
Proof.
  intros Hge fuel.
  induction fuel as [| fuel IH]; intros remaining lines Hfuel Hlines; [lia |].
  cbn [wrapText_loop].
  destruct (0 <? List.length remaining)%nat eqn:Hlen;
    [| exists lines; split; [reflexivity | exact Hlines]].
  apply Nat.ltb_lt in Hlen.
  destruct (xint_leb (XFin (Z.of_nat (List.length remaining))) maxChars) eqn:Hfit.
  - exists (lines ++ [remaining]). split; [reflexivity |].
    apply Forall_app. split; [exact Hlines |]. repeat constructor. exact Hfit.
  - destruct (at_least_one_cases _ Hge) as [-> | (z & -> & Hz)];
      [simpl in Hfit; discriminate |].
    simpl in Hfit. apply Z.leb_gt in Hfit.
    assert (Hidx : Nat.min (Z.to_nat z) (List.length remaining) = Z.to_nat z) by lia.
    apply IH.
    + unfold substring, to_index. rewrite Hidx.
      rewrite length_firstn, length_skipn. lia.
    + apply Forall_app. split; [exact Hlines |]. repeat constructor.
      unfold fitsIn, substring, to_index. rewrite Hidx. simpl.
      rewrite length_firstn. apply Z.leb_le. lia.
Qed.

Lemma wrapText_paragraphs_total (maxChars : xint) (fuel : nat) :
  xint_leb (XFin 1) maxChars = true ->
  forall (paragraphs lines : list jsstring),
    Forall (fun p => (List.length p < fuel)%nat) paragraphs ->
    Forall (fitsIn maxChars) lines ->
    exists lines',
      wrapText_paragraphs fuel maxChars paragraphs lines = Some lines'
      /\ Forall (fitsIn maxChars) lines'.
Proof.
  intros Hge paragraphs.
  induction paragraphs as [| p rest IH]; intros lines Hfuel Hlines;
    cbn [wrapText_paragraphs].
  - exists lines. split; [reflexivity | exact Hlines].
  - inversion Hfuel as [| ? ? Hp Hrest]; subst.
    destruct (xint_leb (XFin (Z.of_nat (List.length p))) maxChars) eqn:Hfit.
    + apply IH; [exact Hrest |].
      apply Forall_app. split; [exact Hlines |]. repeat constructor. exact Hfit.
    + destruct (wrapText_loop_total Hge p Hp Hlines) as (lines1 & -> & Hlines1).
      apply IH; assumption.
Qed.

Lemma ceil_div_finite (length : nat) (maxChars : xint) :
  xint_leb (XFin 1) maxChars = true ->
  exists n, ceil_div length maxChars = XFin n /\ (0 <= n)%Z.
Proof.
  intros Hge.
  destruct (at_least_one_cases _ Hge) as [-> | (z & -> & Hz)]; simpl.
  - exists 0%Z. split; [reflexivity | lia].
  - destruct (z =? 0)%Z eqn:Hz0; [apply Z.eqb_eq in Hz0; lia |].
    eexists. split; [reflexivity |].
    assert (Hq : (- Z.of_nat length / z <= 0)%Z).
    { apply Z.div_le_upper_bound; lia. }
    lia.
Qed.

Lemma calculateTextLines_fold_finite (maxChars : xint) :
  xint_leb (XFin 1) maxChars = true ->
  forall (paragraphs : list jsstring) (total : Z),
    (0 <= total)%Z ->
    exists n,
      fold_left (fun totalLines paragraph =>
          if (List.length paragraph =? 0)%nat then xint_add totalLines (XFin 1)
          else xint_add totalLines (ceil_div (List.length paragraph) maxChars))
        paragraphs (XFin total) = XFin n
      /\ (0 <= n)%Z.
Proof.
  intros Hge paragraphs.
  induction paragraphs as [| p rest IH]; intros total Htotal; simpl.
  - exists total. split; [reflexivity | exact Htotal].
  - destruct (List.length p =? 0)%nat.
    + apply IH. lia.
    + destruct (@ceil_div_finite (List.length p) maxChars Hge) as (n & -> & Hn).
      simpl. apply IH. lia.
Qed.

(** C10.  When [Math.floor((maxWidth - 40) / (fontSize * 0.8))] is at least
    1, [wrapText] returns: a list of lines, each of at most that many code
    units; and [calculateTextLines] returns a finite, non-negative count. *)
Theorem wrapText_total :
  forall (text : jsstring) (maxWidth fontSize : num),
    xint_leb (XFin 1) (maxCharsPerLine maxWidth fontSize) = true ->
    (exists lines,
        wrapText text maxWidth fontSize = Some lines
        /\ Forall (fitsIn (maxCharsPerLine maxWidth fontSize)) lines)
    /\ (exists n,
          calculateTextLines text maxWidth fontSize = XFin n /\ (0 <= n)%Z).
Proof.
  intros text maxWidth fontSize Hge. split.
  - unfold wrapText, wrapText_fuel.
    apply wrapText_paragraphs_total; [exact Hge | | constructor].
    eapply Forall_impl; [| apply split_lines_length].
    simpl. intros; lia.
  - unfold calculateTextLines.
    apply calculateTextLines_fold_finite; [exact Hge | lia].
Qed.

(** The result of the loop does not depend on the fuel once it returns. *)
Lemma wrapText_loop_more_fuel (maxChars : xint) (fuel extra : nat) :
  forall (remaining : jsstring) (lines result : list jsstring),
    wrapText_loop fuel maxChars remaining lines = Some result ->
    wrapText_loop (fuel + extra) maxChars remaining lines = Some result.
Proof.
  induction fuel as [| fuel IH]; intros remaining lines result Hrun;
    [discriminate |].
  cbn [wrapText_loop Nat.add] in *.
  destruct (0 <? List.length remaining)%nat; [| exact Hrun].
  destruct (xint_leb (XFin (Z.of_nat (List.length remaining))) maxChars);
    [exact Hrun |].
  apply IH. exact Hrun.
Qed.

(** Without the precondition the loop does not end: with room for less
    than one character, a non-empty paragraph is never consumed. *)
Lemma wrapText_loop_stuck (maxChars : xint) (fuel : nat) (remaining : jsstring)
  (lines : list jsstring) :
  xint_leb (XFin 1) maxChars = false ->
  remaining <> [] -> wrapText_loop fuel maxChars remaining lines = None.
Proof.
  intros Hsmall. revert lines.
  induction fuel as [| fuel IH]; intros lines Hne; [reflexivity |].
  destruct remaining as [| c s]; [congruence |].
  assert (Hfit : xint_leb (XFin (Z.of_nat (List.length (c :: s)))) maxChars = false).
  { destruct maxChars as [z | | |]; simpl in *; try reflexivity; try discriminate.
    apply Z.leb_gt in Hsmall. apply Z.leb_gt. lia. }
  assert (Hidx : to_index maxChars (List.length (c :: s)) = 0%nat).
  { destruct maxChars as [z | | |]; simpl in *; try reflexivity; try discriminate.
    apply Z.leb_gt in Hsmall. destruct z; simpl; try reflexivity; lia. }
  cbn [wrapText_loop]. rewrite Hfit.
  replace (substring (c :: s) maxChars None) with (c :: s).
  - apply IH. exact Hne.
  - unfold substring. rewrite Hidx.
    rewrite Nat.max_0_l, Nat.min_0_l, Nat.sub_0_r. cbn [skipn].
    rewrite firstn_all. reflexivity.
Qed.

End WrapFacts.

Lemma wrapText_total_witness :
  let text := js_of_string "hello world" in
  xint_leb (XFin 1) (maxCharsPerLine (of_Z 227 : Double.t) (of_Z 36)) = true
  /\ (exists lines,
        wrapText text (of_Z 227 : Double.t) (of_Z 36) = Some lines
        /\ Forall (fitsIn (maxCharsPerLine (of_Z 227 : Double.t) (of_Z 36))) lines)
  /\ (exists n,
        calculateTextLines text (of_Z 227 : Double.t) (of_Z 36) = XFin n
        /\ (0 <= n)%Z).
Proof.
  intros text.
  assert (Hge : xint_leb (XFin 1) (maxCharsPerLine (of_Z 227 : Double.t) (of_Z 36)) = true)
    by (vm_compute; reflexivity).
  split; [exact Hge |].
  exact (wrapText_total text (of_Z 227 : Double.t) (of_Z 36) Hge).
Defined.

(** ** The compositor (cardComposer.ts) *)

Section StatelessFacts.

Context {num : Type} `{JsNumber num}.
Variable decode : Buffer num -> option (Z * Z).

Lemma stateless_ret {A} (a : A) : stateless (ret (num := num) a).
Proof. exists (Ok a). reflexivity. Qed.

Lemma stateless_throw {A} (e : Error) : stateless (throw (num := num) (A := A) e).
Proof. exists (Throw e). reflexivity. Qed.

Lemma stateless_diverge {A} : stateless (diverge (num := num) (A := A)).
Proof. exists Diverge. reflexivity. Qed.

Lemma stateless_bind {A B} (m : M num A) (k : A -> M num B) :
  stateless m -> (forall a, stateless (k a)) -> stateless (bind m k).
Proof.
  intros [o Hm] Hk. unfold bind.
  destruct o as [a | e |].
  - destruct (Hk a) as [o' Hka]. exists o'. intros w. rewrite Hm. apply Hka.
  - exists (Throw e). intros w. rewrite Hm. reflexivity.
  - exists Diverge. intros w. rewrite Hm. reflexivity.
Qed.

Lemma stateless_foldM {A B} (f : B -> A -> M num B) (l : list A) :
  (forall acc a, stateless (f acc a)) -> forall acc, stateless (foldM f l acc).
Proof.
  intros Hf. induction l as [| a l IH]; intros acc; simpl.
  - apply stateless_ret.
  - apply stateless_bind; [apply Hf | exact IH].
Qed.

Lemma stateless_sharp_input (b : Buffer num) : stateless (sharp_input decode b).
Proof.
  unfold sharp_input. destruct (decode b);
    [apply stateless_ret | apply stateless_throw].
Qed.

Lemma stateless_sharp_metadata (b : Buffer num) : stateless (sharp_metadata decode b).
Proof.
  unfold sharp_metadata. destruct (decode b);
    [apply stateless_ret | apply stateless_throw].
Qed.

Lemma stateless_sharp_resize (b : Buffer num) (width height : num) fit how :
  stateless (sharp_resize b width height fit how).
Proof.
  unfold sharp_resize.
  destruct (negb (isPositiveInteger width)); [apply stateless_throw |].
  destruct (negb (isPositiveInteger height));
    [apply stateless_throw | apply stateless_ret].
Qed.

Lemma stateless_sharp_rasterize (doc : SvgDoc num) : stateless (sharp_rasterize doc).
Proof.
  unfold sharp_rasterize. destruct (svgParses doc);
    [apply stateless_ret | apply stateless_throw].
Qed.

Lemma stateless_sharp_composite (base : Buffer num) images :
  stateless (sharp_composite decode base images).
Proof.
  unfold sharp_composite. destruct (compositeRefusal decode base images);
    [apply stateless_throw | apply stateless_ret].
Qed.

Ltac stateless_step :=
  first
    [ apply stateless_ret | apply stateless_throw | apply stateless_diverge
    | apply stateless_sharp_input | apply stateless_sharp_metadata
    | apply stateless_sharp_resize | apply stateless_sharp_rasterize
    | apply stateless_sharp_composite
    | apply stateless_bind; [| intros ?]
    | match goal with
      | |- stateless (if ?c then _ else _) => destruct c
      | |- stateless (match ?x with _ => _ end) => destruct x
      end ].

Lemma stateless_textLayer texts (box : TextBoxRect.t num) :
  stateless (textLayer texts box).
Proof. unfold textLayer. repeat stateless_step. Qed.

Lemma stateless_renderTextContent base texts (layout : option (LayoutConfig.t num)) :
  stateless (renderTextContent decode base texts layout).
Proof.
  unfold renderTextContent. apply stateless_bind.
  - apply stateless_foldM. intros acc box.
    apply stateless_bind; [apply stateless_textLayer | intros; apply stateless_ret].
  - intros composites. repeat stateless_step.
Qed.

Lemma stateless_render (options : ComposeCardOptions.t num) :
  stateless (composeCard_render decode options).
Proof.
  unfold composeCard_render, resizeAndCropArtwork, renderTextBoxBackgrounds.
  repeat first [ apply stateless_renderTextContent | stateless_step ].
Qed.

(** [composeCard] runs the rendering in the world the validation step
    leaves, and returns what the rendering returns. *)
Lemma composeCardWith_run validate (options : ComposeCardOptions.t num) :
  exists o,
    (forall w, composeCard_render decode options w = (o, w))
    /\ forall w,
         composeCardWith decode validate options w
         = (o, warned (validate (composeCard_layout options)
                         (composeCard_glowConfig options)) w).
Proof.
  destruct (stateless_render options) as [o Hrender].
  exists o. split; [exact Hrender |].
  intros w. unfold composeCardWith, warned, bind. cbv zeta.
  destruct (LayoutValidation.valid
              (validate (composeCard_layout options) (composeCard_glowConfig options)));
    cbn [negb console_warn ret]; rewrite Hrender; reflexivity.
Qed.

(** C4.  Whatever verdict the border validation gives, [composeCard]
    returns what it returns with any other verdict; the validation never
    throws or stops the call: all it leaves behind is one warning carrying
    its messages when it fails, and the rendering that follows does not
    look at it. *)
Theorem validation_is_advisory :
  forall (options : ComposeCardOptions.t num) (w : World.t num),
    (forall validate,
        fst (composeCardWith decode validate options w)
        = fst (composeCard decode options w))
    /\ (forall w', fst (composeCard decode options w)
                   = fst (composeCard_render decode options w'))
    /\ snd (composeCard decode options w)
       = warned (validateLayoutBorders (composeCard_layout options)
                   (composeCard_glowConfig options)) w.
Proof.
  intros options w.
  destruct (composeCardWith_run validateLayoutBorders options) as (o & Hrender & Hrun).
  split; [| split].
  - intros validate.
    destruct (composeCardWith_run validate options) as (o' & Hrender' & Hrun').
    unfold composeCard. rewrite Hrun, Hrun'. cbn [fst].
    specialize (Hrender w). specialize (Hrender' w). congruence.
  - intros w'. unfold composeCard. rewrite Hrun, Hrender. reflexivity.
  - unfold composeCard. rewrite Hrun. reflexivity.
Qed.

End StatelessFacts.

(** A request whose validation fails and whose card is composed all the
    same, with one warning written. *)
Lemma failed_validation_still_composes :
  LayoutValidation.valid
    (validateLayoutBorders (composeCard_layout crowdedOptions)
       (composeCard_glowConfig crowdedOptions)) = false
  /\ is_ok (fst (composeCard decodeAll crowdedOptions emptyWorld)) = true
  /\ List.length (World.warnings (snd (composeCard decodeAll crowdedOptions emptyWorld)))
     = 1%nat.
Proof. split; [| split]; vm_compute; reflexivity. Qed.

(** *** Text always fits the catalogue boxes *)

Lemma spec_float_eqb_eq (a b : spec_float) : spec_float_eqb a b = true -> a = b.
Proof.
  destruct a as [s | s | | s m e], b as [s' | s' | | s' m' e']; simpl;
    try discriminate; try reflexivity.
  - intros E. apply Bool.eqb_prop in E. congruence.
  - intros E. apply Bool.eqb_prop in E. congruence.
  - intros E. apply andb_prop in E as [E He]. apply andb_prop in E as [Hs Hm].
    apply Bool.eqb_prop in Hs. apply Pos.eqb_eq in Hm. apply Z.eqb_eq in He.
    congruence.
Qed.

Lemma calculateFontSize_loop_chain (sizes : list Double.t) :
  shrinkChain sizes = true ->
  forall (fuel : nat) (text : jsstring) (lineHeight boxWidth boxHeight : Double.t),
    (List.length sizes <= fuel)%nat ->
    exists fontSize,
      calculateFontSize_loop fuel text lineHeight boxWidth boxHeight
        (hd MIN_FONT_SIZE sizes) = Some fontSize
      /\ In fontSize sizes.
Proof.
  induction sizes as [| a rest IH]; [discriminate |].
  intros Hchain fuel text lineHeight boxWidth boxHeight Hfuel.
  destruct fuel as [| fuel]; [simpl in Hfuel; lia |].
  cbn [hd calculateFontSize_loop].
  destruct rest as [| b rest'].
  - cbn [shrinkChain] in Hchain. apply negb_true_iff in Hchain.
    rewrite Hchain. exists a. split; [reflexivity | left; reflexivity].
  - cbn [shrinkChain] in Hchain.
    apply andb_prop in Hchain as [Hchain Hrest].
    apply andb_prop in Hchain as [Hgt Hnext].
    apply spec_float_eqb_eq in Hnext.
    rewrite Hgt.
    match goal with
    | |- context [if ?c then Some a else _] => destruct c
    end.
    + exists a. split; [reflexivity | left; reflexivity].
    + rewrite Hnext.
      destruct (IH Hrest fuel text lineHeight boxWidth boxHeight) as (fs & Hfs & Hin).
      { simpl in Hfuel |- *. lia. }
      exists fs. split; [exact Hfs | right; exact Hin].
Qed.

Lemma calculateFontSize_sizes (text : jsstring) (boxId : string)
  (boxWidth boxHeight : Double.t) :
  exists fontSize,
    calculateFontSize text boxId boxWidth boxHeight = Some fontSize
    /\ In fontSize FONT_SIZES.
Proof.
  assert (Hfloor : forall fs, In fs FONT_SIZES -> Math_max fs MIN_FONT_SIZE = fs).
  { assert (Hall : forallb atLeastFloor FONT_SIZES = true) by (vm_compute; reflexivity).
    intros fs Hin. apply spec_float_eqb_eq.
    exact (proj1 (forallb_forall _ _) Hall fs Hin). }
  unfold calculateFontSize, getFontSizeForBox.
  destruct (String.eqb boxId "title").
  - destruct (@calculateFontSize_loop_chain FONT_SIZES eq_refl FONT_SIZE_FUEL text
                TITLE_LINE_HEIGHT boxWidth boxHeight) as (fs & Hfs & Hin).
    { vm_compute. lia. }
    change (hd MIN_FONT_SIZE FONT_SIZES) with (TITLE_FONT_SIZE (num := Double.t)) in Hfs.
    rewrite Hfs. exists fs. rewrite (Hfloor fs Hin). split; [reflexivity | exact Hin].
  - destruct (@calculateFontSize_loop_chain (skipn 6 FONT_SIZES) eq_refl FONT_SIZE_FUEL
                text CONTENT_LINE_HEIGHT boxWidth boxHeight) as (fs & Hfs & Hin).
    { vm_compute. lia. }
    change (hd MIN_FONT_SIZE (skipn 6 FONT_SIZES))
      with (CONTENT_FONT_SIZE (num := Double.t)) in Hfs.
    rewrite Hfs.
    assert (Hin' : In fs FONT_SIZES).
    { rewrite <- (firstn_skipn 6 FONT_SIZES). apply in_or_app. right. exact Hin. }
    exists fs. rewrite (Hfloor fs Hin'). split; [reflexivity | exact Hin'].
Qed.

(** Every text box of every layout [composeCard] can work on has room for
    text at every font size. *)
Lemma catalogue_boxes_take_text (options : ComposeCardOptions.t Double.t) :
  forallb boxTakesText (getAllTextBoxes (composeCard_layout options)) = true.
Proof.
  unfold composeCard_layout.
  destruct (ComposeCardOptions.layoutVariant options) as [[| | |] |];
    destruct (ComposeCardOptions.layoutMode options) as [[|] |];
    destruct (ComposeCardOptions.scalePreset options) as [[| | | |] |];
    vm_compute; reflexivity.
Qed.

(** With room for one character per line, [wrapText] returns. *)
Lemma wrapText_returns {num : Type} `{JsNumber num} (text : jsstring)
  (maxWidth fontSize : num) :
  xint_leb (XFin 1) (maxCharsPerLine maxWidth fontSize) = true ->
  exists lines, wrapText text maxWidth fontSize = Some lines.
Proof.
  intros Hge. unfold wrapText, wrapText_fuel.
  destruct (@wrapText_paragraphs_total (maxCharsPerLine maxWidth fontSize)
              (S (List.length text)) Hge (split_lines text) [])
    as (lines & Hrun & _).
  - eapply Forall_impl; [| apply split_lines_length]. simpl. intros; lia.
  - constructor.
  - exists lines. exact Hrun.
Qed.

(** *** What [wrapText] keeps *)

Section WrapContent.

Context {num : Type} `{JsNumber num}.

Lemma to_index_le (v : xint) (len : nat) : (to_index v len <= len)%nat.
Proof. destruct v; simpl; lia. Qed.

Lemma substring_head (s : jsstring) (v : xint) :
  substring s (XFin 0) (Some v) = firstn (to_index v (List.length s)) s.
Proof.
  unfold substring.
  change (to_index (XFin 0) (List.length s)) with (Nat.min 0 (List.length s)).
  rewrite Nat.min_0_l, Nat.max_0_l, Nat.min_0_l, Nat.sub_0_r. reflexivity.
Qed.

Lemma substring_tail (s : jsstring) (v : xint) :
  substring s v None = skipn (to_index v (List.length s)) s.
Proof.
  unfold substring.
  pose proof (to_index_le v (List.length s)) as Hle.
  rewrite Nat.min_l, Nat.max_r by exact Hle.
  apply firstn_all2. rewrite length_skipn. lia.
Qed.

Lemma substring_split (s : jsstring) (v : xint) :
  substring s (XFin 0) (Some v) ++ substring s v None = s.
Proof. rewrite substring_head, substring_tail. apply firstn_skipn. Qed.

Lemma wrapText_loop_content (maxChars : xint) (fuel : nat) :
  forall (remaining : jsstring) (lines result : list jsstring),
    wrapText_loop fuel maxChars remaining lines = Some result ->
    List.concat result = List.concat lines ++ remaining.
Proof.
  induction fuel as [| fuel IH]; intros remaining lines result Hrun; [discriminate |].
  cbn [wrapText_loop] in Hrun.
  destruct (0 <? List.length remaining)%nat eqn:Hlen.
  - destruct (xint_leb (XFin (Z.of_nat (List.length remaining))) maxChars).
    + injection Hrun as <-. rewrite List.concat_app. simpl. rewrite app_nil_r. reflexivity.
    + apply IH in Hrun. rewrite Hrun, List.concat_app. simpl.
      rewrite app_nil_r, <- app_assoc, substring_split. reflexivity.
  - injection Hrun as <-. apply Nat.ltb_ge in Hlen.
    destruct remaining; [rewrite app_nil_r; reflexivity | simpl in Hlen; lia].
Qed.

Lemma wrapText_paragraphs_content (maxChars : xint) (fuel : nat) :
  forall (paragraphs lines result : list jsstring),
    wrapText_paragraphs fuel maxChars paragraphs lines = Some result ->
    List.concat result = List.concat lines ++ List.concat paragraphs.
Proof.
  induction paragraphs as [| p rest IH]; intros lines result Hrun;
    cbn [wrapText_paragraphs] in Hrun.
  - injection Hrun as <-. simpl. rewrite app_nil_r. reflexivity.
  - destruct (xint_leb (XFin (Z.of_nat (List.length p))) maxChars).
    + apply IH in Hrun. rewrite Hrun, List.concat_app. simpl.
      rewrite app_nil_r, <- app_assoc. reflexivity.
    + destruct (wrapText_loop fuel maxChars p lines) as [lines' |] eqn:Hloop;
        [| discriminate].
      apply IH in Hrun. apply wrapText_loop_content in Hloop.
      rewrite Hrun, Hloop. simpl. rewrite <- app_assoc. reflexivity.
Qed.

Lemma concat_split_lines (text : jsstring) :
  List.concat (split_lines text) = withoutLineFeeds text.
Proof.
  unfold withoutLineFeeds.
  induction text as [| c s IH]; [reflexivity |].
  cbn [split_lines filter].
  destruct (c =? 10)%N; cbn [negb].
  - simpl. exact IH.
  - destruct (split_lines s) as [| p ps]; simpl in *; rewrite <- IH; reflexivity.
Qed.

Lemma forallb_concat {A} (f : A -> bool) (l : list (list A)) :
  forallb f (List.concat l) = forallb (forallb f) l.
Proof.
  induction l as [| a rest IH]; [reflexivity |].
  cbn [List.concat forallb]. rewrite forallb_app, IH. reflexivity.
Qed.

(** The lines [wrapText] returns hold a code unit XML forbids exactly when
    the text does. *)
Lemma wrapText_lines_drawable (text : jsstring) (maxWidth fontSize : num)
  (lines : list jsstring) :
  wrapText text maxWidth fontSize = Some lines ->
  forallb (forallb isXmlChar) lines = drawable text.
Proof.
  intros Hwrap. unfold wrapText, wrapText_fuel in Hwrap.
  apply wrapText_paragraphs_content in Hwrap. cbn [List.concat app] in Hwrap.
  rewrite <- forallb_concat, Hwrap, concat_split_lines.
  unfold drawable, withoutLineFeeds. clear Hwrap.
  induction text as [| c rest IH]; [reflexivity |].
  cbn [filter forallb]. destruct (N.eqb_spec c 10) as [-> | Hne]; cbn [negb forallb].
  - rewrite IH. reflexivity.
  - rewrite IH. reflexivity.
Qed.

End WrapContent.

(** *** What [sharp] takes *)

Section SharpFacts.

Context {num : Type} `{JsNumber num}.
Variable decode : Buffer num -> option (Z * Z).

Lemma sharp_resize_run (input : Buffer num) (width height : num) fit how :
  isPositiveInteger width = true -> isPositiveInteger height = true ->
  sharp_resize input width height fit how = ret (Resized input width height fit how).
Proof. intros Hw Hh. unfold sharp_resize. rewrite Hw, Hh. reflexivity. Qed.

Lemma offsetRefusal_fits (baseWidth baseHeight : num) images :
  forallb (layerFits baseWidth baseHeight) images = true ->
  offsetRefusal images = None.
Proof.
  induction images as [| image rest IH]; [reflexivity |].
  cbn [forallb offsetRefusal]. intros Hall.
  apply andb_prop in Hall as [Hfit Hrest].
  unfold layerFits in Hfit.
  apply andb_prop in Hfit as [Hplace _]. apply andb_prop in Hplace as [Hleft Htop].
  rewrite Hleft, Htop. cbn [negb]. exact (IH Hrest).
Qed.

Lemma overlayRefusal_fits (baseWidth baseHeight : num) images :
  forallb (layerFits baseWidth baseHeight) images = true ->
  overlayRefusal decode baseWidth baseHeight images = None.
Proof.
  induction images as [| image rest IH]; [reflexivity |].
  cbn [forallb overlayRefusal]. intros Hall.
  apply andb_prop in Hall as [Hfit Hrest].
  unfold layerFits in Hfit. apply andb_prop in Hfit as [_ Hsize].
  unfold pixel_size.
  destruct (raster_size (Overlay.input image)) as [[width height] |];
    [| discriminate Hsize].
  apply andb_prop in Hsize as [Hw Hh].
  apply negb_true_iff in Hw, Hh. rewrite Hw, Hh. cbn [orb]. exact (IH Hrest).
Qed.

(** Layers with integer places, none larger than the base, are
    composited. *)
Lemma sharp_composite_run (base : Buffer num) (baseWidth baseHeight : num) images :
  pixel_size decode base = Some (baseWidth, baseHeight) ->
  forallb (layerFits baseWidth baseHeight) images = true ->
  sharp_composite decode base images = ret (Composited base images).
Proof.
  intros Hbase Hall. unfold sharp_composite, compositeRefusal.
  rewrite (offsetRefusal_fits _ _ _ Hall), Hbase, (overlayRefusal_fits _ _ _ Hall).
  reflexivity.
Qed.

End SharpFacts.

(** *** The two loops of [composeCard] *)

(** On every layout a request can select, at every scale and with every
    glow, [composeCard] hands [resize] and [composite] whole pixels that
    fit the canvas. *)
Lemma catalogue_geometry_fits (options : ComposeCardOptions.t Double.t) :
  composeGeometryFits options = true.
Proof.
  destruct options as [bg art texts color mode variant preset texture blur glow scale crop].
  destruct variant as [[| | |] |];
    [ | | | | destruct mode as [[|] |] ];
    destruct scale as [[| | | |] |];
    destruct glow as [[| | |] |];
    vm_compute; reflexivity.
Qed.

Section ComposeFacts.

Variable decode : Buffer Double.t -> option (Z * Z).

(** One pass of the text loop on a box with room for text: no layer for a
    box without text, one glyph layer for a text that can be drawn. *)
Lemma textLayer_run (texts : list TextBoxConfig.t) (box : TextBoxRect.t Double.t) :
  boxTakesText box = true ->
  hasNoText texts box || drawable (textOfBox texts (TextBoxRect.id box)) = true ->
  exists layer,
    (forall w, textLayer texts box w = (Ok layer, w))
    /\ Forall (fun ov => isGlyphLayer ov = true) layer
    /\ List.length layer = (if hasNoText texts box then 0 else 1)%nat
    /\ forall baseWidth baseHeight,
         glyphFits baseWidth baseHeight box = true ->
         forallb (layerFits baseWidth baseHeight) layer = true.
Proof.
  intros Hroom Hdraw. unfold textLayer, hasNoText in *.
  destruct (isBlank (textOfBox texts (TextBoxRect.id box))).
  - exists []. split; [reflexivity |]. split; [constructor |].
    split; [reflexivity |]. intros; reflexivity.
  - cbn [orb] in Hdraw.
    destruct (calculateFontSize_sizes (textOfBox texts (TextBoxRect.id box))
                (TextBoxRect.id box) (TextBoxRect.width box) (TextBoxRect.height box))
      as (fs & -> & Hin).
    assert (Hge : xint_leb (XFin 1) (maxCharsPerLine (TextBoxRect.width box) fs) = true)
      by exact (proj1 (forallb_forall _ _) Hroom fs Hin).
    destruct (wrapText_returns (textOfBox texts (TextBoxRect.id box))
                (TextBoxRect.width box) fs Hge) as (lines & Hwrap).
    unfold createTextSvg. rewrite Hwrap.
    unfold sharp_rasterize, svgParses.
    rewrite (wrapText_lines_drawable _ _ _ Hwrap), Hdraw.
    eexists. split; [reflexivity |].
    split; [repeat constructor |]. split; [reflexivity |].
    intros baseWidth baseHeight Hfit. cbn [forallb]. rewrite andb_true_r. exact Hfit.
Qed.

(** A text that holds a code unit XML forbids stops the call. *)
Lemma textLayer_refused (texts : list TextBoxConfig.t) (box : TextBoxRect.t Double.t) :
  boxTakesText box = true ->
  hasNoText texts box || drawable (textOfBox texts (TextBoxRect.id box)) = false ->
  forall w, textLayer texts box w = (Throw InvalidMarkup, w).
Proof.
  intros Hroom Hdraw w. unfold textLayer, hasNoText in *.
  destruct (isBlank (textOfBox texts (TextBoxRect.id box))); [discriminate Hdraw |].
  cbn [orb] in Hdraw.
  destruct (calculateFontSize_sizes (textOfBox texts (TextBoxRect.id box))
              (TextBoxRect.id box) (TextBoxRect.width box) (TextBoxRect.height box))
    as (fs & -> & Hin).
  assert (Hge : xint_leb (XFin 1) (maxCharsPerLine (TextBoxRect.width box) fs) = true)
    by exact (proj1 (forallb_forall _ _) Hroom fs Hin).
  destruct (wrapText_returns (textOfBox texts (TextBoxRect.id box))
              (TextBoxRect.width box) fs Hge) as (lines & Hwrap).
  unfold createTextSvg. rewrite Hwrap.
  unfold sharp_rasterize, svgParses, bind.
  rewrite (wrapText_lines_drawable _ _ _ Hwrap), Hdraw. reflexivity.
Qed.

Lemma text_loop_run (texts : list TextBoxConfig.t)
  (boxes : list (TextBoxRect.t Double.t)) :
  forallb boxTakesText boxes = true ->
  textsDrawable texts boxes = true ->
  exists glyphs,
    (forall acc w,
        foldM (fun composites layoutBox =>
                 bind (textLayer texts layoutBox)
                      (fun layer => ret (composites ++ layer)))
              boxes acc w = (Ok (acc ++ glyphs), w))
    /\ Forall (fun ov => isGlyphLayer ov = true) glyphs
    /\ List.length glyphs
       = List.length (filter (fun box => negb (hasNoText texts box)) boxes)
    /\ forall baseWidth baseHeight,
         forallb (glyphFits baseWidth baseHeight) boxes = true ->
         forallb (layerFits baseWidth baseHeight) glyphs = true.
Proof.
  induction boxes as [| box rest IH]; intros Hroom Hdraw.
  - exists []. split; [| split; [constructor | split; [reflexivity |]]].
    + intros acc w. simpl. rewrite app_nil_r. reflexivity.
    + intros; reflexivity.
  - simpl in Hroom. apply andb_prop in Hroom as [Hbox Hrest].
    unfold textsDrawable in Hdraw. cbn [forallb] in Hdraw.
    apply andb_prop in Hdraw as [Hdbox Hdrest].
    destruct (textLayer_run texts box Hbox Hdbox)
      as (layer & Hlayer & Hglyph & Hlen & Hfit).
    destruct (IH Hrest Hdrest) as (glyphs & Hfold & Hglyphs & Hcount & Hfits).
    exists (layer ++ glyphs). split; [| split; [| split]].
    + intros acc w. cbn [foldM]. unfold bind at 1. unfold bind at 1.
      rewrite Hlayer. cbn [ret]. rewrite Hfold, app_assoc. reflexivity.
    + apply Forall_app. split; assumption.
    + rewrite length_app, Hlen, Hcount. cbn [filter].
      destruct (hasNoText texts box); reflexivity.
    + intros baseWidth baseHeight Hall. cbn [forallb] in Hall.
      apply andb_prop in Hall as [Hb Hr].
      rewrite forallb_app, (Hfit _ _ Hb), (Hfits _ _ Hr). reflexivity.
Qed.

Lemma text_loop_refused (texts : list TextBoxConfig.t)
  (boxes : list (TextBoxRect.t Double.t)) :
  forallb boxTakesText boxes = true ->
  textsDrawable texts boxes = false ->
  forall acc w,
    foldM (fun composites layoutBox =>
             bind (textLayer texts layoutBox)
                  (fun layer => ret (composites ++ layer)))
          boxes acc w = (Throw InvalidMarkup, w).
Proof.
  induction boxes as [| box rest IH]; intros Hroom Hdraw acc w; [discriminate Hdraw |].
  simpl in Hroom. apply andb_prop in Hroom as [Hbox Hrest].
  unfold textsDrawable in Hdraw. cbn [forallb] in Hdraw.
  cbn [foldM]. unfold bind at 1. unfold bind at 1.
  destruct (hasNoText texts box || drawable (textOfBox texts (TextBoxRect.id box)))
    eqn:Hdbox.
  - destruct (textLayer_run texts box Hbox Hdbox) as (layer & Hlayer & _).
    rewrite Hlayer. cbn [ret]. apply IH; assumption.
  - rewrite (textLayer_refused texts box Hbox Hdbox). reflexivity.
Qed.

Lemma renderTextContent_run (base : Buffer Double.t) (texts : list TextBoxConfig.t)
  (layout : LayoutConfig.t Double.t) (baseWidth baseHeight : Double.t) :
  forallb boxTakesText (getAllTextBoxes layout) = true ->
  textsDrawable texts (getAllTextBoxes layout) = true ->
  pixel_size decode base = Some (baseWidth, baseHeight) ->
  forallb (glyphFits baseWidth baseHeight) (getAllTextBoxes layout) = true ->
  exists glyphs,
    (forall w,
        renderTextContent decode base texts (Some layout) w
        = (Ok (match glyphs with [] => base | _ => Composited base glyphs end), w))
    /\ Forall (fun ov => isGlyphLayer ov = true) glyphs
    /\ List.length glyphs
       = List.length (filter (fun box => negb (hasNoText texts box))
                             (getAllTextBoxes layout)).
Proof.
  intros Hroom Hdraw Hbase Hfit.
  destruct (text_loop_run texts _ Hroom Hdraw)
    as (glyphs & Hfold & Hglyphs & Hcount & Hfits).
  exists glyphs. split; [| split; assumption].
  intros w. unfold renderTextContent. cbn [nullish]. unfold bind.
  rewrite Hfold. cbn [app].
  destruct glyphs as [| g glyphs']; [reflexivity |].
  rewrite (@sharp_composite_run _ _ decode base baseWidth baseHeight _ Hbase
             (Hfits _ _ Hfit)).
  reflexivity.
Qed.

Lemma renderTextContent_refused (base : Buffer Double.t) (texts : list TextBoxConfig.t)
  (layout : LayoutConfig.t Double.t) :
  forallb boxTakesText (getAllTextBoxes layout) = true ->
  textsDrawable texts (getAllTextBoxes layout) = false ->
  forall w,
    renderTextContent decode base texts (Some layout) w = (Throw InvalidMarkup, w).
Proof.
  intros Hroom Hdraw w. unfold renderTextContent. cbn [nullish]. unfold bind.
  rewrite (text_loop_refused texts _ Hroom Hdraw). reflexivity.
Qed.

Lemma bind_ret {A} (m : M Double.t A) (w : World.t Double.t) :
  bind m (fun a => ret a) w = m w.
Proof. unfold bind, ret. destruct (m w) as [[a | e |] w']; reflexivity. Qed.

(** With a decodable background and a decodable, non-empty artwork of
    non-zero size, the rendering reaches the text loop with the panels laid
    on the illustration. *)
Lemma composeCard_render_run (options : ComposeCardOptions.t Double.t) (aw ah : Z) :
  isEmptyBuffer (ComposeCardOptions.artworkBuffer options) = false ->
  decode (ComposeCardOptions.backgroundBuffer options) <> None ->
  decode (ComposeCardOptions.artworkBuffer options) = Some (aw, ah) ->
  aw <> 0%Z -> ah <> 0%Z ->
  forall w,
    composeCard_render decode options w
    = renderTextContent decode (panelStage options (illustrationStage options))
        (ComposeCardOptions.textBoxes options)
        (Some (composeCard_layout options)) w.
Proof.
  intros Hnonempty Hbg Hart Haw Hah w.
  pose proof (catalogue_geometry_fits options) as Hgeometry.
  unfold composeGeometryFits in Hgeometry. cbv zeta in Hgeometry.
  apply andb_prop in Hgeometry as [Hgeometry _].
  apply andb_prop in Hgeometry as [Hgeometry Hlayers].
  apply andb_prop in Hgeometry as [Hgeometry Hfh].
  apply andb_prop in Hgeometry as [Hgeometry Hfw].
  apply andb_prop in Hgeometry as [Hcw Hch].
  cbn [forallb] in Hlayers.
  apply andb_prop in Hlayers as [Hillustration Hlayers].
  apply andb_prop in Hlayers as [Hborder Hpanels].
  unfold composeCard_render, resizeAndCropArtwork, renderTextBoxBackgrounds,
    sharp_input, sharp_metadata.
  rewrite Hnonempty, Hart.
  destruct (decode (ComposeCardOptions.backgroundBuffer options)); [| congruence].
  rewrite (@sharp_resize_run _ _ _ _ _ _ _ Hcw Hch), (@sharp_resize_run _ _ _ _ _ _ _ Hfw Hfh).
  unfold bind at 1. cbn [ret]. unfold bind at 1. cbn [ret].
  unfold bind at 1. cbn [ret]. unfold bind at 1. cbn [ret fst snd].
  apply Z.eqb_neq in Haw, Hah. rewrite Haw, Hah. cbn [orb].
  unfold bind at 1. cbn [ret]. unfold bind at 1. unfold bind at 1. cbn [ret].
  assert (Hone : forall ov,
            layerFits (Canvas.width (LayoutConfig.canvas (composeCard_layout options)))
              (Canvas.height (LayoutConfig.canvas (composeCard_layout options))) ov
            = true ->
            forallb
              (layerFits (Canvas.width (LayoutConfig.canvas (composeCard_layout options)))
                 (Canvas.height (LayoutConfig.canvas (composeCard_layout options))))
              [ov] = true).
  { intros ov Hov. cbn [forallb]. rewrite Hov. reflexivity. }
  match goal with
  | |- context [sharp_composite decode ?b ?layers] =>
      change layers with [illustrationLayer options];
      rewrite (@sharp_composite_run _ _ decode b
                 (Canvas.width (LayoutConfig.canvas (composeCard_layout options)))
                 (Canvas.height (LayoutConfig.canvas (composeCard_layout options)))
                 [illustrationLayer options] eq_refl (Hone _ Hillustration))
  end.
  unfold bind at 1. cbn [ret].
  match goal with
  | |- context [sharp_composite decode ?b ?layers] =>
      change layers with [illustrationBorderLayer options];
      rewrite (@sharp_composite_run _ _ decode b
                 (Canvas.width (LayoutConfig.canvas (composeCard_layout options)))
                 (Canvas.height (LayoutConfig.canvas (composeCard_layout options)))
                 [illustrationBorderLayer options] eq_refl (Hone _ Hborder))
  end.
  unfold bind at 1. cbn [ret].
  match goal with
  | |- context [sharp_composite decode ?b ?layers] =>
      change layers with (layersOf (panelStage options (illustrationStage options)));
      rewrite (@sharp_composite_run _ _ decode b
                 (Canvas.width (LayoutConfig.canvas (composeCard_layout options)))
                 (Canvas.height (LayoutConfig.canvas (composeCard_layout options)))
                 (layersOf (panelStage options (illustrationStage options))) eq_refl Hpanels)
  end.
  unfold bind at 1. cbn [ret].
  rewrite bind_ret. reflexivity.
Qed.

Lemma panel_layers_nth (boxes : list (TextBoxRect.t Double.t)) :
  forall (start i : nat) (box : TextBoxRect.t Double.t)
         gradient texture blur glow,
    nth_error boxes i = Some box ->
    let layers :=
      flat_map (fun ib : nat * TextBoxRect.t Double.t =>
                  textBoxLayers gradient texture blur glow (fst ib) (snd ib))
               (combine (seq start (List.length boxes)) boxes) in
    nth_error layers (2 * i)
    = nth_error (textBoxLayers gradient texture blur glow (start + i) box) 0
    /\ nth_error layers (2 * i + 1)
       = nth_error (textBoxLayers gradient texture blur glow (start + i) box) 1.
Proof.
  induction boxes as [| b rest IH]; intros start i box gradient texture blur glow Hnth;
    [destruct i; discriminate |].
  cbn [List.length seq combine flat_map].
  destruct i as [| i].
  - injection Hnth as <-. rewrite Nat.add_0_r. split; reflexivity.
  - cbn [nth_error] in Hnth.
    destruct (IH (S start) i box gradient texture blur glow Hnth) as [H0 H1].
    replace (start + S i)%nat with (S start + i)%nat by lia.
    replace (2 * S i)%nat with (S (S (2 * i))) by lia.
    split; [exact H0 |].
    replace (S (S (2 * i)) + 1)%nat with (S (S (2 * i + 1))) by lia.
    exact H1.
Qed.

(** The layers of the panel loop: for the [i]-th box, its background and
    then its border. *)
Lemma panel_layers_of_box (options : ComposeCardOptions.t Double.t)
  (base : Buffer Double.t) (i : nat) (box : TextBoxRect.t Double.t) :
  nth_error (getAllTextBoxes (composeCard_layout options)) i = Some box ->
  exists background border,
    isBackgroundOf box background /\ isBorderOf options i box border
    /\ nth_error (layersOf (panelStage options base)) (2 * i) = Some background
    /\ nth_error (layersOf (panelStage options base)) (2 * i + 1) = Some border.
Proof.
  intros Hnth.
  unfold panelStage, textBoxComposites, layersOf, indexed. cbn [nullish].
  destruct (panel_layers_nth _ 0 i
              (getTextBoxColorGradient
                 (string_or (ComposeCardOptions.textBoxColorId options) "obsidian"))
              (getTextureConfig
                 (nullish (ComposeCardOptions.textureType options) DEFAULT_TEXTURE_TYPE))
              (getBlurConfig
                 (string_or (ComposeCardOptions.blurIntensity options)
                    DEFAULT_BLUR_INTENSITY))
              (composeCard_glowConfig options) Hnth) as [H0 H1].
  cbv zeta in H0, H1. cbn [Nat.add] in H0, H1.
  rewrite H0, H1. unfold textBoxLayers. cbn [nth_error].
  do 2 eexists. split; [| split; [| split; reflexivity]].
  - unfold isBackgroundOf. do 3 eexists. reflexivity.
  - unfold isBorderOf. reflexivity.
Qed.


(** C8.  Given images that decode and texts that [sharp] can draw, a text
    panel with no text entry, or an empty or blank one, does not fail the
    call: [composeCard] returns a card in which the panel loop has composited that panel's background and
    then its border at the panel's place in the loop, and in which the text
    loop, having skipped that panel, has composited one glyph layer for
    each panel that does have text. *)
Theorem panel_without_text_keeps_background_and_border :
  forall (options : ComposeCardOptions.t Double.t) (aw ah : Z)
         (w : World.t Double.t) (i : nat) (box : TextBoxRect.t Double.t),
    isEmptyBuffer (ComposeCardOptions.artworkBuffer options) = false ->
    decode (ComposeCardOptions.backgroundBuffer options) <> None ->
    decode (ComposeCardOptions.artworkBuffer options) = Some (aw, ah) ->
    aw <> 0%Z -> ah <> 0%Z ->
    nth_error (getAllTextBoxes (composeCard_layout options)) i = Some box ->
    hasNoText (ComposeCardOptions.textBoxes options) box = true ->
    textsDrawable (ComposeCardOptions.textBoxes options)
      (getAllTextBoxes (composeCard_layout options)) = true ->
    exists base glyphs background border,
      fst (composeCard decode options w)
      = Ok (match glyphs with
            | [] => panelStage options base
            | _ => Composited (panelStage options base) glyphs
            end)
      /\ isBackgroundOf box background
      /\ isBorderOf options i box border
      /\ nth_error (layersOf (panelStage options base)) (2 * i) = Some background
      /\ nth_error (layersOf (panelStage options base)) (2 * i + 1) = Some border
      /\ (forall w', textLayer (ComposeCardOptions.textBoxes options) box w'
                     = (Ok [], w'))
      /\ Forall (fun ov => isGlyphLayer ov = true) glyphs
      /\ List.length glyphs
         = List.length
             (filter (fun b => negb (hasNoText (ComposeCardOptions.textBoxes options) b))
                     (getAllTextBoxes (composeCard_layout options))).
Proof.
  intros options aw ah w i box Hnonempty Hbg Hart Haw Hah Hnth Hblank Hdraw.
  pose proof (composeCard_render_run options Hnonempty Hbg Hart Haw Hah) as Hrender.
  set (base := illustrationStage options) in *.
  pose proof (catalogue_geometry_fits options) as Hgeometry.
  unfold composeGeometryFits in Hgeometry. cbv zeta in Hgeometry.
  apply andb_prop in Hgeometry as [_ Hfit].
  destruct (@renderTextContent_run (panelStage options base)
              (ComposeCardOptions.textBoxes options) (composeCard_layout options)
              _ _ (catalogue_boxes_take_text options) Hdraw eq_refl Hfit)
    as (glyphs & Htext & Hglyphs & Hcount).
  destruct (panel_layers_of_box options base i Hnth)
    as (background & border & Hback & Hborder & H0 & H1).
  exists base, glyphs, background, border.
  split; [| repeat (split; [assumption |]); split; [| split; assumption]].
  - destruct (composeCardWith_run decode validateLayoutBorders options)
      as (o & Ho & Hrun).
    unfold composeCard. rewrite Hrun. cbn [fst].
    specialize (Ho w). rewrite Hrender, Htext in Ho. congruence.
  - intros w'. unfold textLayer. unfold hasNoText in Hblank. rewrite Hblank.
    reflexivity.
Qed.

End ComposeFacts.

(** The landscape card with a title only: the four content panels have no
    text entry; the first of them (second box of the loop) keeps its two
    panel layers. *)
Lemma panel_without_text_witness :
  let options : ComposeCardOptions.t Double.t :=
    ComposeCardOptions.mk (Raw [Byte.x01]) (Raw [Byte.x02])
      [TextBoxConfig.mk "title" (js_of_string "Hero")]
      (Some "obsidian"%string) None (Some landscape_square) (Some gold)
      (Some matte_paper) (Some "medium"%string) (Some glow_medium)
      (Some standard) None in
  let box : TextBoxRect.t Double.t := textBoxRect "content1" 480 190 227 244 in
  exists base glyphs background border,
    fst (composeCard decodeAll options emptyWorld)
    = Ok (match glyphs with
          | [] => panelStage options base
          | _ => Composited (panelStage options base) glyphs
          end)
    /\ isBackgroundOf box background
    /\ isBorderOf options 1 box border
    /\ nth_error (layersOf (panelStage options base)) 2 = Some background
    /\ nth_error (layersOf (panelStage options base)) 3 = Some border
    /\ List.length glyphs = 1%nat.
Proof.
  intros options box.
  assert (Hbg : decodeAll (ComposeCardOptions.backgroundBuffer options) <> None)
    by discriminate.
  assert (Haw : 720%Z <> 0%Z) by discriminate.
  assert (Hah : 1280%Z <> 0%Z) by discriminate.
  destruct (@panel_without_text_keeps_background_and_border decodeAll options
              720%Z 1280%Z emptyWorld 1%nat box
              eq_refl Hbg eq_refl Haw Hah eq_refl eq_refl eq_refl)
    as (base & glyphs & background & border & Hrun & Hback & Hborder & H0 & H1
        & _ & _ & Hcount).
  exists base, glyphs, background, border.
  repeat (split; [assumption |]).
  rewrite Hcount. reflexivity.
Defined.

(* ================================================================== *)
(** * Further properties *)
(* ================================================================== *)

(** ** Markup escaping *)

Lemma replaceAll_app (c : N) (by_ a b : jsstring) :
  replaceAll c by_ (a ++ b) = replaceAll c by_ a ++ replaceAll c by_ b.
Proof. unfold replaceAll. apply flat_map_app. Qed.

Lemma escapeXml_app (a b : jsstring) : escapeXml (a ++ b) = escapeXml a ++ escapeXml b.
Proof. unfold escapeXml. rewrite !replaceAll_app. reflexivity. Qed.

Lemma escapeXml_unit (c : N) : escapeXml [c] = escapeUnit c.
Proof.
  unfold escapeXml, escapeUnit.
  destruct (c =? 38)%N eqn:E38.
  { apply N.eqb_eq in E38. subst c. reflexivity. }
  destruct (c =? 60)%N eqn:E60.
  { apply N.eqb_eq in E60. subst c. reflexivity. }
  destruct (c =? 62)%N eqn:E62.
  { apply N.eqb_eq in E62. subst c. reflexivity. }
  destruct (c =? 34)%N eqn:E34.
  { apply N.eqb_eq in E34. subst c. reflexivity. }
  destruct (c =? 39)%N eqn:E39.
  { apply N.eqb_eq in E39. subst c. reflexivity. }
  unfold replaceAll. cbn [flat_map app].
  rewrite E38. cbn [flat_map app]. rewrite E60. cbn [flat_map app].
  rewrite E62. cbn [flat_map app]. rewrite E34. cbn [flat_map app].
  rewrite E39. reflexivity.
Qed.

(** X1.  The five replacements of [escapeXml], run one after the other,
    amount to replacing each code unit once: no entity written by an earlier
    pass is escaped again by a later one; and the result holds none of the
    code units [<], [>], double quote and apostrophe. *)
Theorem escapeXml_single_pass :
  forall text : jsstring,
    escapeXml text = flat_map escapeUnit text
    /\ forallb (fun c => negb (isMarkupDelimiter c)) (escapeXml text) = true.
Proof.
  assert (Hflat : forall text, escapeXml text = flat_map escapeUnit text).
  { induction text as [| c s IH]; [reflexivity |].
    change (c :: s) with ([c] ++ s).
    rewrite escapeXml_app, escapeXml_unit, IH. reflexivity. }
  intros text. split; [apply Hflat |].
  rewrite Hflat. induction text as [| c s IH]; [reflexivity |].
  cbn [flat_map]. rewrite forallb_app, IH, andb_true_r.
  unfold escapeUnit, isMarkupDelimiter.
  destruct (c =? 38)%N; [reflexivity |].
  destruct (c =? 60)%N eqn:E60; [reflexivity |].
  destruct (c =? 62)%N eqn:E62; [reflexivity |].
  destruct (c =? 34)%N eqn:E34; [reflexivity |].
  destruct (c =? 39)%N eqn:E39; [reflexivity |].
  cbn [forallb]. rewrite E60, E62, E34, E39. reflexivity.
Qed.


(** ** Wrapping keeps the text and agrees with the line count *)

Section WrapCounts.

Context {num : Type} `{JsNumber num}.

(** X2.  Wrapping loses and adds nothing: whenever [wrapText] returns, the
    lines joined together are the text without its line feeds, in order. *)
Theorem wrapText_keeps_every_code_unit :
  forall (text : jsstring) (maxWidth fontSize : num) (lines : list jsstring),
    wrapText text maxWidth fontSize = Some lines ->
    List.concat lines = withoutLineFeeds text.
Proof.
  intros text maxWidth fontSize lines Hrun.
  unfold wrapText, wrapText_fuel in Hrun.
  apply wrapText_paragraphs_content in Hrun.
  rewrite Hrun. simpl. apply concat_split_lines.
Qed.

Lemma ceil_quotient_one (l z : Z) : (0 < l <= z)%Z -> (- (- l / z) = 1)%Z.
Proof.
  intros Hl.
  assert (Hq : (- l / z = -1)%Z).
  { symmetry. apply (Z.div_unique_pos (- l) z (-1) (z - l)); lia. }
  lia.
Qed.

Lemma ceil_quotient_step (l z : Z) :
  (0 < z)%Z -> (- (- l / z) = 1 + - (- (l - z) / z))%Z.
Proof.
  intros Hz.
  replace (- (l - z))%Z with (- l + 1 * z)%Z by lia.
  rewrite Z.div_add by lia. lia.
Qed.

Lemma wrapText_loop_count (z : Z) (fuel : nat) :
  (1 <= z)%Z ->
  forall (remaining : jsstring) (lines result : list jsstring),
    wrapText_loop fuel (XFin z) remaining lines = Some result ->
    Z.of_nat (List.length result)
    = (Z.of_nat (List.length lines) + - (- Z.of_nat (List.length remaining) / z))%Z.
Proof.
  intros Hz.
  induction fuel as [| fuel IH]; intros remaining lines result Hrun; [discriminate |].
  cbn [wrapText_loop] in Hrun.
  destruct (0 <? List.length remaining)%nat eqn:Hlen.
  - apply Nat.ltb_lt in Hlen.
    cbn [xint_leb] in Hrun.
    destruct (Z.of_nat (List.length remaining) <=? z)%Z eqn:Hfit.
    + apply Z.leb_le in Hfit. injection Hrun as <-.
      rewrite length_app, ceil_quotient_one by lia. simpl. lia.
    + apply Z.leb_gt in Hfit. apply IH in Hrun.
      rewrite Hrun, length_app, substring_tail, length_skipn.
      rewrite (@ceil_quotient_step (Z.of_nat (List.length remaining)) z) by lia.
      cbn [to_index List.length].
      replace (Z.of_nat (List.length remaining
                         - Nat.min (Z.to_nat z) (List.length remaining)))
        with (Z.of_nat (List.length remaining) - z)%Z by lia.
      lia.
  - apply Nat.ltb_ge in Hlen. injection Hrun as <-.
    replace (List.length remaining) with 0%nat by lia.
    change (- Z.of_nat 0)%Z with 0%Z. rewrite Z.div_0_l by lia. lia.
Qed.

Lemma wrapText_paragraphs_count (z : Z) (fuel : nat) :
  (1 <= z)%Z ->
  forall (paragraphs lines result : list jsstring) (total : Z),
    wrapText_paragraphs fuel (XFin z) paragraphs lines = Some result ->
    fold_left (fun totalLines paragraph =>
        if (List.length paragraph =? 0)%nat then xint_add totalLines (XFin 1)
        else xint_add totalLines (ceil_div (List.length paragraph) (XFin z)))
      paragraphs (XFin total)
    = XFin (total + (Z.of_nat (List.length result) - Z.of_nat (List.length lines))).
Proof.
  intros Hz.
  assert (Hz0 : (z =? 0)%Z = false) by (apply Z.eqb_neq; lia).
  induction paragraphs as [| p rest IH]; intros lines result total Hrun;
    cbn [wrapText_paragraphs] in Hrun; cbn [fold_left].
  - injection Hrun as <-. f_equal. lia.
  - cbn [xint_leb] in Hrun.
    destruct (Z.of_nat (List.length p) <=? z)%Z eqn:Hfit.
    + apply Z.leb_le in Hfit.
      assert (Hstep :
        (if (List.length p =? 0)%nat then xint_add (XFin total) (XFin 1)
         else xint_add (XFin total) (ceil_div (List.length p) (XFin z)))
        = XFin (total + 1)).
      { destruct (List.length p =? 0)%nat eqn:Hp; [reflexivity |].
        apply Nat.eqb_neq in Hp.
        cbn [ceil_div]. rewrite Hz0. cbn [xint_add].
        rewrite ceil_quotient_one by lia. reflexivity. }
      rewrite Hstep, (IH _ _ _ Hrun), length_app. simpl. f_equal. lia.
    + apply Z.leb_gt in Hfit.
      destruct (wrapText_loop fuel (XFin z) p lines) as [lines' |] eqn:Hloop;
        [| discriminate].
      apply (@wrapText_loop_count z fuel Hz) in Hloop.
      assert (Hstep :
        (if (List.length p =? 0)%nat then xint_add (XFin total) (XFin 1)
         else xint_add (XFin total) (ceil_div (List.length p) (XFin z)))
        = XFin (total + - (- Z.of_nat (List.length p) / z))).
      { destruct (List.length p =? 0)%nat eqn:Hp;
          [apply Nat.eqb_eq in Hp; lia |].
        cbn [ceil_div]. rewrite Hz0. reflexivity. }
      rewrite Hstep, (IH _ _ _ Hrun). f_equal. lia.
Qed.

(** X3.  When a line takes a finite number of characters, one at least,
    [wrapText] returns and [calculateTextLines] is the number of lines it
    returns: the font size is chosen for the lines that are drawn. *)
Theorem calculateTextLines_counts_wrapped_lines :
  forall (text : jsstring) (maxWidth fontSize : num) (z : Z),
    maxCharsPerLine maxWidth fontSize = XFin z ->
    (1 <= z)%Z ->
    exists lines,
      wrapText text maxWidth fontSize = Some lines
      /\ calculateTextLines text maxWidth fontSize
         = XFin (Z.of_nat (List.length lines)).
Proof.
  intros text maxWidth fontSize z Hmax Hz.
  unfold wrapText, wrapText_fuel, calculateTextLines. rewrite Hmax.
  destruct (@wrapText_paragraphs_total (XFin z) (S (List.length text)))
    with (paragraphs := split_lines text) (lines := @nil jsstring)
    as (lines & Hrun & _).
  - cbn [xint_leb]. apply Z.leb_le. exact Hz.
  - eapply Forall_impl; [| apply split_lines_length]. simpl. intros; lia.
  - constructor.
  - exists lines. split; [exact Hrun |].
    rewrite (@wrapText_paragraphs_count z _ Hz _ _ _ 0%Z Hrun). simpl. f_equal. lia.
Qed.

End WrapCounts.

Lemma wrapText_keeps_every_code_unit_witness :
  let text := js_of_string "hello world" in
  let lines := map js_of_string ["hel"; "lo "; "wor"; "ld"]%string in
  wrapText text (of_Z 100 : Double.t) (of_Z 24) = Some lines
  /\ List.concat lines = withoutLineFeeds text.
Proof.
  intros text lines.
  assert (Hrun : wrapText text (of_Z 100 : Double.t) (of_Z 24) = Some lines)
    by (vm_compute; reflexivity).
  split; [exact Hrun |].
  exact (wrapText_keeps_every_code_unit text (of_Z 100 : Double.t) (of_Z 24) Hrun).
Defined.

Lemma calculateTextLines_counts_wrapped_lines_witness :
  let text := js_of_string "hello world" in
  maxCharsPerLine (of_Z 100 : Double.t) (of_Z 24) = XFin 3
  /\ (exists lines,
        wrapText text (of_Z 100 : Double.t) (of_Z 24) = Some lines
        /\ calculateTextLines text (of_Z 100 : Double.t) (of_Z 24)
           = XFin (Z.of_nat (List.length lines))).
Proof.
  intros text.
  assert (Hmax : maxCharsPerLine (of_Z 100 : Double.t) (of_Z 24) = XFin 3)
    by (vm_compute; reflexivity).
  split; [exact Hmax |].
  refine (calculateTextLines_counts_wrapped_lines text (of_Z 100 : Double.t)
            (of_Z 24) Hmax _).
  lia.
Defined.

(** ** The font size chosen for a panel *)

Lemma calculateFontSize_loop_first_fit (sizes : list Double.t) :
  shrinkChain sizes = true ->
  forall (fuel : nat) (text : jsstring) (lineHeight boxWidth boxHeight : Double.t),
    (List.length sizes <= fuel)%nat ->
    exists before fontSize after,
      sizes = before ++ fontSize :: after
      /\ calculateFontSize_loop fuel text lineHeight boxWidth boxHeight
           (hd MIN_FONT_SIZE sizes) = Some fontSize
      /\ Forall (fun s => textFits text lineHeight boxWidth boxHeight s = false) before
      /\ (textFits text lineHeight boxWidth boxHeight fontSize = true \/ after = []).
Proof.
  induction sizes as [| a rest IH]; [discriminate |].
  intros Hchain fuel text lineHeight boxWidth boxHeight Hfuel.
  destruct fuel as [| fuel]; [simpl in Hfuel; lia |].
  cbn [hd calculateFontSize_loop].
  destruct rest as [| b rest'].
  - cbn [shrinkChain] in Hchain. apply negb_true_iff in Hchain.
    rewrite Hchain. exists [], a, [].
    split; [reflexivity |]. split; [reflexivity |].
    split; [constructor | right; reflexivity].
  - cbn [shrinkChain] in Hchain.
    apply andb_prop in Hchain as [Hchain Hrest].
    apply andb_prop in Hchain as [Hgt Hnext].
    apply spec_float_eqb_eq in Hnext.
    rewrite Hgt.
    change (leb (mul (mul (of_xint (calculateTextLines text boxWidth a)) a) lineHeight)
                (sub boxHeight (of_Z 20)))
      with (textFits text lineHeight boxWidth boxHeight a).
    destruct (textFits text lineHeight boxWidth boxHeight a) eqn:Hfit.
    + exists [], a, (b :: rest').
      split; [reflexivity |]. split; [reflexivity |].
      split; [constructor | left; exact Hfit].
    + rewrite Hnext.
      destruct (IH Hrest fuel text lineHeight boxWidth boxHeight)
        as (before & fs & after & Hsplit & Hfs & Hbefore & Hlast).
      { simpl in Hfuel |- *. lia. }
      exists (a :: before), fs, after.
      split; [rewrite Hsplit; reflexivity |].
      split; [exact Hfs |].
      split; [constructor; [exact Hfit | exact Hbefore] | exact Hlast].
Qed.

(** X4.  [calculateFontSize] returns the first size, going down by 2 from
    48 (title) or 36 (content), at which the counted lines are no higher
    than the box less 20px; when no size fits it returns the floor of 24,
    the last of the run.  It always returns. *)
Theorem calculateFontSize_first_fit :
  forall (text : jsstring) (boxId : string) (boxWidth boxHeight : Double.t),
    exists before fontSize after,
      fontSizesOf boxId = before ++ fontSize :: after
      /\ calculateFontSize text boxId boxWidth boxHeight = Some fontSize
      /\ Forall (fun s => textFits text (lineHeightOf boxId) boxWidth boxHeight s = false)
           before
      /\ (textFits text (lineHeightOf boxId) boxWidth boxHeight fontSize = true
          \/ after = []).
Proof.
  intros text boxId boxWidth boxHeight.
  assert (Hfloor : forall fs, In fs FONT_SIZES -> Math_max fs MIN_FONT_SIZE = fs).
  { assert (Hall : forallb atLeastFloor FONT_SIZES = true) by (vm_compute; reflexivity).
    intros fs Hin. apply spec_float_eqb_eq.
    exact (proj1 (forallb_forall _ _) Hall fs Hin). }
  unfold calculateFontSize, getFontSizeForBox, fontSizesOf, lineHeightOf.
  destruct (String.eqb boxId "title").
  - destruct (@calculateFontSize_loop_first_fit FONT_SIZES eq_refl FONT_SIZE_FUEL text
                TITLE_LINE_HEIGHT boxWidth boxHeight)
      as (before & fs & after & Hsplit & Hfs & Hbefore & Hlast).
    { vm_compute. lia. }
    change (hd MIN_FONT_SIZE FONT_SIZES) with (TITLE_FONT_SIZE (num := Double.t)) in Hfs.
    rewrite Hfs. exists before, fs, after.
    rewrite (Hfloor fs)
      by (rewrite Hsplit; apply in_or_app; right; left; reflexivity).
    split; [exact Hsplit |]. split; [reflexivity |].
    split; [exact Hbefore | exact Hlast].
  - destruct (@calculateFontSize_loop_first_fit (skipn 6 FONT_SIZES) eq_refl
                FONT_SIZE_FUEL text CONTENT_LINE_HEIGHT boxWidth boxHeight)
      as (before & fs & after & Hsplit & Hfs & Hbefore & Hlast).
    { vm_compute. lia. }
    change (hd MIN_FONT_SIZE (skipn 6 FONT_SIZES))
      with (CONTENT_FONT_SIZE (num := Double.t)) in Hfs.
    rewrite Hfs. exists before, fs, after.
    rewrite (Hfloor fs).
    2:{ rewrite <- (firstn_skipn 6 FONT_SIZES). apply in_or_app. right.
        rewrite Hsplit. apply in_or_app. right. left. reflexivity. }
    split; [exact Hsplit |]. split; [reflexivity |].
    split; [exact Hbefore | exact Hlast].
Qed.

(** ** What [composeCard] returns *)

Section ComposeOutcome.

Variable decode : Buffer Double.t -> option (Z * Z).

Lemma composeRefusal_cases (options : ComposeCardOptions.t Double.t) :
  match composeRefusal decode options with
  | Some InvalidMarkup =>
      (exists aw ah,
          isEmptyBuffer (ComposeCardOptions.artworkBuffer options) = false
          /\ decode (ComposeCardOptions.backgroundBuffer options) <> None
          /\ decode (ComposeCardOptions.artworkBuffer options) = Some (aw, ah)
          /\ aw <> 0%Z /\ ah <> 0%Z)
      /\ textsDrawable (ComposeCardOptions.textBoxes options)
           (getAllTextBoxes (composeCard_layout options)) = false
  | Some e => forall w, composeCard_render decode options w = (Throw e, w)
  | None =>
      (exists aw ah,
          isEmptyBuffer (ComposeCardOptions.artworkBuffer options) = false
          /\ decode (ComposeCardOptions.backgroundBuffer options) <> None
          /\ decode (ComposeCardOptions.artworkBuffer options) = Some (aw, ah)
          /\ aw <> 0%Z /\ ah <> 0%Z)
      /\ textsDrawable (ComposeCardOptions.textBoxes options)
           (getAllTextBoxes (composeCard_layout options)) = true
  end.
Proof.
  pose proof (catalogue_geometry_fits options) as Hgeometry.
  unfold composeGeometryFits in Hgeometry. cbv zeta in Hgeometry.
  apply andb_prop in Hgeometry as [Hgeometry _].
  apply andb_prop in Hgeometry as [Hgeometry _].
  apply andb_prop in Hgeometry as [Hgeometry _].
  apply andb_prop in Hgeometry as [Hgeometry _].
  apply andb_prop in Hgeometry as [Hcw Hch].
  unfold composeRefusal, composeCard_render, resizeAndCropArtwork, sharp_input,
    sharp_metadata.
  rewrite (@sharp_resize_run _ _ _ _ _ _ _ Hcw Hch).
  destruct (isEmptyBuffer (ComposeCardOptions.artworkBuffer options)); [reflexivity |].
  destruct (decode (ComposeCardOptions.backgroundBuffer options)) as [size |];
    [| reflexivity].
  destruct (decode (ComposeCardOptions.artworkBuffer options)) as [[aw ah] |];
    [| reflexivity].
  destruct ((aw =? 0)%Z || (ah =? 0)%Z) eqn:Hzero.
  { intros w. do 4 (unfold bind at 1; cbn [ret fst snd]).
    unfold bind at 1. rewrite Hzero. reflexivity. }
  apply orb_false_elim in Hzero as [Haw Hah]. apply Z.eqb_neq in Haw, Hah.
  destruct (textsDrawable (ComposeCardOptions.textBoxes options)
              (getAllTextBoxes (composeCard_layout options)));
    (split; [exists aw, ah; repeat split; (assumption || discriminate) | reflexivity]).
Qed.

Lemma composeCard_render_refused (options : ComposeCardOptions.t Double.t) (e : Error) :
  composeRefusal decode options = Some e ->
  forall w, composeCard_render decode options w = (Throw e, w).
Proof.
  intros Hrefusal w. pose proof (composeRefusal_cases options) as Hcases.
  rewrite Hrefusal in Hcases.
  assert (Htext : e = InvalidMarkup ->
                  composeCard_render decode options w = (Throw InvalidMarkup, w)).
  { intros ->. destruct Hcases as [(aw & ah & Hnonempty & Hbg & Hart & Haw & Hah) Hdraw].
    rewrite (@composeCard_render_run decode options aw ah Hnonempty Hbg Hart Haw Hah).
    apply renderTextContent_refused; [apply catalogue_boxes_take_text | exact Hdraw]. }
  destruct e; first [ apply Hcases | apply Htext; reflexivity ].
Qed.

Lemma composeCard_render_accepted (options : ComposeCardOptions.t Double.t) :
  composeRefusal decode options = None ->
  textsDrawable (ComposeCardOptions.textBoxes options)
    (getAllTextBoxes (composeCard_layout options)) = true
  /\ forall w,
      composeCard_render decode options w
      = renderTextContent decode (panelStage options (illustrationStage options))
          (ComposeCardOptions.textBoxes options)
          (Some (composeCard_layout options)) w.
Proof.
  intros Hrefusal. pose proof (composeRefusal_cases options) as Hcases.
  rewrite Hrefusal in Hcases.
  destruct Hcases as [(aw & ah & Hnonempty & Hbg & Hart & Haw & Hah) Hdraw].
  split; [exact Hdraw |].
  exact (@composeCard_render_run decode options aw ah Hnonempty Hbg Hart Haw Hah).
Qed.

(** The card of an accepted request: the panels on the illustration stage,
    then one glyph layer for each panel with text. *)
Lemma composeCard_accepted (options : ComposeCardOptions.t Double.t) :
  composeRefusal decode options = None ->
  exists glyphs,
    (forall w,
        fst (composeCard decode options w)
        = Ok (match glyphs with
              | [] => panelStage options (illustrationStage options)
              | _ => Composited (panelStage options (illustrationStage options)) glyphs
              end))
    /\ Forall (fun ov => isGlyphLayer ov = true) glyphs
    /\ List.length glyphs
       = List.length
           (filter (fun b => negb (hasNoText (ComposeCardOptions.textBoxes options) b))
                   (getAllTextBoxes (composeCard_layout options))).
Proof.
  intros Haccepted.
  destruct (composeCard_render_accepted options Haccepted) as [Hdraw Hrender].
  pose proof (catalogue_geometry_fits options) as Hgeometry.
  unfold composeGeometryFits in Hgeometry. cbv zeta in Hgeometry.
  apply andb_prop in Hgeometry as [_ Hfit].
  destruct (@renderTextContent_run decode
              (panelStage options (illustrationStage options))
              (ComposeCardOptions.textBoxes options) (composeCard_layout options)
              _ _ (catalogue_boxes_take_text options) Hdraw eq_refl Hfit)
    as (glyphs & Htext & Hglyphs & Hcount).
  exists glyphs. split; [| split; assumption].
  intros w.
  destruct (composeCardWith_run decode validateLayoutBorders options) as (o & Ho & Hrun).
  unfold composeCard. rewrite Hrun. cbn [fst].
  specialize (Ho w).
  rewrite Hrender, Htext in Ho. congruence.
Qed.

Lemma composeCard_refused (options : ComposeCardOptions.t Double.t) (e : Error) :
  composeRefusal decode options = Some e ->
  forall w, fst (composeCard decode options w) = Throw e.
Proof.
  intros Hrefused w.
  destruct (composeCardWith_run decode validateLayoutBorders options) as (o & Ho & Hrun).
  unfold composeCard. rewrite Hrun. cbn [fst].
  specialize (Ho w). rewrite (composeCard_render_refused options Hrefused) in Ho.
  congruence.
Qed.

(** X5.  [composeCard] fails on its images or on a text, and in a fixed
    order: an empty illustration, then a background the decoder rejects,
    then an illustration it rejects, then an illustration without a width
    or a height, then a text that holds a code unit XML forbids, which the
    rasteriser refuses to parse.  Every other request yields a card,
    whatever its ids, layout, scale and glow: the sizes and places handed to
    [resize] and [composite] are whole pixels inside the canvas, and no
    text makes the wrapping or the font loop run on. *)
Theorem composeCard_fails_on_images_or_text :
  forall (options : ComposeCardOptions.t Double.t) (w : World.t Double.t),
    match composeRefusal decode options with
    | Some e => fst (composeCard decode options w) = Throw e
    | None => exists card, fst (composeCard decode options w) = Ok card
    end.
Proof.
  intros options w.
  destruct (composeRefusal decode options) as [e |] eqn:Hrefusal.
  - exact (composeCard_refused options Hrefusal w).
  - destruct (composeCard_accepted options Hrefusal) as (glyphs & Hrun & _).
    eexists. apply Hrun.
Qed.

Lemma composeCard_canvas (options : ComposeCardOptions.t Double.t) :
  LayoutConfig.canvas (composeCard_layout options)
  = Canvas.mk (fst (canvasOf (orientationOf options)))
              (snd (canvasOf (orientationOf options))).
Proof.
  unfold composeCard_layout, orientationOf.
  destruct (ComposeCardOptions.layoutVariant options) as [[| | |] |];
    destruct (ComposeCardOptions.layoutMode options) as [[|] |];
    destruct (ComposeCardOptions.scalePreset options) as [[| | | |] |];
    vm_compute; reflexivity.
Qed.

Lemma panel_layers_count (boxes : list (TextBoxRect.t Double.t)) :
  forall (start : nat) gradient texture blur glow,
    let layers :=
      flat_map (fun ib : nat * TextBoxRect.t Double.t =>
                  textBoxLayers gradient texture blur glow (fst ib) (snd ib))
               (combine (seq start (List.length boxes)) boxes) in
    List.length layers = (2 * List.length boxes)%nat
    /\ Forall (fun ov => isGlyphLayer ov = false) layers.
Proof.
  induction boxes as [| box rest IH]; intros start gradient texture blur glow.
  - split; [reflexivity | constructor].
  - cbn [List.length seq combine flat_map].
    destruct (IH (S start) gradient texture blur glow) as [Hlen Hall].
    split.
    + rewrite length_app, Hlen. cbn [textBoxLayers List.length fst snd]. lia.
    + apply Forall_app. split; [| exact Hall].
      unfold textBoxLayers, renderDoubleLineTextBoxBorder.
      constructor; [reflexivity |]. constructor; [reflexivity | constructor].
Qed.

Lemma panelStage_stack (options : ComposeCardOptions.t Double.t) (base : Buffer Double.t) :
  bottomOf (panelStage options base) = bottomOf base
  /\ raster_size (panelStage options base) = raster_size base
  /\ exists panels,
       compositeStack (panelStage options base) = compositeStack base ++ panels
       /\ List.length panels
          = (2 * List.length (getAllTextBoxes (composeCard_layout options)))%nat
       /\ Forall (fun ov => isGlyphLayer ov = false) panels.
Proof.
  unfold panelStage, textBoxComposites.
  cbn [nullish bottomOf raster_size compositeStack].
  split; [reflexivity |]. split; [reflexivity |].
  eexists. split; [reflexivity |].
  unfold indexed. apply panel_layers_count.
Qed.

(** X6.  A composed card has the size of the canvas of its orientation,
    1024x768 or 768x1024, at every scale; it is the background resized to
    that canvas, then the illustration resized to its frame and laid at the
    frame's corner, then the border of the illustration, then two layers for
    each panel, then the glyph layers, in this order from the bottom. *)
Theorem composed_card_stack :
  forall (options : ComposeCardOptions.t Double.t) (w : World.t Double.t)
         (card : Buffer Double.t),
    fst (composeCard decode options w) = Ok card ->
    raster_size card = Some (canvasOf (orientationOf options))
    /\ bottomOf card
       = Resized (ComposeCardOptions.backgroundBuffer options)
           (fst (canvasOf (orientationOf options)))
           (snd (canvasOf (orientationOf options))) fit_cover "center"
    /\ exists panels glyphs,
         compositeStack card
         = illustrationLayer options :: illustrationBorderLayer options
           :: panels ++ glyphs
         /\ List.length panels
            = (2 * List.length (getAllTextBoxes (composeCard_layout options)))%nat
         /\ Forall (fun ov => isGlyphLayer ov = false) panels
         /\ Forall (fun ov => isGlyphLayer ov = true) glyphs
         /\ List.length glyphs
            = List.length
                (filter (fun b => negb (hasNoText (ComposeCardOptions.textBoxes options) b))
                        (getAllTextBoxes (composeCard_layout options))).
Proof.
  intros options w card Hcard.
  destruct (composeRefusal decode options) as [e |] eqn:Hrefusal.
  { rewrite (composeCard_refused options Hrefusal w) in Hcard. discriminate Hcard. }
  destruct (composeCard_accepted options Hrefusal) as (glyphs & Hrun & Hglyphs & Hcount).
  rewrite Hrun in Hcard. injection Hcard as <-.
  destruct (panelStage_stack options (illustrationStage options))
    as (Hbottom & Hsize & panels & Hstack & Hlen & Hpanels).
  assert (Hbase : raster_size (illustrationStage options)
                  = Some (canvasOf (orientationOf options))).
  { unfold illustrationStage. cbn [raster_size]. rewrite composeCard_canvas.
    cbn [Canvas.width Canvas.height].
    destruct (canvasOf (orientationOf options)); reflexivity. }
  assert (Hbot : bottomOf (illustrationStage options)
                 = Resized (ComposeCardOptions.backgroundBuffer options)
                     (fst (canvasOf (orientationOf options)))
                     (snd (canvasOf (orientationOf options))) fit_cover "center").
  { unfold illustrationStage. cbn [bottomOf]. rewrite composeCard_canvas. reflexivity. }
  assert (Hstk : compositeStack (illustrationStage options)
                 = [illustrationLayer options; illustrationBorderLayer options])
    by reflexivity.
  destruct glyphs as [| g glyphs'].
  - split; [rewrite Hsize; exact Hbase |].
    split; [rewrite Hbottom; exact Hbot |].
    exists panels, []. rewrite Hstack, Hstk, app_nil_r.
    split; [reflexivity |]. split; [exact Hlen |].
    split; [exact Hpanels |]. split; [exact Hglyphs | exact Hcount].
  - cbn [raster_size bottomOf compositeStack].
    split; [rewrite Hsize; exact Hbase |].
    split; [rewrite Hbottom; exact Hbot |].
    exists panels, (g :: glyphs'). rewrite Hstack, Hstk.
    split; [reflexivity |]. split; [exact Hlen |].
    split; [exact Hpanels |]. split; [exact Hglyphs | exact Hcount].
Qed.

End ComposeOutcome.

Lemma composed_card_stack_witness :
  exists card,
    fst (composeCard decodeAll crowdedOptions emptyWorld) = Ok card
    /\ raster_size card = Some (of_Z 1024, of_Z 768).
Proof.
  assert (Hok : is_ok (fst (composeCard decodeAll crowdedOptions emptyWorld)) = true)
    by (vm_compute; reflexivity).
  destruct (fst (composeCard decodeAll crowdedOptions emptyWorld))
    as [card | e |] eqn:Hcard; [| discriminate Hok | discriminate Hok].
  exists card. split; [reflexivity |].
  exact (proj1 (@composed_card_stack decodeAll crowdedOptions emptyWorld card Hcard)).
Defined.

(** ** The catalogue and its borders *)

(** X7.  On every layout a request can select (variant or mode, scale) and
    with every glow, the footprint of each border lies inside the canvas:
    the validation never reports a border outside it, and the
    [Math.max(0, x)] applied when a border layer is placed changes nothing,
    so that each border stands one footprint up and left of its rect. *)
Theorem catalogue_borders_stay_inside_canvas :
  forall options : ComposeCardOptions.t Double.t,
    bordersInsideCanvas (composeCard_glowConfig options) (composeCard_layout options)
    = true
    /\ bordersUnclamped (composeCard_glowConfig options) (composeCard_layout options)
       = true.
Proof.
  intros options. unfold composeCard_layout, composeCard_glowConfig.
  destruct (ComposeCardOptions.layoutVariant options) as [[| | |] |];
    [ | | | | destruct (ComposeCardOptions.layoutMode options) as [[|] |] ];
    destruct (ComposeCardOptions.scalePreset options) as [[| | | |] |];
    destruct (ComposeCardOptions.glowIntensity options) as [[| | |] |];
    (split; vm_compute; reflexivity).
Qed.

(** X8.  The border validation of [composeCard] fails exactly at the mini
    scale with the default, medium or strong glow and at the slim scale with
    the strong glow, on every layout; the call then writes one warning, and
    none otherwise. *)
Theorem validation_warns_when_crowded :
  forall (decode : Buffer Double.t -> option (Z * Z))
         (options : ComposeCardOptions.t Double.t) (w : World.t Double.t),
    let tooClose :=
      crowded (ComposeCardOptions.scalePreset options)
              (ComposeCardOptions.glowIntensity options) in
    LayoutValidation.valid
      (validateLayoutBorders (composeCard_layout options) (composeCard_glowConfig options))
    = negb tooClose
    /\ List.length (World.warnings (snd (composeCard decode options w)))
       = (List.length (World.warnings w) + (if tooClose then 1 else 0))%nat.
Proof.
  intros decode options w tooClose.
  assert (Hvalid :
    LayoutValidation.valid
      (validateLayoutBorders (composeCard_layout options) (composeCard_glowConfig options))
    = negb tooClose).
  { subst tooClose. unfold composeCard_layout, composeCard_glowConfig.
    destruct (ComposeCardOptions.layoutVariant options) as [[| | |] |];
      [ | | | | destruct (ComposeCardOptions.layoutMode options) as [[|] |] ];
      destruct (ComposeCardOptions.scalePreset options) as [[| | | |] |];
      destruct (ComposeCardOptions.glowIntensity options) as [[| | |] |];
      vm_compute; reflexivity. }
  split; [exact Hvalid |].
  destruct (composeCardWith_run decode validateLayoutBorders options) as (o & _ & Hrun).
  unfold composeCard. rewrite Hrun. cbn [snd]. unfold warned. rewrite Hvalid.
  destruct tooClose; cbn [negb World.warnings].
  - rewrite length_app. reflexivity.
  - lia.
Qed.

(** ** Geometry on exact rationals *)

Section ExactGeometry.

Local Open Scope Q_scope.

Lemma round_within_half (a : Q) :
  a - (1 # 2) < Math_round a /\ Math_round a <= a + (1 # 2).
Proof.
  unfold Math_round. cbn [round_x of_xint exact_number Exact.of_xint].
  pose proof (Qfloor_le (a + (1 # 2))) as Hle.
  pose proof (Qlt_floor (a + (1 # 2))) as Hlt.
  rewrite inject_Z_plus in Hlt. change (inject_Z 1) with 1 in Hlt.
  split; lra.
Qed.

(** X9.  [scaleRect] scales about the given centre up to the rounding to
    pixels: width and height are within half a pixel of the rect's times
    the factor, and the centre of the result is within three quarters of a
    pixel of the centre moved along its offset from the given centre times
    the factor. *)
Theorem scaleRect_scales_about_the_centre :
  forall (rect : FrameRect.t Q) (scaleFactor centerX centerY : Q),
    let scaled := scaleRect rect scaleFactor centerX centerY in
    let middleX := FrameRect.x rect + FrameRect.width rect / 2 in
    let middleY := FrameRect.y rect + FrameRect.height rect / 2 in
    Qabs (FrameRect.width scaled - FrameRect.width rect * scaleFactor) <= 1 # 2
    /\ Qabs (FrameRect.height scaled - FrameRect.height rect * scaleFactor) <= 1 # 2
    /\ Qabs (FrameRect.x scaled + FrameRect.width scaled / 2
             - (centerX + (middleX - centerX) * scaleFactor)) <= 3 # 4
    /\ Qabs (FrameRect.y scaled + FrameRect.height scaled / 2
             - (centerY + (middleY - centerY) * scaleFactor)) <= 3 # 4.
Proof.
  intros rect f cx cy. cbv zeta. unfold scaleRect.
  cbn [FrameRect.x FrameRect.y FrameRect.width FrameRect.height].
  cbn [add sub mul div of_Z exact_number].
  change (inject_Z 2) with 2.
  destruct rect as [x y w h].
  cbn [FrameRect.x FrameRect.y FrameRect.width FrameRect.height].
  pose proof (round_within_half (w * f)) as Hw.
  pose proof (round_within_half (h * f)) as Hh.
  pose proof (round_within_half (cx + (x + w / 2 - cx) * f - w * f / 2)) as Hx.
  pose proof (round_within_half (cy + (y + h / 2 - cy) * f - h * f / 2)) as Hy.
  unfold Qdiv in *. change (/ 2) with (1 # 2) in *.
  split; [| split; [| split]]; apply Qabs_Qle_condition; split; lra.
Qed.

(** X10.  [applyScaleFactor] clamps its factor to 0.7 .. 1: a factor of 1
    or more leaves the layout as it is, a factor of 0.7 or less scales as
    0.7 does. *)
Theorem applyScaleFactor_clamps :
  forall (layout : LayoutConfig.t Q) (scaleFactor : Q),
    (1 <= scaleFactor -> applyScaleFactor layout scaleFactor = layout)
    /\ (scaleFactor <= 7 # 10 ->
        applyScaleFactor layout scaleFactor = applyScaleFactor layout (7 # 10)).
Proof.
  intros layout f. split; intros Hf; unfold applyScaleFactor;
    cbn [Math_max Math_min frac of_Z eqb exact_number];
    change (Exact.frac 70 100) with (70 # 100); change (inject_Z 1) with 1.
  - assert (Hclamp : Qmax (70 # 100) (Qmin 1 f) = 1).
    { unfold Qmin, Qmax, GenericMinMax.gmin, GenericMinMax.gmax.
      destruct (1 ?= f) eqn:E1; [reflexivity | reflexivity |].
      apply Qgt_alt in E1. lra. }
    rewrite Hclamp. reflexivity.
  - assert (Hclamp : forall g, g <= 7 # 10 -> Qmax (70 # 100) (Qmin 1 g) = 70 # 100).
    { intros g Hg. unfold Qmin, Qmax, GenericMinMax.gmin, GenericMinMax.gmax.
      destruct (1 ?= g) eqn:E1.
      - apply Qeq_alt in E1. lra.
      - apply Qlt_alt in E1. lra.
      - destruct ((70 # 100) ?= g) eqn:E2; [reflexivity | | reflexivity].
        apply Qlt_alt in E2. lra. }
    rewrite (Hclamp f Hf), (Hclamp (7 # 10)) by lra. reflexivity.
Qed.

Lemma Qle_bool_min_comm (g a b : Q) : Qle_bool g (Qmin a b) = Qle_bool g (Qmin b a).
Proof.
  apply eq_true_iff_eq. rewrite !Qle_bool_iff, (Q.min_comm a b). reflexivity.
Qed.

Lemma Qle_bool_lower (g g' a : Q) : g' <= g -> Qle_bool g a = true -> Qle_bool g' a = true.
Proof.
  intros Hg Ha. apply Qle_bool_iff in Ha. apply Qle_bool_iff. lra.
Qed.

(** X11.  The gap check does not depend on the order in which the two
    boxes are given, and lowering the minimum gap never turns a pass into a
    failure. *)
Theorem validateBorderGap_symmetric_and_monotone :
  forall (f1 f2 : FrameRect.t Q) (b1 b2 : BorderDimensions.t Q) (minGap lower : Q),
    validateBorderGap f1 f2 b1 b2 minGap = validateBorderGap f2 f1 b2 b1 minGap
    /\ (lower <= minGap ->
        validateBorderGap f1 f2 b1 b2 minGap = true ->
        validateBorderGap f1 f2 b1 b2 lower = true).
Proof.
  intros f1 f2 b1 b2 g g'. rewrite !validateBorderGap_edges. cbv zeta.
  generalize (expandedLeft f1 b1) (expandedRight f1 b1) (expandedTop f1 b1)
             (expandedBottom f1 b1) (expandedLeft f2 b2) (expandedRight f2 b2)
             (expandedTop f2 b2) (expandedBottom f2 b2).
  intros l1 r1 t1 d1 l2 r2 t2 d2.
  rewrite (orb_comm (Exact.ltb r2 l1)), (orb_comm (Exact.ltb d2 t1)).
  rewrite (Qle_bool_min_comm g (Qabs (d2 - t1))), (Qle_bool_min_comm g (Qabs (r2 - l1))).
  split; [reflexivity |].
  intros Hlower.
  destruct (Exact.ltb r1 l2 || Exact.ltb r2 l1), (Exact.ltb d1 t2 || Exact.ltb d2 t1);
    cbn [negb andb]; try (intros; assumption);
    apply Qle_bool_lower; exact Hlower.
Qed.

(** X12.  The pieces of a frame fit together: each edge strip starts where
    one corner ornament ends and ends where the next one starts, and lies
    flush with the outer edge of the corners on its side; the four corners
    are mirror images of each other in the card. *)
Theorem frame_pieces_fit :
  forall (cardWidth cardHeight cornerSize borderThickness insetOffset : Q),
    let corner position :=
      calculateCornerPosition position cardWidth cardHeight cornerSize insetOffset in
    let strip position :=
      calculateBorderPosition position cardWidth cardHeight cornerSize
        borderThickness insetOffset in
    (* top strip: between the two top corners, flush with their top edge *)
    (StripDimensions.x (strip border_top) == Position.x (corner top_left) + cornerSize
     /\ StripDimensions.x (strip border_top) + StripDimensions.width (strip border_top)
        == Position.x (corner top_right)
     /\ StripDimensions.y (strip border_top) == Position.y (corner top_left))
    (* bottom strip: between the two bottom corners, flush with their bottom edge *)
    /\ (StripDimensions.x (strip border_bottom)
        == Position.x (corner bottom_left) + cornerSize
        /\ StripDimensions.x (strip border_bottom)
           + StripDimensions.width (strip border_bottom)
           == Position.x (corner bottom_right)
        /\ StripDimensions.y (strip border_bottom)
           + StripDimensions.height (strip border_bottom)
           == Position.y (corner bottom_left) + cornerSize)
    (* left strip *)
    /\ (StripDimensions.y (strip border_left) == Position.y (corner top_left) + cornerSize
        /\ StripDimensions.y (strip border_left)
           + StripDimensions.height (strip border_left)
           == Position.y (corner bottom_left)
        /\ StripDimensions.x (strip border_left) == Position.x (corner top_left))
    (* right strip *)
    /\ (StripDimensions.y (strip border_right)
        == Position.y (corner top_right) + cornerSize
        /\ StripDimensions.y (strip border_right)
           + StripDimensions.height (strip border_right)
           == Position.y (corner bottom_right)
        /\ StripDimensions.x (strip border_right)
           + StripDimensions.width (strip border_right)
           == Position.x (corner top_right) + cornerSize)
    (* mirror symmetry of the corners *)
    /\ (Position.x (corner top_right) + cornerSize
        == cardWidth - Position.x (corner top_left)
        /\ Position.y (corner bottom_left) + cornerSize
           == cardHeight - Position.y (corner top_left)
        /\ Position.x (corner bottom_right) == Position.x (corner top_right)
        /\ Position.y (corner bottom_right) == Position.y (corner bottom_left)).
Proof.
  intros W Hh c t i. cbv zeta.
  unfold calculateCornerPosition, calculateBorderPosition.
  cbn [StripDimensions.x StripDimensions.y StripDimensions.width StripDimensions.height
       Position.x Position.y add sub mul of_Z exact_number].
  change (inject_Z 2) with 2.
  split; [| split; [| split; [| split]]]; (split; [| split; [| try split]]); lra.
Qed.

End ExactGeometry.

Lemma applyScaleFactor_clamps_witness :
  applyScaleFactor (LANDSCAPE_LAYOUT (num := Q)) 2%Q = LANDSCAPE_LAYOUT
  /\ applyScaleFactor (LANDSCAPE_LAYOUT (num := Q)) (1 # 2)%Q
     = applyScaleFactor LANDSCAPE_LAYOUT (7 # 10)%Q.
Proof.
  split.
  - apply (proj1 (applyScaleFactor_clamps (LANDSCAPE_LAYOUT (num := Q)) 2%Q)).
    unfold Qle. simpl. lia.
  - apply (proj2 (applyScaleFactor_clamps (LANDSCAPE_LAYOUT (num := Q)) (1 # 2)%Q)).
    unfold Qle. simpl. lia.
Defined.

Lemma validateBorderGap_symmetric_and_monotone_witness :
  validateBorderGap gapExampleFrame1 gapExampleFrame2
    (getArtworkBorderDimensions None) (getTextBoxBorderDimensions None) 1%Q = true.
Proof.
  apply (proj2 (validateBorderGap_symmetric_and_monotone gapExampleFrame1
                  gapExampleFrame2 (getArtworkBorderDimensions None)
                  (getTextBoxBorderDimensions None) 2%Q 1%Q)).
  - unfold Qle. simpl. lia.
  - vm_compute. reflexivity.
Defined.

(** ** Scaling by a factor outside the numbers the clamp expects *)

Lemma mul_nan (a : Double.t) : mul a (S754_nan : Double.t) = S754_nan.
Proof. destruct a; reflexivity. Qed.

Lemma add_nan (a : Double.t) : add a (S754_nan : Double.t) = S754_nan.
Proof. destruct a; reflexivity. Qed.

Lemma sub_nan (a : Double.t) : sub a (S754_nan : Double.t) = S754_nan.
Proof. destruct a; reflexivity. Qed.

Lemma scaleRect_nan (rect : FrameRect.t Double.t) (centerX centerY : Double.t) :
  scaleRect rect S754_nan centerX centerY = notANumberRect.
Proof.
  unfold scaleRect. rewrite !mul_nan, !add_nan.
  change (div (S754_nan : Double.t) (of_Z 2)) with (S754_nan : Double.t).
  rewrite !sub_nan. reflexivity.
Qed.

(** X13.  On doubles, a factor that is not below 1 (+Infinity included)
    leaves the layout as it is; NaN is not caught by the clamp: it keeps
    the canvas, the ids and the number of boxes and turns every field of
    every rect into NaN. *)
Theorem applyScaleFactor_beyond_the_clamp :
  forall layout : LayoutConfig.t Double.t,
    (forall scaleFactor : Double.t,
        Double.is_nan scaleFactor = false ->
        ltb scaleFactor (of_Z 1) = false ->
        applyScaleFactor layout scaleFactor = layout)
    /\ applyScaleFactor layout S754_nan = notANumberLayout layout.
Proof.
  intros layout. split.
  - intros f Hnan Hge. unfold applyScaleFactor.
    assert (Hmin : Math_min (of_Z 1) f = of_Z 1).
    { cbn [Math_min double_number]. unfold Double.min.
      cbn [ltb double_number] in Hge. rewrite Hnan, Hge. reflexivity. }
    rewrite Hmin.
    replace (Math_max (frac 70 100) (of_Z 1 : Double.t)) with (of_Z 1 : Double.t)
      by (vm_compute; reflexivity).
    reflexivity.
  - unfold applyScaleFactor.
    replace (Math_max (frac 70 100) (Math_min (of_Z 1) (S754_nan : Double.t)))
      with (S754_nan : Double.t) by (vm_compute; reflexivity).
    change (eqb (S754_nan : Double.t) (of_Z 1)) with false. cbv iota.
    unfold notANumberLayout, scaleRect_withId. rewrite !scaleRect_nan.
    f_equal. apply map_ext. intros box. rewrite scaleRect_nan. reflexivity.
Qed.

Lemma applyScaleFactor_beyond_the_clamp_witness :
  applyScaleFactor (LANDSCAPE_LAYOUT (num := Double.t)) (S754_infinity false)
  = LANDSCAPE_LAYOUT.
Proof.
  exact (proj1 (applyScaleFactor_beyond_the_clamp (LANDSCAPE_LAYOUT (num := Double.t)))
           (S754_infinity false) eq_refl eq_refl).
Defined.

(** ** The asset cache (assetLoader.ts) *)

Section CacheFacts.

Context {num : Type}.

Lemma own_property_head {A} (table : list (string * A)) (key : string) (v : A) :
  own_property ((key, v) :: table) key = Some v.
Proof. simpl. rewrite String.eqb_refl. reflexivity. Qed.

Lemma own_property_other {A} (table : list (string * A)) (key other : string) (v : A) :
  other <> key -> own_property ((key, v) :: table) other = own_property table other.
Proof.
  intros Hne. simpl. destruct (String.eqb_spec other key); [contradiction | reflexivity].
Qed.

(** A load of a cached path returns the cached buffer at once. *)
Lemma loadAsset_hit fs decode (assetPath : string) (w : World.t num) (buffer : Buffer num) :
  own_property (World.assetCache w) assetPath = Some buffer ->
  loadAsset fs decode assetPath w = (Ok buffer, w).
Proof.
  intros Hhit. unfold loadAsset, bind, cache_get. rewrite Hhit. reflexivity.
Qed.

(** A load of a path that is not cached: it fails and leaves the world as
    it is, or returns the asset of the path and caches it. *)
Lemma loadAsset_miss fs decode (assetPath : string) (w : World.t num) :
  own_property (World.assetCache w) assetPath = None ->
  (exists e, loadAsset fs decode assetPath w = (Throw e, w))
  \/ loadAsset fs decode assetPath w
     = (Ok (AssetFile assetPath),
        World.mk ((assetPath, AssetFile assetPath) :: World.assetCache w)
                 (World.warnings w)).
Proof.
  intros Hmiss. unfold loadAsset, bind, cache_get. rewrite Hmiss.
  destruct (negb (validateAssetExists fs assetPath)).
  { left. eexists. reflexivity. }
  destruct (getAssetFormat assetPath).
  - unfold sharp_input. destruct (decode (AssetFile assetPath)).
    + right. reflexivity.
    + left. eexists. reflexivity.
  - right. reflexivity.
  - left. eexists. reflexivity.
Qed.

(** The outcome of a load of a path that is not cached is the same in
    every world. *)
Lemma loadAsset_miss_outcome fs decode (assetPath : string) (w1 w2 : World.t num) :
  own_property (World.assetCache w1) assetPath = None ->
  own_property (World.assetCache w2) assetPath = None ->
  fst (loadAsset fs decode assetPath w1) = fst (loadAsset fs decode assetPath w2).
Proof.
  intros H1 H2. unfold loadAsset, bind, cache_get. rewrite H1, H2.
  destruct (negb (validateAssetExists fs assetPath)); [reflexivity |].
  destruct (getAssetFormat assetPath); try reflexivity.
  unfold sharp_input. destruct (decode (AssetFile assetPath)); reflexivity.
Qed.

(** X14.  Once a load has succeeded the asset is served from the cache:
    every later load of the path returns the same buffer and changes
    nothing, whatever has become of the file or of the decoder, until
    [clearAssetCache], after which a load of a path whose file is gone
    throws. *)
Theorem loaded_asset_is_served_from_the_cache :
  forall fs decode (assetPath : string) (w w' : World.t num) (buffer : Buffer num),
    loadAsset fs decode assetPath w = (Ok buffer, w') ->
    fst (isAssetCached assetPath w') = Ok true
    /\ (forall fs' decode', loadAsset fs' decode' assetPath w' = (Ok buffer, w'))
    /\ (forall fs' decode',
          validateAssetExists fs' assetPath = false ->
          fst (bind clearAssetCache (fun _ => loadAsset fs' decode' assetPath) w')
          = Throw (ASSET_NOT_FOUND (Some assetPath))).
Proof.
  intros fs decode assetPath w w' buffer Hload.
  assert (Hcached : own_property (World.assetCache w') assetPath = Some buffer).
  { destruct (own_property (World.assetCache w) assetPath) as [b |] eqn:Hlookup.
    - rewrite (loadAsset_hit fs decode _ _ Hlookup) in Hload.
      injection Hload as <- <-. exact Hlookup.
    - destruct (loadAsset_miss fs decode _ _ Hlookup) as [[e He] | Hok];
        rewrite Hload in *; [discriminate He |].
      injection Hok as -> ->. apply own_property_head. }
  split; [| split].
  - unfold isAssetCached. cbn [fst]. rewrite Hcached. reflexivity.
  - intros fs' decode'. apply loadAsset_hit. exact Hcached.
  - intros fs' decode' Hgone.
    unfold bind, clearAssetCache, loadAsset, cache_get.
    cbn [World.assetCache own_property]. rewrite Hgone. reflexivity.
Qed.

(** X15.  A load touches the cache entry of its own path only, and only
    when it succeeds: the entries of the other paths and the warnings stay
    as they are, a failed load leaves the world as it is, and a load does
    not run on. *)
Theorem loadAsset_touches_its_own_entry_only :
  forall fs decode (assetPath : string) (w : World.t num),
    let outcome := fst (loadAsset fs decode assetPath w) in
    let w' := snd (loadAsset fs decode assetPath w) in
    World.warnings w' = World.warnings w
    /\ (forall other,
          other <> assetPath ->
          own_property (World.assetCache w') other
          = own_property (World.assetCache w) other)
    /\ (is_ok outcome = false -> w' = w)
    /\ outcome <> Diverge.
Proof.
  intros fs decode assetPath w. cbv zeta.
  destruct (own_property (World.assetCache w) assetPath) as [b |] eqn:Hlookup.
  - rewrite (loadAsset_hit fs decode _ _ Hlookup). cbn [fst snd].
    split; [reflexivity |]. split; [reflexivity |].
    split; [reflexivity | discriminate].
  - destruct (loadAsset_miss fs decode _ _ Hlookup) as [[e ->] | ->]; cbn [fst snd].
    + split; [reflexivity |]. split; [reflexivity |].
      split; [reflexivity | discriminate].
    + split; [reflexivity |]. split; [| split; [discriminate | discriminate]].
      intros other Hne. cbn [World.assetCache].
      apply own_property_other. exact Hne.
Qed.

(** What one pass of the loop of [preloadAssets] does. *)
Lemma preload_step fs decode (results : list PreloadResult.t) (assetPath : string)
  (w : World.t num) :
  let step :=
    try_catch
      (bind (loadAsset fs decode assetPath)
            (fun _ => ret (results ++ [PreloadResult.mk assetPath true None])))
      (fun error => ret (results ++ [PreloadResult.mk assetPath false (Some error)])) in
  exists r w',
    step w = (Ok (results ++ [r]), w')
    /\ PreloadResult.path r = assetPath
    /\ PreloadResult.success r = is_ok (fst (loadAsset fs decode assetPath w))
    /\ PreloadResult.success r = cached assetPath w'
    /\ (PreloadResult.success r = false <-> PreloadResult.error r <> None)
    /\ World.warnings w' = World.warnings w
    /\ (forall other,
          other <> assetPath ->
          own_property (World.assetCache w') other
          = own_property (World.assetCache w) other)
    /\ (PreloadResult.success r = false -> w' = w)
    /\ (cached assetPath w = true -> w' = w).
Proof.
  cbv zeta. unfold try_catch, bind, cached.
  destruct (own_property (World.assetCache w) assetPath) as [b |] eqn:Hlookup.
  - rewrite (loadAsset_hit fs decode _ _ Hlookup). cbn [ret fst is_ok].
    eexists. exists w. split; [reflexivity |].
    cbn [PreloadResult.path PreloadResult.success PreloadResult.error].
    rewrite Hlookup.
    split; [reflexivity |]. split; [reflexivity |]. split; [reflexivity |].
    split; [split; [discriminate | intros Hn; exfalso; apply Hn; reflexivity] |].
    split; [reflexivity |]. split; [reflexivity |].
    split; reflexivity.
  - destruct (loadAsset_miss fs decode _ _ Hlookup) as [[e ->] | ->];
      cbn [ret fst is_ok].
    + eexists. exists w. split; [reflexivity |].
      cbn [PreloadResult.path PreloadResult.success PreloadResult.error].
      rewrite Hlookup.
      split; [reflexivity |]. split; [reflexivity |]. split; [reflexivity |].
      split; [split; [discriminate | reflexivity] |].
      split; [reflexivity |]. split; [reflexivity |].
      split; [reflexivity | discriminate].
    + eexists. eexists. split; [reflexivity |].
      cbn [PreloadResult.path PreloadResult.success PreloadResult.error
           World.assetCache World.warnings].
      rewrite own_property_head.
      split; [reflexivity |]. split; [reflexivity |]. split; [reflexivity |].
      split; [split; [discriminate | intros Hn; exfalso; apply Hn; reflexivity] |].
      split; [reflexivity |].
      split; [intros other Hne; apply own_property_other; exact Hne |].
      split; discriminate.
Qed.

(** What the loop must keep about the results gathered so far: a result
    says whether its path is cached, and a path that failed fails again
    wherever it is not cached. *)
Lemma preload_loop fs decode (paths : list string) :
  forall (results : list PreloadResult.t) (w : World.t num),
    (forall r, In r results ->
       PreloadResult.success r = cached (PreloadResult.path r) w
       /\ (PreloadResult.success r = false ->
           is_ok (fst (loadAsset fs decode (PreloadResult.path r) w)) = false)) ->
    exists more w',
      foldM (fun results assetPath =>
               try_catch
                 (bind (loadAsset fs decode assetPath)
                       (fun _ => ret (results ++ [PreloadResult.mk assetPath true None])))
                 (fun error =>
                    ret (results ++ [PreloadResult.mk assetPath false (Some error)])))
            paths results w
      = (Ok (results ++ more), w')
      /\ map PreloadResult.path more = paths
      /\ (forall r, In r (results ++ more) ->
            PreloadResult.success r = cached (PreloadResult.path r) w')
      /\ Forall (fun r => PreloadResult.success r = false
                          <-> PreloadResult.error r <> None) more
      /\ World.warnings w' = World.warnings w.
Proof.
  induction paths as [| p rest IH]; intros results w Hinv.
  - exists [], w. cbn [foldM ret]. rewrite app_nil_r.
    split; [reflexivity |]. split; [reflexivity |].
    split; [intros r Hr; apply Hinv; exact Hr |].
    split; [constructor | reflexivity].
  - cbn [foldM]. unfold bind at 1.
    destruct (preload_step fs decode results p w)
      as (r & w1 & Hstep & Hpath & Hok & Hcached & Herr & Hwarn & Hother & Hfail & Hhit).
    cbv zeta in Hstep. rewrite Hstep.
    assert (Hkeep : forall q,
              own_property (World.assetCache w) q = None ->
              (q = p -> PreloadResult.success r = false) ->
              own_property (World.assetCache w1) q = None).
    { intros q Hq Hsame. destruct (String.eqb_spec q p) as [-> | Hne].
      - rewrite (Hfail (Hsame eq_refl)). exact Hq.
      - rewrite (Hother q Hne). exact Hq. }
    destruct (IH (results ++ [r]) w1) as (more & w' & Hrun & Hpaths & Hall & Herrs & Hwarn').
    { intros r0 Hr0. apply in_app_or in Hr0 as [Hr0 | [<- | []]].
      - destruct (Hinv r0 Hr0) as [Hc Hf].
        destruct (PreloadResult.success r0) eqn:Hs.
        + split; [| discriminate].
          unfold cached in Hc |- *.
          destruct (String.eqb_spec (PreloadResult.path r0) p) as [Heq | Hne].
          * rewrite Heq in *. rewrite Hhit; [exact Hc |].
            unfold cached. rewrite <- Hc. reflexivity.
          * rewrite (Hother _ Hne). exact Hc.
        + specialize (Hf eq_refl).
          assert (Hmiss : own_property (World.assetCache w) (PreloadResult.path r0) = None).
          { unfold cached in Hc.
            destruct (own_property (World.assetCache w) (PreloadResult.path r0));
              [discriminate | reflexivity]. }
          assert (Hmiss1 : own_property (World.assetCache w1) (PreloadResult.path r0)
                           = None).
          { apply Hkeep; [exact Hmiss |].
            intros Heq. rewrite Hok, <- Heq. exact Hf. }
          split.
          * unfold cached. rewrite Hmiss1. reflexivity.
          * intros _.
            rewrite (loadAsset_miss_outcome fs decode _ w1 w Hmiss1 Hmiss). exact Hf.
      - split; [rewrite Hpath; exact Hcached |].
        intros Hs. rewrite Hpath, (Hfail Hs), <- Hok. exact Hs. }
    exists (r :: more), w'.
    split; [rewrite Hrun, <- app_assoc; reflexivity |].
    split; [cbn [map]; rewrite Hpath, Hpaths; reflexivity |].
    split; [intros r0 Hr0; apply Hall; rewrite <- app_assoc; exact Hr0 |].
    split; [constructor; [exact Herr | exact Herrs] |].
    rewrite Hwarn', Hwarn. reflexivity.
Qed.

(** X16.  [preloadAssets] never throws: it returns one result for each
    path, in order; a result is a success exactly when its path is in the
    cache afterwards, and carries an error exactly when it is a failure. *)
Theorem preloadAssets_reports_every_path :
  forall fs decode (assetPaths : list string) (w : World.t num),
    exists results w',
      preloadAssets fs decode assetPaths w = (Ok results, w')
      /\ map PreloadResult.path results = assetPaths
      /\ Forall (fun r =>
                   PreloadResult.success r = cached (PreloadResult.path r) w'
                   /\ (PreloadResult.success r = false
                       <-> PreloadResult.error r <> None)) results
      /\ World.warnings w' = World.warnings w.
Proof.
  intros fs decode assetPaths w.
  destruct (preload_loop fs decode assetPaths [] w)
    as (results & w' & Hrun & Hpaths & Hall & Herrs & Hwarn).
  { intros r []. }
  exists results, w'. unfold preloadAssets.
  split; [exact Hrun |]. split; [exact Hpaths |]. split; [| exact Hwarn].
  apply Forall_forall. intros r Hr. split.
  - apply Hall. exact Hr.
  - exact (proj1 (Forall_forall _ _) Herrs r Hr).
Qed.

End CacheFacts.

Lemma loaded_asset_is_served_from_the_cache_witness :
  let assetPath := "frames/cyber/corner.svg"%string in
  let w' : World.t Double.t := World.mk [(assetPath, AssetFile assetPath)] [] in
  loadAsset cyberFiles decodeAll assetPath emptyWorld = (Ok (AssetFile assetPath), w')
  /\ loadAsset (fun _ => false) (fun _ => None) assetPath w'
     = (Ok (AssetFile assetPath), w').
Proof.
  intros assetPath w'.
  assert (Hload : loadAsset cyberFiles decodeAll assetPath emptyWorld
                  = (Ok (AssetFile assetPath), w')) by (vm_compute; reflexivity).
  split; [exact Hload |].
  exact (proj1 (proj2 (@loaded_asset_is_served_from_the_cache Double.t cyberFiles
                         decodeAll assetPath emptyWorld w' (AssetFile assetPath) Hload))
           (fun _ => false) (fun _ => None)).
Defined.

Lemma loadAsset_touches_its_own_entry_only_witness :
  let w : World.t Double.t :=
    World.mk [("frames/cyber/corner.svg"%string, AssetFile "frames/cyber/corner.svg")] [] in
  snd (loadAsset (fun _ => false) decodeAll "frames/cyber/border.svg" w) = w.
Proof.
  intros w.
  apply (proj1 (proj2 (proj2 (@loadAsset_touches_its_own_entry_only Double.t
                                (fun _ => false) decodeAll "frames/cyber/border.svg" w)))).
  vm_compute. reflexivity.
Defined.

(** ** The frame assembler (frameRenderer.ts) *)

Section FrameFacts.

Context {num : Type} `{JsNumber num}.

Lemma hoare_ret {A} (P : World.t num -> Prop) (a : A) Q E :
  (forall w, P w -> Q a w) -> hoare P (ret a) Q E.
Proof. intros HQ w Hw. exact (HQ w Hw). Qed.

Lemma hoare_throw {A} (P : World.t num -> Prop) (e : Error)
  (Q : A -> World.t num -> Prop) E :
  (forall w, P w -> E e w) -> hoare P (throw e) Q E.
Proof. intros HE w Hw. exact (HE w Hw). Qed.

Lemma hoare_bind {A B} (P : World.t num -> Prop) (m : M num A) (k : A -> M num B)
  (R : A -> World.t num -> Prop) Q E :
  hoare P m R E -> (forall a, hoare (R a) (k a) Q E) -> hoare P (bind m k) Q E.
Proof.
  intros Hm Hk w Hw. unfold bind. specialize (Hm w Hw).
  destruct (m w) as [[a | e |] w1]; [| exact Hm | exact Hm].
  exact (Hk a w1 Hm).
Qed.

Lemma hoare_weaken {A} (P P' : World.t num -> Prop) (m : M num A)
  (Q Q' : A -> World.t num -> Prop) (E E' : Error -> World.t num -> Prop) :
  hoare P m Q E ->
  (forall w, P' w -> P w) ->
  (forall a w, Q a w -> Q' a w) ->
  (forall e w, E e w -> E' e w) ->
  hoare P' m Q' E'.
Proof.
  intros Hm HP HQ HE w Hw. specialize (Hm w (HP w Hw)).
  destruct (m w) as [[a | e |] w1]; [apply HQ | apply HE |]; exact Hm.
Qed.

(** A loop keeps an invariant that may speak of the elements done. *)
Lemma hoare_foldM {A B} (f : B -> A -> M num B)
  (I : list A -> B -> World.t num -> Prop) E (l : list A) :
  (forall done a acc,
      hoare (I done acc) (f acc a) (fun acc' => I (done ++ [a]) acc') E) ->
  forall done acc,
    hoare (I done acc) (foldM f l acc) (fun acc' => I (done ++ l) acc') E.
Proof.
  intros Hstep. induction l as [| a rest IH]; intros done acc.
  - cbn [foldM]. apply hoare_ret. intros w Hw. rewrite app_nil_r. exact Hw.
  - cbn [foldM]. eapply hoare_bind; [apply Hstep |].
    intros acc'. eapply hoare_weaken; [apply (IH (done ++ [a]) acc') | | |].
    + intros w Hw. exact Hw.
    + intros b w Hb. rewrite <- app_assoc in Hb. exact Hb.
    + intros e w He. exact He.
Qed.

Lemma frameWorld_weaken ws (loaded loaded' : list string) (w : World.t num) :
  incl loaded' loaded -> frameWorld ws loaded w -> frameWorld ws loaded' w.
Proof.
  intros Hincl (Hfaithful & Hws & Hloaded).
  split; [exact Hfaithful |]. split; [exact Hws |].
  apply Forall_forall. intros p Hp.
  exact (proj1 (Forall_forall _ _) Hloaded p (Hincl p Hp)).
Qed.

(** A load of a path of a supported format, in a world with a faithful
    cache: it returns the asset of the path, then cached, or fails for want
    of the file or of a readable image. *)
Lemma hoare_loadAsset fs (decode : Buffer num -> option (Z * Z)) ws (loaded : list string) (assetPath : string) :
  getAssetFormat assetPath <> format_unknown ->
  hoare (frameWorld ws loaded) (loadAsset fs decode assetPath)
    (fun buffer w => frameWorld ws (assetPath :: loaded) w
                     /\ buffer = AssetFile assetPath)
    (fun e w => frameWorld ws loaded w
                /\ (e = ASSET_NOT_FOUND (Some assetPath) \/ e = UnsupportedImage)).
Proof.
  intros Hformat w (Hfaithful & Hws & Hloaded).
  destruct (own_property (World.assetCache w) assetPath) as [b |] eqn:Hlookup.
  - rewrite (loadAsset_hit fs decode _ _ Hlookup).
    split; [| exact (Hfaithful _ _ Hlookup)].
    split; [exact Hfaithful |]. split; [exact Hws |].
    constructor; [unfold cached; rewrite Hlookup; reflexivity | exact Hloaded].
  - assert (Hnew : frameWorld ws (assetPath :: loaded)
                     (World.mk ((assetPath, AssetFile assetPath) :: World.assetCache w)
                               (World.warnings w))).
    { split; [| split; [exact Hws |]].
      - intros q b. cbn [World.assetCache own_property].
        destruct (String.eqb_spec q assetPath) as [-> | Hne].
        + intros E. injection E as <-. reflexivity.
        + apply Hfaithful.
      - constructor.
        + unfold cached. cbn [World.assetCache]. rewrite own_property_head. reflexivity.
        + eapply Forall_impl; [| exact Hloaded].
          intros q Hq. unfold cached in *. cbn [World.assetCache own_property].
          destruct (String.eqb q assetPath); [reflexivity | exact Hq]. }
    unfold loadAsset, bind, cache_get. rewrite Hlookup.
    destruct (negb (validateAssetExists fs assetPath)).
    { cbn [throw]. split; [repeat split; assumption | left; reflexivity]. }
    destruct (getAssetFormat assetPath); [| | contradiction].
    + unfold sharp_input. destruct (decode (AssetFile assetPath)); cbn [ret throw cache_set].
      * split; [exact Hnew | reflexivity].
      * split; [repeat split; assumption | right; reflexivity].
    + cbn [ret cache_set]. split; [exact Hnew | reflexivity].
Qed.

Lemma hoare_sharp_input (decode : Buffer num -> option (Z * Z)) (input : Buffer num) (P : World.t num -> Prop) E :
  (forall w, P w -> E UnsupportedImage w) ->
  hoare P (sharp_input decode input) (fun _ => P) E.
Proof.
  intros HE w Hw. unfold sharp_input.
  destruct (decode input); [exact Hw | exact (HE w Hw)].
Qed.

Lemma hoare_sharp_resize (input : Buffer num) (width height : num) (fit : Fit)
  (how : string) (P : World.t num -> Prop) E :
  (forall w, P w -> E (InvalidParameter "width") w) ->
  (forall w, P w -> E (InvalidParameter "height") w) ->
  hoare P (sharp_resize input width height fit how)
    (fun image w =>
       P w /\ image = Resized input width height fit how
       /\ isPositiveInteger width = true /\ isPositiveInteger height = true)
    E.
Proof.
  intros Hwidth Hheight w Hw. unfold sharp_resize.
  destruct (isPositiveInteger width); cbn [negb]; [| exact (Hwidth w Hw)].
  destruct (isPositiveInteger height); cbn [negb]; [| exact (Hheight w Hw)].
  repeat split. exact Hw.
Qed.

Lemma offsetRefusal_kinds (images : list (Overlay.t (Buffer num) num)) (e : Error) :
  offsetRefusal images = Some e -> sharpRefusal e.
Proof.
  unfold sharpRefusal.
  induction images as [| image rest IH]; [discriminate |]. cbn [offsetRefusal].
  destruct (negb (Number_isInteger (Overlay.left image))).
  { intros E. injection E as <-. tauto. }
  destruct (negb (Number_isInteger (Overlay.top image))).
  { intros E. injection E as <-. tauto. }
  exact IH.
Qed.

Lemma overlayRefusal_kinds (decode : Buffer num -> option (Z * Z))
  (baseWidth baseHeight : num) (images : list (Overlay.t (Buffer num) num)) (e : Error) :
  overlayRefusal decode baseWidth baseHeight images = Some e ->
  e = UnsupportedImage \/ sharpRefusal e.
Proof.
  unfold sharpRefusal.
  induction images as [| image rest IH]; [discriminate |]. cbn [overlayRefusal].
  destruct (pixel_size decode (Overlay.input image)) as [[width height] |].
  2:{ intros E. injection E as <-. tauto. }
  destruct (ltb baseWidth width || ltb baseHeight height).
  { intros E. injection E as <-. tauto. }
  exact IH.
Qed.

Lemma compositeRefusal_kinds (decode : Buffer num -> option (Z * Z))
  (base : Buffer num) (images : list (Overlay.t (Buffer num) num)) (e : Error) :
  compositeRefusal decode base images = Some e ->
  e = UnsupportedImage \/ sharpRefusal e.
Proof.
  unfold compositeRefusal.
  destruct (offsetRefusal images) as [e' |] eqn:Hoffset.
  { intros E. injection E as <-. right. exact (offsetRefusal_kinds _ Hoffset). }
  destruct (pixel_size decode base) as [[baseWidth baseHeight] |].
  - apply overlayRefusal_kinds.
  - intros E. injection E as <-. left. reflexivity.
Qed.

Lemma hoare_sharp_composite (decode : Buffer num -> option (Z * Z)) (base : Buffer num)
  (images : list (Overlay.t (Buffer num) num)) (P : World.t num -> Prop) E :
  (forall e w, P w -> e = UnsupportedImage \/ sharpRefusal e -> E e w) ->
  hoare P (sharp_composite decode base images)
    (fun image w =>
       P w /\ image = Composited base images
       /\ compositeRefusal decode base images = None)
    E.
Proof.
  intros HE w Hw. unfold sharp_composite.
  destruct (compositeRefusal decode base images) as [e |] eqn:Hrefusal.
  - exact (HE e w Hw (compositeRefusal_kinds _ _ _ Hrefusal)).
  - repeat split. exact Hw.
Qed.

(** The assets of a decorative preset are SVG files. *)
Lemma preset_assets_supported (presetId : string) (preset : FramePresetConfig.t num) :
  js_lookup FRAME_PRESETS presetId = Own preset ->
  isDecorativePreset presetId = true ->
  getAssetFormat (FramePresetConfig.cornerAsset preset) = format_svg
  /\ getAssetFormat (FramePresetConfig.borderAsset preset) = format_svg.
Proof.
  unfold js_lookup, FRAME_PRESETS, isDecorativePreset. cbn [own_property].
  repeat match goal with
  | |- context [String.eqb presetId ?k] =>
      destruct (String.eqb_spec presetId k) as [-> | _];
      [intros E Hd; first [discriminate Hd | injection E as <-; split; reflexivity] |]
  end.
  destruct (string_mem presetId OBJECT_PROTOTYPE_KEYS); discriminate.
Qed.

Lemma hoare_renderCornerOrnament fs (decode : Buffer num -> option (Z * Z)) ws (loaded : list string)
  (options : FrameRenderOptions.t num) (preset : FramePresetConfig.t num)
  (position : CornerPosition) :
  getAssetFormat (FramePresetConfig.cornerAsset preset) <> format_unknown ->
  hoare (frameWorld ws loaded)
    (renderCornerOrnament fs decode preset position (frameScale options))
    (fun image w =>
       frameWorld ws (FramePresetConfig.cornerAsset preset :: loaded) w
       /\ raster_size image
          = Some (frameCornerSize options preset, frameCornerSize options preset))
    (fun e w => frameWorld ws loaded w /\ frameFailure preset e).
Proof.
  intros Hformat. unfold renderCornerOrnament.
  eapply hoare_bind.
  - eapply hoare_weaken; [apply (@hoare_loadAsset fs decode ws loaded _ Hformat) | | |].
    + intros w Hw. exact Hw.
    + intros b w Hb. exact Hb.
    + intros e w [Hw He]. split; [exact Hw |].
      unfold frameFailure. destruct He as [He | He]; rewrite He; tauto.
  - intros cornerBuffer. cbv zeta.
    set (P := fun w : World.t num =>
                frameWorld ws (FramePresetConfig.cornerAsset preset :: loaded) w
                /\ cornerBuffer = AssetFile (FramePresetConfig.cornerAsset preset)).
    assert (Hfail : forall e (w : World.t num),
              P w -> frameFailure preset e ->
              frameWorld ws loaded w /\ frameFailure preset e).
    { intros e w [Hw _] He. split; [| exact He].
      eapply frameWorld_weaken; [| exact Hw]. intros p Hp. right. exact Hp. }
    eapply hoare_bind.
    + apply hoare_sharp_resize with (P := P);
        intros w Hw; (apply Hfail; [exact Hw |]);
        unfold frameFailure, sharpRefusal; tauto.
    + intros image. eapply hoare_bind.
      * apply hoare_sharp_input with
          (P := fun w =>
                  P w
                  /\ image
                     = Resized cornerBuffer (frameCornerSize options preset)
                         (frameCornerSize options preset) fit_fill "lanczos3"
                  /\ isPositiveInteger (frameCornerSize options preset) = true
                  /\ isPositiveInteger (frameCornerSize options preset) = true).
        intros w [Hw _]. apply Hfail; [exact Hw |]. unfold frameFailure; tauto.
      * intros u. apply hoare_ret. intros w ([Hw _] & -> & _). split; [exact Hw |].
        destruct position; reflexivity.
Qed.

Lemma hoare_renderBorderStrip fs (decode : Buffer num -> option (Z * Z)) ws (loaded : list string)
  (options : FrameRenderOptions.t num) (preset : FramePresetConfig.t num)
  (position : BorderPosition) (length : num) :
  getAssetFormat (FramePresetConfig.borderAsset preset) <> format_unknown ->
  hoare (frameWorld ws loaded)
    (renderBorderStrip fs decode preset position length (frameScale options))
    (fun image w =>
       frameWorld ws loaded w
       /\ raster_size image
          = Some (match position with
                  | border_left | border_right =>
                      (frameRasterThickness options preset, length)
                  | _ => (length, frameRasterThickness options preset)
                  end))
    (fun e w => frameWorld ws loaded w /\ frameFailure preset e).
Proof.
  intros Hformat. unfold renderBorderStrip.
  eapply hoare_bind with (R := fun _ w => frameWorld ws loaded w).
  - eapply hoare_weaken; [apply (@hoare_loadAsset fs decode ws loaded _ Hformat) | | |].
    + intros w Hw. exact Hw.
    + intros b w [Hb _]. eapply frameWorld_weaken; [| exact Hb].
      intros p Hp. right. exact Hp.
    + intros e w [Hw He]. split; [exact Hw |].
      unfold frameFailure. destruct He as [He | He]; rewrite He; tauto.
  - intros borderBuffer. cbv zeta.
    assert (Hresize :
              hoare (frameWorld ws loaded)
                (sharp_resize borderBuffer length (frameRasterThickness options preset)
                   fit_fill "lanczos3")
                (fun image w =>
                   frameWorld ws loaded w
                   /\ image
                      = Resized borderBuffer length (frameRasterThickness options preset)
                          fit_fill "lanczos3"
                   /\ isPositiveInteger length = true
                   /\ isPositiveInteger (frameRasterThickness options preset) = true)
                (fun e w => frameWorld ws loaded w /\ frameFailure preset e)).
    { apply hoare_sharp_resize; intros w Hw; (split; [exact Hw |]);
        unfold frameFailure, sharpRefusal; tauto. }
    eapply hoare_bind with
      (R := fun image w =>
              frameWorld ws loaded w
              /\ raster_size image
                 = Some (match position with
                         | border_left | border_right =>
                             (frameRasterThickness options preset, length)
                         | _ => (length, frameRasterThickness options preset)
                         end)).
    + destruct position.
      1, 3: eapply hoare_weaken;
        [exact Hresize | intros w Hw; exact Hw
         | intros image w (Hw & -> & _); split; [exact Hw | reflexivity]
         | intros e w He; exact He].
      1, 2: eapply hoare_bind; [exact Hresize |];
        intros resized; apply hoare_ret; intros w (Hw & -> & _);
        split; [exact Hw | reflexivity].
    + intros image. eapply hoare_bind.
      * apply hoare_sharp_input with
          (P := fun w =>
                  frameWorld ws loaded w
                  /\ raster_size image
                     = Some (match position with
                             | border_left | border_right =>
                                 (frameRasterThickness options preset, length)
                             | _ => (length, frameRasterThickness options preset)
                             end)).
        intros w [Hw _]. split; [exact Hw | unfold frameFailure; tauto].
      * intros u. apply hoare_ret. intros w Hw. exact Hw.
Qed.

Lemma filter_snoc {A} (f : A -> bool) (l : list A) (a : A) :
  filter f (l ++ [a]) = filter f l ++ (if f a then [a] else []).
Proof. rewrite filter_app. reflexivity. Qed.

(** The body of [renderFrame] for a decorative preset with assets of a
    supported format, from a world with a faithful cache. *)
Lemma hoare_renderFrame_decorative fs (decode : Buffer num -> option (Z * Z)) ws
  (cardBuffer : Buffer num) (options : FrameRenderOptions.t num)
  (preset : FramePresetConfig.t num) :
  getAssetFormat (FramePresetConfig.cornerAsset preset) <> format_unknown ->
  getAssetFormat (FramePresetConfig.borderAsset preset) <> format_unknown ->
  hoare (frameWorld ws [])
    (renderFrame_decorative fs decode cardBuffer options preset)
    (fun framed w =>
       frameWorld ws [FramePresetConfig.cornerAsset preset] w
       /\ isFramed options preset cardBuffer framed)
    (fun e w => frameWorld ws [] w /\ frameFailure preset e).
Proof.
  intros Hcorner Hborder. unfold renderFrame_decorative. cbv zeta.
  set (corner := FramePresetConfig.cornerAsset preset).
  assert (Hdrop : forall loaded w,
            frameWorld ws loaded w -> frameWorld (num := num) ws [] w).
  { intros loaded w Hw. eapply frameWorld_weaken; [| exact Hw]. intros p []. }
  eapply hoare_bind with (R := fun _ w => frameWorld ws [] w).
  { unfold validatePresetAssets. intros w Hw.
    destruct (negb (validateAssetExists fs (FramePresetConfig.cornerAsset preset))).
    { split; [exact Hw | unfold frameFailure; tauto]. }
    destruct (negb (validateAssetExists fs (FramePresetConfig.borderAsset preset))).
    { split; [exact Hw | unfold frameFailure; tauto]. }
    exact Hw. }
  intros u.
  eapply hoare_bind with
    (R := fun corners w =>
            frameWorld ws [corner] w
            /\ Forall2 (isCornerLayer options preset) ALL_CORNERS corners).
  { eapply hoare_weaken.
    - apply hoare_foldM with
        (I := fun done acc w =>
                frameWorld ws (map (fun _ : CornerPosition => corner) done) w
                /\ Forall2 (isCornerLayer options preset) done acc)
        (E := fun e w => frameWorld ws [] w /\ frameFailure preset e)
        (done := []) (acc := []).
      intros done position acc w [Hw Hacc]. unfold bind.
      pose proof (@hoare_renderCornerOrnament fs decode ws _ options preset position
                    Hcorner w Hw) as Hrun.
      unfold frameScale in Hrun.
      destruct (renderCornerOrnament fs decode preset position
                  (getScaleFactorForLayout (FrameRenderOptions.layoutVariant options)) w)
        as [[image | e |] w1]; [| | exact Hrun].
      + destruct Hrun as [Hw1 Hsize]. cbn [ret]. split.
        * eapply frameWorld_weaken; [| exact Hw1].
          intros p Hp. rewrite map_app in Hp. apply in_app_or in Hp as [Hp | [<- | []]].
          -- right. exact Hp.
          -- left. reflexivity.
        * apply Forall2_app; [exact Hacc |].
          constructor; [| constructor].
          split; [exact Hsize | split; reflexivity].
      + destruct Hrun as [Hw1 He]. split; [exact (Hdrop _ _ Hw1) | exact He].
    - intros w Hw. split; [exact Hw | constructor].
    - intros corners w [Hw Hall]. split; [| exact Hall].
      eapply frameWorld_weaken; [| exact Hw].
      intros p [<- | []]. left. reflexivity.
    - intros e w He. exact He. }
  intros corners.
  eapply hoare_bind with
    (R := fun layers w =>
            frameWorld ws [corner] w
            /\ exists strips,
                 layers = corners ++ strips
                 /\ Forall2 (isCornerLayer options preset) ALL_CORNERS corners
                 /\ Forall2 (isStripLayer options preset)
                      (renderedStrips options preset) strips).
  { eapply hoare_weaken.
    - apply hoare_foldM with
        (I := fun done acc w =>
                frameWorld ws [corner] w
                /\ Forall2 (isCornerLayer options preset) ALL_CORNERS corners
                /\ exists strips,
                     acc = corners ++ strips
                     /\ Forall2 (isStripLayer options preset)
                          (filter (fun position =>
                                     ltb (of_Z 0) (stripLength options preset position))
                                  done) strips)
        (E := fun e w => frameWorld ws [] w /\ frameFailure preset e)
        (done := []) (acc := corners).
      intros done position acc w (Hw & Hcorners & strips & -> & Hstrips).
      rewrite filter_snoc.
      change (match position with
              | border_top | border_bottom =>
                  StripDimensions.width
                    (calculateBorderPosition position
                       (FrameRenderOptions.cardWidth options)
                       (FrameRenderOptions.cardHeight options)
                       (Math_round
                          (mul (FramePresetConfig.cornerSize preset)
                             (getScaleFactorForLayout
                                (FrameRenderOptions.layoutVariant options))))
                       (Math_round
                          (mul (nullish (FrameRenderOptions.borderThickness options)
                                  (FramePresetConfig.borderThickness preset))
                             (getScaleFactorForLayout
                                (FrameRenderOptions.layoutVariant options))))
                       (Math_max (of_Z 0)
                          (Math_min (of_Z 20)
                             (nullish (FrameRenderOptions.insetOffset options)
                                (FramePresetConfig.insetOffset preset)))))
              | _ =>
                  StripDimensions.height
                    (calculateBorderPosition position
                       (FrameRenderOptions.cardWidth options)
                       (FrameRenderOptions.cardHeight options)
                       (Math_round
                          (mul (FramePresetConfig.cornerSize preset)
                             (getScaleFactorForLayout
                                (FrameRenderOptions.layoutVariant options))))
                       (Math_round
                          (mul (nullish (FrameRenderOptions.borderThickness options)
                                  (FramePresetConfig.borderThickness preset))
                             (getScaleFactorForLayout
                                (FrameRenderOptions.layoutVariant options))))
                       (Math_max (of_Z 0)
                          (Math_min (of_Z 20)
                             (nullish (FrameRenderOptions.insetOffset options)
                                (FramePresetConfig.insetOffset preset)))))
              end)
        with (stripLength options preset position).
      destruct (ltb (of_Z 0) (stripLength options preset position)).
      + unfold bind.
        pose proof (@hoare_renderBorderStrip fs decode ws [corner] options preset position
                      (stripLength options preset position) Hborder w Hw) as Hrun.
        unfold frameScale in Hrun.
        destruct (renderBorderStrip fs decode preset position
                    (stripLength options preset position)
                    (getScaleFactorForLayout (FrameRenderOptions.layoutVariant options)) w)
          as [[image | e |] w1]; [| | exact Hrun].
        * destruct Hrun as [Hw1 Hsize]. cbn [ret].
          split; [exact Hw1 |]. split; [exact Hcorners |].
          eexists. split; [rewrite <- app_assoc; reflexivity |].
          apply Forall2_app; [exact Hstrips |].
          constructor; [| constructor].
          split; [exact Hsize | split; reflexivity].
        * destruct Hrun as [Hw1 He]. split; [exact (Hdrop _ _ Hw1) | exact He].
      + cbn [ret]. split; [exact Hw |]. split; [exact Hcorners |].
        exists strips. rewrite app_nil_r. split; [reflexivity | exact Hstrips].
    - intros w [Hw Hcorners]. split; [exact Hw |]. split; [exact Hcorners |].
      exists []. rewrite app_nil_r. split; [reflexivity | constructor].
    - intros layers w (Hw & Hcorners & strips & -> & Hstrips).
      split; [exact Hw |]. exists strips.
      split; [reflexivity |]. split; [exact Hcorners | exact Hstrips].
    - intros e w He. exact He. }
  intros layers.
  eapply hoare_weaken.
  - apply hoare_sharp_composite with
      (P := fun w =>
              frameWorld ws [corner] w
              /\ exists strips,
                   layers = corners ++ strips
                   /\ Forall2 (isCornerLayer options preset) ALL_CORNERS corners
                   /\ Forall2 (isStripLayer options preset)
                        (renderedStrips options preset) strips)
      (E := fun e w => frameWorld ws [] w /\ frameFailure preset e).
    intros e w [Hw _] He. split; [exact (Hdrop _ _ Hw) | unfold frameFailure; tauto].
  - intros w Hw. exact Hw.
  - intros framed w ((Hw & strips & -> & Hcorners & Hstrips) & -> & _).
    split; [exact Hw |]. exists corners, strips.
    split; [reflexivity |]. split; [exact Hcorners | exact Hstrips].
  - intros e w He. exact He.
Qed.

End FrameFacts.

Lemma emptyWorld_framed {num : Type} : frameWorld (num := num) [] [] emptyWorld.
Proof.
  split; [| split; [reflexivity | constructor]].
  intros p b Hb. discriminate Hb.
Qed.

(** X17.  For a decorative preset of the table, from a world whose cache
    is faithful, [renderFrame] either returns the card itself under four
    corner squares of the scaled corner size and one strip for each edge of
    positive length, each strip rasterised at the preset's thickness and all
    laid at their rounded places, or fails: for want of one of the two asset
    files or of a readable image, or because [sharp] refuses a size or a
    place it is handed (a strip length that is not a positive whole number,
    as a fractional inset leaves it, a place that is not a whole number, a
    layer larger than the card).  It does not run on, writes no warning,
    keeps the cache faithful and, when it returns, has cached the corner
    asset. *)
Theorem renderFrame_frames_the_card :
  forall {num : Type} `{JsNumber num} fs (decode : Buffer num -> option (Z * Z)) ws
         (cardBuffer : Buffer num) (options : FrameRenderOptions.t num)
         (preset : FramePresetConfig.t num),
    js_lookup FRAME_PRESETS (FrameRenderOptions.presetId options) = Own preset ->
    isDecorativePreset (FrameRenderOptions.presetId options) = true ->
    hoare (frameWorld ws [])
      (renderFrame fs decode cardBuffer options)
      (fun framed w =>
         frameWorld ws [FramePresetConfig.cornerAsset preset] w
         /\ isFramed options preset cardBuffer framed)
      (fun e w => frameWorld ws [] w /\ frameFailure preset e).
Proof.
  intros num Hnum fs decode ws cardBuffer options preset Hlookup Hdecorative.
  destruct (preset_assets_supported _ Hlookup Hdecorative) as [Hcorner Hborder].
  unfold renderFrame. rewrite Hlookup, Hdecorative. cbn [negb].
  apply hoare_renderFrame_decorative.
  - rewrite Hcorner. discriminate.
  - rewrite Hborder. discriminate.
Qed.

(** X18.  [renderFrame] looks for the two asset files before it looks in
    the cache: when one of them is missing it throws, naming the corner
    asset first, and leaves the world as it is, even in a world where both
    assets are cached. *)
Theorem renderFrame_checks_the_files_first :
  forall {num : Type} `{JsNumber num} fs (decode : Buffer num -> option (Z * Z))
         (cardBuffer : Buffer num) (options : FrameRenderOptions.t num)
         (preset : FramePresetConfig.t num) (w : World.t num),
    js_lookup FRAME_PRESETS (FrameRenderOptions.presetId options) = Own preset ->
    isDecorativePreset (FrameRenderOptions.presetId options) = true ->
    validateAssetExists fs (FramePresetConfig.cornerAsset preset) = false
    \/ validateAssetExists fs (FramePresetConfig.borderAsset preset) = false ->
    renderFrame fs decode cardBuffer options w
    = (Throw (ASSET_NOT_FOUND
                (Some (if validateAssetExists fs (FramePresetConfig.cornerAsset preset)
                       then FramePresetConfig.borderAsset preset
                       else FramePresetConfig.cornerAsset preset))), w).
Proof.
  intros num Hnum fs decode cardBuffer options preset w Hlookup Hdecorative Hmissing.
  unfold renderFrame. rewrite Hlookup, Hdecorative. cbn [negb].
  unfold renderFrame_decorative, validatePresetAssets, bind.
  destruct (validateAssetExists fs (FramePresetConfig.cornerAsset preset)); cbn [negb].
  - destruct Hmissing as [Hc | Hb]; [discriminate Hc |]. rewrite Hb. reflexivity.
  - reflexivity.
Qed.

Section FrameReportFacts.

Local Open Scope Q_scope.

Lemma clamp_bounds (lo hi x : Q) :
  lo <= hi -> lo <= Qmax lo (Qmin hi x) /\ Qmax lo (Qmin hi x) <= hi.
Proof.
  intros Hlohi. split.
  - apply Q.le_max_l.
  - apply Q.max_lub; [exact Hlohi | apply Q.le_min_l].
Qed.

Lemma clamp_inside (lo hi x : Q) :
  lo <= x -> x <= hi -> Qmax lo (Qmin hi x) == x.
Proof.
  intros Hlo Hhi. rewrite (Q.min_r hi x) by exact Hhi. apply Q.max_r. exact Hlo.
Qed.

Lemma clamp_below (lo hi x : Q) :
  lo <= hi -> x <= lo -> Qmax lo (Qmin hi x) == lo.
Proof.
  intros Hlohi Hx. rewrite (Q.min_r hi x) by lra. apply Q.max_l. exact Hx.
Qed.

Lemma clamp_above (lo hi x : Q) :
  lo <= hi -> hi <= x -> Qmax lo (Qmin hi x) == hi.
Proof.
  intros Hlohi Hx. rewrite (Q.min_l hi x) by exact Hx. apply Q.max_r. exact Hlohi.
Qed.

(** X19.  [getFrameRenderInfo] reports the corner size and the placed
    thickness [renderFrame] works with, but not always its inset: the
    report keeps the inset within 5..20, the renderer within 0..20, so that
    the two agree exactly when the requested inset is 5 or more. *)
Theorem frame_report_inset_has_another_floor :
  forall (options : FrameRenderOptions.t Q) (preset : FramePresetConfig.t Q),
    js_lookup FRAME_PRESETS (FrameRenderOptions.presetId options) = Own preset ->
    let requested :=
      nullish (FrameRenderOptions.insetOffset options)
              (FramePresetConfig.insetOffset preset) in
    exists info,
      getFrameRenderInfo options = Ok (Own info)
      /\ FrameRenderInfo.effectiveCornerSize info = frameCornerSize options preset
      /\ FrameRenderInfo.effectiveBorderThickness info
         = framePlacedThickness options preset
      /\ 5 <= FrameRenderInfo.effectiveInsetOffset info <= 20
      /\ 0 <= frameInset options preset <= 20
      /\ (FrameRenderInfo.effectiveInsetOffset info == frameInset options preset
          <-> 5 <= requested).
Proof.
  intros options preset Hlookup requested.
  unfold getFrameRenderInfo. rewrite Hlookup. cbv zeta.
  eexists. split; [reflexivity |].
  cbn [FrameRenderInfo.effectiveCornerSize FrameRenderInfo.effectiveBorderThickness
       FrameRenderInfo.effectiveInsetOffset].
  split; [reflexivity |]. split; [reflexivity |].
  unfold frameInset. fold requested.
  cbn [Math_max Math_min of_Z exact_number].
  change (inject_Z 5) with 5. change (inject_Z 20) with 20. change (inject_Z 0) with 0.
  split; [apply clamp_bounds; lra |].
  split; [apply clamp_bounds; lra |].
  split.
  - intros Hagree.
    destruct (Qlt_le_dec requested 5) as [Hlt | Hge]; [| exact Hge].
    exfalso.
    rewrite (@clamp_below 5 20 requested) in Hagree by lra.
    destruct (Qlt_le_dec requested 0) as [Hneg | Hpos].
    + rewrite (@clamp_below 0 20 requested) in Hagree by lra. lra.
    + rewrite (@clamp_inside 0 20 requested) in Hagree by lra. lra.
  - intros Hge.
    destruct (Qlt_le_dec 20 requested) as [Hbig | Hsmall].
    + rewrite (@clamp_above 5 20 requested), (@clamp_above 0 20 requested) by lra.
      reflexivity.
    + rewrite (@clamp_inside 5 20 requested), (@clamp_inside 0 20 requested) by lra.
      reflexivity.
Qed.

End FrameReportFacts.

Lemma renderFrame_frames_the_card_witness :
  exists framed w',
    renderFrame cyberFiles (decodeCard thicknessOverrideOptions) (Raw [Byte.x00])
      thicknessOverrideOptions emptyWorld
    = (Ok framed, w')
    /\ isFramed thicknessOverrideOptions (presetNamed "cyber") (Raw [Byte.x00]) framed.
Proof.
  pose proof (@renderFrame_frames_the_card Double.t _ cyberFiles
                (decodeCard thicknessOverrideOptions) []
                (Raw [Byte.x00]) thicknessOverrideOptions (presetNamed "cyber")
                eq_refl eq_refl emptyWorld emptyWorld_framed) as Hrun.
  assert (Hok : is_ok (fst (renderFrame cyberFiles (decodeCard thicknessOverrideOptions)
                              (Raw [Byte.x00]) thicknessOverrideOptions emptyWorld))
                = true)
    by (vm_compute; reflexivity).
  destruct (renderFrame cyberFiles (decodeCard thicknessOverrideOptions) (Raw [Byte.x00])
      thicknessOverrideOptions
              emptyWorld) as [[framed | e |] w'];
    [| discriminate Hok | discriminate Hok].
  exists framed, w'. split; [reflexivity | exact (proj2 Hrun)].
Defined.

Lemma renderFrame_checks_the_files_first_witness :
  renderFrame (fun _ => false) decodeAll (Raw [Byte.x00]) thicknessOverrideOptions
    cyberCached
  = (Throw (ASSET_NOT_FOUND (Some "frames/cyber/corner.svg"%string)), cyberCached).
Proof.
  exact (@renderFrame_checks_the_files_first Double.t _ (fun _ => false) decodeAll
           (Raw [Byte.x00]) thicknessOverrideOptions (presetNamed "cyber") cyberCached
           eq_refl eq_refl (or_introl eq_refl)).
Defined.

Lemma frame_report_inset_has_another_floor_witness :
  let options : FrameRenderOptions.t Q :=
    FrameRenderOptions.mk "cyber" 1024%Q 768%Q None (Some 0%Q) None in
  exists info,
    getFrameRenderInfo options = Ok (Own info)
    /\ (5 <= FrameRenderInfo.effectiveInsetOffset info <= 20)%Q
    /\ (0 <= frameInset options (presetNamed "cyber") <= 20)%Q.
Proof.
  intros options.
  destruct (@frame_report_inset_has_another_floor options (presetNamed "cyber") eq_refl)
    as (info & Hinfo & _ & _ & Hreport & Hframe & _).
  exists info. split; [exact Hinfo |]. split; [exact Hreport | exact Hframe].
Defined.

(** ** All the borders of a card (borderRenderer.ts) *)

Section AllBordersFacts.

Local Open Scope Q_scope.






End AllBordersFacts.


(** ** Validators of ids *)

Section ValidatorFacts.

Context {num : Type} `{JsNumber num}.

Lemma string_mem_In (key : string) (keys : list string) :
  string_mem key keys = true <-> In key keys.
Proof.
  unfold string_mem. rewrite existsb_exists. split.
  - intros (k & Hin & Heq). apply String.eqb_eq in Heq. subst k. exact Hin.
  - intros Hin. exists key. split; [exact Hin | apply String.eqb_refl].
Qed.

Lemma js_lookup_found {A} (table : list (string * A)) (key : string) :
  (match js_lookup table key with Missing => false | _ => true end) = true
  <-> In key (map fst table) \/ In key OBJECT_PROTOTYPE_KEYS.
Proof.
  unfold js_lookup.
  destruct (own_property table key) as [v |] eqn:Hown.
  - split; [| reflexivity]. intros _. left.
    induction table as [| [k a] rest IH]; [discriminate |].
    cbn [own_property] in Hown. cbn [map fst].
    destruct (String.eqb_spec key k) as [Heq | Hne]; [left; symmetry; exact Heq |].
    right. apply IH. exact Hown.
  - assert (Hnot : ~ In key (map fst table)).
    { induction table as [| [k a] rest IH]; [intros [] |].
      cbn [own_property] in Hown. cbn [map fst].
      destruct (String.eqb_spec key k) as [Heq | Hne]; [discriminate |].
      intros [Heq | Hin]; [congruence | exact (IH Hown Hin)]. }
    destruct (string_mem key OBJECT_PROTOTYPE_KEYS) eqn:Hproto.
    + split; [| reflexivity]. intros _. right. apply string_mem_In. exact Hproto.
    + split; [discriminate |]. intros [Hin | Hin]; [contradiction |].
      apply string_mem_In in Hin. congruence.
Qed.

(** X21.  The validator of frame preset ids accepts exactly the ids that
    have their own entry in the preset table, and the entry carries the id.
    The validators of blur intensities and of scale presets, which test
    with [in], accept the ids of their table and also every name inherited
    from [Object.prototype]; for such a name [getBlurConfig] hands out the
    inherited member, not a configuration. *)
Theorem validators_of_ids :
  forall id : string,
    (isValidPresetId id = true
     <-> exists preset,
           getFramePreset (num := num) id = Own preset
           /\ FramePresetConfig.id preset = id)
    /\ (isValidBlurIntensity (num := num) id = true
        <-> In id BLUR_INTENSITY_IDS \/ In id OBJECT_PROTOTYPE_KEYS)
    /\ (isValidScalePreset (num := num) id = true
        <-> In id SCALE_PRESET_IDS \/ In id OBJECT_PROTOTYPE_KEYS)
    /\ (In id OBJECT_PROTOTYPE_KEYS ->
        isValidBlurIntensity (num := num) id = true
        /\ isValidScalePreset (num := num) id = true
        /\ isValidPresetId id = false
        /\ getBlurConfig (num := num) id = Inherited id).
Proof.
  intros id. split; [| split; [| split]].
  - unfold isValidPresetId, getFramePreset, js_lookup, FRAME_PRESETS, VALID_PRESET_IDS,
      string_mem.
    cbn [own_property existsb].
    repeat match goal with
    | |- context [String.eqb id ?k] =>
        destruct (String.eqb_spec id k) as [-> | _];
        [cbn [orb]; split; [intros _; eexists; split; reflexivity | reflexivity] |]
    end.
    cbn [orb]. split; [discriminate |].
    intros (preset & Hlookup & _).
    destruct (existsb (String.eqb id) OBJECT_PROTOTYPE_KEYS); discriminate Hlookup.
  - unfold isValidBlurIntensity. apply js_lookup_found.
  - unfold isValidScalePreset. apply js_lookup_found.
  - intros Hproto.
    assert (Hblur : ~ In id BLUR_INTENSITY_IDS).
    { intros Hin. cbn in Hin, Hproto.
      repeat destruct Hin as [<- | Hin]; try contradiction;
        repeat destruct Hproto as [Hp | Hproto]; try discriminate Hp; contradiction. }
    split; [| split; [| split]].
    + unfold isValidBlurIntensity. apply js_lookup_found. right. exact Hproto.
    + unfold isValidScalePreset. apply js_lookup_found. right. exact Hproto.
    + unfold isValidPresetId. destruct (string_mem id VALID_PRESET_IDS) eqn:Hmem;
        [| reflexivity].
      apply string_mem_In in Hmem. cbn in Hmem, Hproto.
      repeat destruct Hmem as [<- | Hmem]; try contradiction;
        repeat destruct Hproto as [Hp | Hproto]; try discriminate Hp; contradiction.
    + rewrite (getBlurConfig_unknown (num := num) Hblur).
      apply string_mem_In in Hproto. rewrite Hproto. reflexivity.
Qed.

End ValidatorFacts.

Lemma validators_of_ids_witness :
  isValidBlurIntensity (num := Double.t) "constructor" = true
  /\ getBlurConfig (num := Double.t) "constructor" = Inherited "constructor"%string.
Proof.
  destruct (proj2 (proj2 (proj2 (@validators_of_ids Double.t _ "constructor"%string))))
    as (Hvalid & _ & _ & Hconfig).
  - simpl. tauto.
  - split; [exact Hvalid | exact Hconfig].
Defined.

(** ** The frame route (routes/frame.ts) *)

Section FrameRouteFacts.

Local Open Scope Q_scope.

Lemma valid_preset_entry (id : string) :
  isValidPresetId id = true ->
  exists preset : FramePresetConfig.t Q,
    js_lookup FRAME_PRESETS id = Own preset
    /\ 0 <= FramePresetConfig.insetOffset preset <= 20
    /\ (isDecorativePreset id = true \/ id = "none"%string).
Proof.
  unfold isValidPresetId. intros Hvalid. apply string_mem_In in Hvalid.
  cbn in Hvalid.
  destruct Hvalid as [<- | [<- | [<- | [<- | [<- | [<- | []]]]]]];
    (eexists; split; [reflexivity |]; split;
     [split; vm_compute; discriminate | first [left; reflexivity | right; reflexivity]]).
Qed.

Lemma valid_variant_name (name : string) :
  string_mem name VALID_LAYOUT_VARIANTS = true ->
  exists variant,
    layoutVariantNamed name = Some variant
    /\ getCanvasDimensions (num := Q) name
       = match getLayoutModeFromVariant variant with
         | landscape => (of_Z 1024, of_Z 768)
         | portrait => (of_Z 768, of_Z 1024)
         end.
Proof.
  intros Hvalid. apply string_mem_In in Hvalid. cbn in Hvalid.
  destruct Hvalid as [<- | [<- | [<- | [<- | []]]]];
    (eexists; split; reflexivity).
Qed.

Lemma optional_number_in_range (value : JsValue Q) (lo hi : Z) :
  negb (is_js_undefined value) && negb (is_js_number value) = false ->
  negb (is_js_undefined value)
  && (ltb (js_number_of value) (of_Z lo) || ltb (of_Z hi) (js_number_of value)) = false ->
  forall n, js_optional_number value = Some n -> inject_Z lo <= n <= inject_Z hi.
Proof.
  destruct value as [| | b | m | s |]; cbn; try discriminate.
  intros _ Hrange n Hn. injection Hn as <-.
  apply orb_false_elim in Hrange as [Hlo Hhi].
  apply exact_ltb_false in Hlo, Hhi. split; assumption.
Qed.

(** X22.  A request that [validateApplyFrameRequest] accepts reaches
    [renderFrame] clean: its preset id has an entry of its own in the
    preset table, its variant is one of the four and the card size handed
    over is the canvas of the variant's orientation, an inset it gives lies
    within 0..20 so that the clamp of [renderFrame] leaves it as it is, a
    thickness it gives lies within 15..30; and from a world with a faithful
    cache [renderFrame] then returns the card, framed unless the preset is
    'none', or fails for want of an asset file or of a readable image, or
    because [sharp] refuses a size or a place it is handed (the validator
    lets a fractional inset through, which leaves strip lengths that are
    not whole numbers), never for the id. *)
Theorem accepted_request_reaches_renderFrame_clean :
  forall request : ApplyFrameRequest.t Q,
    validateApplyFrameRequest request = None ->
    let options := applyFrameOptions request in
    exists preset variant,
      getFramePreset (FrameRenderOptions.presetId options) = Own preset
      /\ FrameRenderOptions.layoutVariant options = Some variant
      /\ (FrameRenderOptions.cardWidth options, FrameRenderOptions.cardHeight options)
         = match getLayoutModeFromVariant variant with
           | landscape => (of_Z 1024, of_Z 768)
           | portrait => (of_Z 768, of_Z 1024)
           end
      /\ frameInset options preset
         == nullish (FrameRenderOptions.insetOffset options)
                    (FramePresetConfig.insetOffset preset)
      /\ (forall thickness,
            FrameRenderOptions.borderThickness options = Some thickness ->
            15 <= thickness <= 30)
      /\ forall fs decode cardBuffer ws,
           hoare (frameWorld ws [])
             (renderFrame fs decode cardBuffer options)
             (fun framed w =>
                frameWorld ws [] w
                /\ (framed = cardBuffer \/ isFramed options preset cardBuffer framed))
             (fun e w => frameWorld ws [] w /\ frameFailure preset e).
Proof.
  intros request. unfold validateApplyFrameRequest. cbv zeta.
  destruct (negb (js_truthy (ApplyFrameRequest.cardImageUrl request))
            || negb (is_js_string (ApplyFrameRequest.cardImageUrl request)));
    [discriminate |].
  destruct (string_blank (js_string_of (ApplyFrameRequest.cardImageUrl request)));
    [discriminate |].
  destruct (negb (js_truthy (ApplyFrameRequest.framePresetId request))
            || negb (is_js_string (ApplyFrameRequest.framePresetId request)));
    [discriminate |].
  destruct (isValidPresetId (js_string_of (ApplyFrameRequest.framePresetId request)))
    eqn:Hpreset; [| discriminate].
  cbn [negb].
  destruct (negb (js_truthy (ApplyFrameRequest.layoutVariant request))
            || negb (is_js_string (ApplyFrameRequest.layoutVariant request)));
    [discriminate |].
  destruct (string_mem (js_string_of (ApplyFrameRequest.layoutVariant request))
              VALID_LAYOUT_VARIANTS) eqn:Hvariant; [| discriminate].
  cbn [negb].
  destruct (negb (is_js_undefined (ApplyFrameRequest.insetOffset request))
            && negb (is_js_number (ApplyFrameRequest.insetOffset request)))
    eqn:Hinset1; [discriminate |].
  destruct (negb (is_js_undefined (ApplyFrameRequest.insetOffset request))
            && (ltb (js_number_of (ApplyFrameRequest.insetOffset request)) (of_Z 0)
                || ltb (of_Z 20) (js_number_of (ApplyFrameRequest.insetOffset request))))
    eqn:Hinset2; [discriminate |].
  destruct (negb (is_js_undefined (ApplyFrameRequest.borderThickness request))
            && negb (is_js_number (ApplyFrameRequest.borderThickness request)))
    eqn:Hthick1; [discriminate |].
  destruct (negb (is_js_undefined (ApplyFrameRequest.borderThickness request))
            && (ltb (js_number_of (ApplyFrameRequest.borderThickness request)) (of_Z 15)
                || ltb (of_Z 30)
                     (js_number_of (ApplyFrameRequest.borderThickness request))))
    eqn:Hthick2; [discriminate |].
  intros _.
  destruct (valid_preset_entry _ Hpreset) as (preset & Hlookup & Hpinset & Hkind).
  destruct (valid_variant_name _ Hvariant) as (variant & Hnamed & Hcanvas).
  exists preset, variant.
  unfold applyFrameOptions.
  cbn [FrameRenderOptions.presetId FrameRenderOptions.layoutVariant
       FrameRenderOptions.cardWidth FrameRenderOptions.cardHeight
       FrameRenderOptions.insetOffset FrameRenderOptions.borderThickness].
  split; [exact Hlookup |]. split; [exact Hnamed |].
  split; [rewrite <- Hcanvas; symmetry; apply surjective_pairing |].
  split; [| split].
  - unfold frameInset. cbn [FrameRenderOptions.insetOffset].
    cbn [Math_max Math_min of_Z exact_number].
    change (inject_Z 0) with 0. change (inject_Z 20) with 20.
    pose proof (@optional_number_in_range _ 0 20 Hinset1 Hinset2) as Hrange.
    destruct (js_optional_number (ApplyFrameRequest.insetOffset request)) as [n |];
      cbn [nullish].
    + specialize (Hrange n eq_refl). apply clamp_inside; apply Hrange.
    + apply clamp_inside; apply Hpinset.
  - intros thickness Hthickness.
    exact (@optional_number_in_range _ 15 30 Hthick1 Hthick2 thickness Hthickness).
  - intros fs decode cardBuffer ws.
    unfold renderFrame. cbn [FrameRenderOptions.presetId]. rewrite Hlookup.
    destruct Hkind as [Hdecorative | Hnone].
    + rewrite Hdecorative. cbn [negb].
      destruct (preset_assets_supported _ Hlookup Hdecorative) as [Hcorner Hborder].
      eapply hoare_weaken.
      * apply hoare_renderFrame_decorative.
        -- rewrite Hcorner. discriminate.
        -- rewrite Hborder. discriminate.
      * intros w Hw. exact Hw.
      * intros framed w [Hw Hframed]. split; [| right; exact Hframed].
        eapply frameWorld_weaken; [| exact Hw]. intros p [].
      * intros e w He. exact He.
    + rewrite Hnone. cbn [isDecorativePreset String.eqb Ascii.eqb Bool.eqb negb].
      apply hoare_ret. intros w Hw. split; [exact Hw | left; reflexivity].
Qed.

End FrameRouteFacts.

Lemma accepted_request_reaches_renderFrame_clean_witness :
  let request : ApplyFrameRequest.t Q :=
    ApplyFrameRequest.mk (js_string "/generated/card.png") (js_string "cyber")
      (js_string "portrait-flat") (js_number 0%Q) js_undefined in
  exists preset,
    getFramePreset (FrameRenderOptions.presetId (applyFrameOptions request)) = Own preset
    /\ (frameInset (applyFrameOptions request) preset == 0)%Q.
Proof.
  intros request.
  destruct (@accepted_request_reaches_renderFrame_clean request eq_refl)
    as (preset & variant & Hlookup & _ & _ & Hinset & _).
  exists preset. split; [exact Hlookup | exact Hinset].
Defined.

(** An accepted request with an inset of 10.25 on the landscape card: the
    top strip would be 803.5 long, and [resize] refuses it. *)
Lemma fractional_inset_is_refused :
  let request : ApplyFrameRequest.t Q :=
    ApplyFrameRequest.mk (js_string "/generated/card.png") (js_string "cyber")
      (js_string "landscape-square") (js_number (41 # 4)%Q) js_undefined in
  validateApplyFrameRequest request = None
  /\ (stripLength (applyFrameOptions request) (presetNamed "cyber") border_top
      == 1607 # 2)%Q
  /\ fst (renderFrame cyberFiles (fun _ => Some (1024, 768)%Z) (Raw [Byte.x00])
            (applyFrameOptions request) emptyWorld)
     = Throw (InvalidParameter "width").
Proof. intros request. split; [| split]; vm_compute; reflexivity. Qed.

(** X23.  The range checks of [validateApplyFrameRequest] let NaN through:
    an accepted request stays accepted when its inset and thickness are
    replaced by NaN, and [renderFrame] then works with an inset and a
    placed thickness of NaN, the clamp of the inset included. *)
Theorem not_a_number_passes_the_range_checks :
  forall (request : ApplyFrameRequest.t Double.t) (preset : FramePresetConfig.t Double.t),
    validateApplyFrameRequest request = None ->
    validateApplyFrameRequest (withNotANumber request) = None
    /\ frameInset (applyFrameOptions (withNotANumber request)) preset = S754_nan
    /\ framePlacedThickness (applyFrameOptions (withNotANumber request)) preset
       = S754_nan.
Proof.
  intros request preset. unfold validateApplyFrameRequest, withNotANumber. cbv zeta.
  cbn [ApplyFrameRequest.cardImageUrl ApplyFrameRequest.framePresetId
       ApplyFrameRequest.layoutVariant ApplyFrameRequest.insetOffset
       ApplyFrameRequest.borderThickness].
  destruct (negb (js_truthy (ApplyFrameRequest.cardImageUrl request))
            || negb (is_js_string (ApplyFrameRequest.cardImageUrl request)));
    [discriminate |].
  destruct (string_blank (js_string_of (ApplyFrameRequest.cardImageUrl request)));
    [discriminate |].
  destruct (negb (js_truthy (ApplyFrameRequest.framePresetId request))
            || negb (is_js_string (ApplyFrameRequest.framePresetId request)));
    [discriminate |].
  destruct (negb (isValidPresetId
                    (js_string_of (ApplyFrameRequest.framePresetId request))));
    [discriminate |].
  destruct (negb (js_truthy (ApplyFrameRequest.layoutVariant request))
            || negb (is_js_string (ApplyFrameRequest.layoutVariant request)));
    [discriminate |].
  destruct (negb (string_mem (js_string_of (ApplyFrameRequest.layoutVariant request))
                    VALID_LAYOUT_VARIANTS));
    [discriminate |].
  intros _. split; [reflexivity |].
  unfold frameInset, framePlacedThickness, frameScale, applyFrameOptions.
  cbn [FrameRenderOptions.insetOffset FrameRenderOptions.borderThickness
       FrameRenderOptions.layoutVariant js_optional_number nullish].
  split; [reflexivity |].
  destruct (layoutVariantNamed (js_string_of (ApplyFrameRequest.layoutVariant request)))
    as [[| | |] |]; reflexivity.
Qed.

Lemma not_a_number_passes_the_range_checks_witness :
  let request : ApplyFrameRequest.t Double.t :=
    ApplyFrameRequest.mk (js_string "/generated/card.png") (js_string "cyber")
      (js_string "portrait-flat") js_undefined js_undefined in
  validateApplyFrameRequest (withNotANumber request) = None.
Proof.
  intros request.
  exact (proj1 (@not_a_number_passes_the_range_checks request (presetNamed "cyber")
                  eq_refl)).
Defined.

(** ** The stops of a gradient (borderRenderer.ts) *)

Section GradientFacts.

Local Open Scope Q_scope.

Lemma inject_Z_sub (a b : Z) : inject_Z (a - b) == inject_Z a - inject_Z b.
Proof. unfold Z.sub. rewrite inject_Z_plus, inject_Z_opp. reflexivity. Qed.

Lemma gradient_stops_from (colors : list string) (n : Q) :
  forall (start : nat) (i : nat) (offset : Q) (color : string),
    nth_error
      (map (fun ic : nat * string =>
              (inject_Z (Z.of_nat (fst ic)) / (n - 1) * 100, snd ic))
           (combine (seq start (List.length colors)) colors)) i
    = Some (offset, color) ->
    nth_error colors i = Some color
    /\ offset = inject_Z (Z.of_nat (start + i)) / (n - 1) * 100.
Proof.
  induction colors as [| c rest IH]; intros start i offset color Hnth.
  - destruct i; discriminate Hnth.
  - cbn [List.length seq combine map fst snd] in Hnth.
    destruct i as [| i].
    + cbn [nth_error] in Hnth. injection Hnth as <- <-.
      rewrite Nat.add_0_r. split; reflexivity.
    + cbn [nth_error] in Hnth |- *.
      destruct (IH (S start) i offset color Hnth) as [Hcolor Hoffset].
      split; [exact Hcolor |].
      rewrite Hoffset. replace (S start + i)%nat with (start + S i)%nat by lia.
      reflexivity.
Qed.

(** X24.  [generateGradientStops] yields one stop for each colour, in
    order.  With two colours or more the offsets run evenly from 0 to 100
    percent: the stop of index [i] stands at [100 i / (n - 1)].  With a
    single colour the offset is 0/0: on doubles, NaN. *)
Theorem gradient_stops_span_the_line :
  (forall colors : list string,
      (2 <= List.length colors)%nat ->
      let n := inject_Z (Z.of_nat (List.length colors)) in
      List.length (generateGradientStops (num := Q) colors) = List.length colors
      /\ forall i offset color,
           nth_error (generateGradientStops (num := Q) colors) i = Some (offset, color) ->
           nth_error colors i = Some color
           /\ offset == 100 * inject_Z (Z.of_nat i) / (n - 1)
           /\ 0 <= offset <= 100
           /\ (offset == 0 <-> i = 0%nat)
           /\ (offset == 100 <-> S i = List.length colors))
  /\ (forall color : string,
        generateGradientStops (num := Double.t) [color] = [(S754_nan, color)]).
Proof.
  split; [| intros color; reflexivity].
  intros colors Hlen n.
  unfold generateGradientStops, indexed.
  split; [rewrite length_map, length_combine, length_seq; lia |].
  intros i offset color Hnth.
  cbn [of_Z div sub mul exact_number] in Hnth.
  change (inject_Z 1) with 1 in Hnth. change (inject_Z 100) with 100 in Hnth.
  fold n in Hnth.
  destruct (gradient_stops_from colors n 0 i Hnth) as [Hcolor Hoffset].
  cbn [Nat.add] in Hoffset.
  assert (Hi : (i < List.length colors)%nat).
  { apply nth_error_Some. rewrite Hcolor. discriminate. }
  assert (Hn : 2 <= n).
  { unfold n. change 2 with (inject_Z 2). rewrite <- Zle_Qle. lia. }
  assert (Hin : 0 <= inject_Z (Z.of_nat i) <= n - 1).
  { unfold n. split.
    - change 0 with (inject_Z 0). rewrite <- Zle_Qle. lia.
    - change 1 with (inject_Z 1). rewrite <- inject_Z_sub, <- Zle_Qle. lia. }
  set (q := inject_Z (Z.of_nat i)) in *.
  assert (Hpos : 0 < n - 1) by lra.
  assert (Hoff : offset * (n - 1) == 100 * q).
  { rewrite Hoffset. field. lra. }
  split; [exact Hcolor |].
  split; [rewrite Hoffset; field; lra |].
  split; [split; nra |].
  split.
  - split.
    + intros Hzero. rewrite Hzero in Hoff.
      assert (Hq : q == 0) by lra.
      unfold q in Hq. change 0 with (inject_Z 0) in Hq.
      apply (proj1 (inject_Z_injective _ _)) in Hq. lia.
    + intros ->. rewrite Hoffset. unfold q. change (inject_Z (Z.of_nat 0)) with 0.
      field. lra.
  - split.
    + intros Hfull. rewrite Hfull in Hoff.
      assert (Hq : q == n - 1) by lra.
      unfold q, n in Hq. change 1 with (inject_Z 1) in Hq.
      rewrite <- inject_Z_sub in Hq. apply (proj1 (inject_Z_injective _ _)) in Hq. lia.
    + intros Hlast.
      assert (Hq : q == n - 1).
      { unfold q, n. change 1 with (inject_Z 1).
        rewrite <- inject_Z_sub. rewrite <- Hlast.
        replace (Z.of_nat (S i) - 1)%Z with (Z.of_nat i) by lia. reflexivity. }
      rewrite Hoffset, Hq. field. lra.
Qed.

End GradientFacts.

Lemma gradient_stops_span_the_line_witness :
  List.length (generateGradientStops (num := Q) ["#000000"; "#FFFFFF"]%string) = 2%nat.
Proof.
  apply (proj1 (proj1 gradient_stops_span_the_line ["#000000"; "#FFFFFF"]%string
                  (le_n 2))).
Defined.

(** ** What the border validation looks at *)

Section ValidationFacts.

Context {num : Type} `{JsNumber num}.

Lemma forallb_pointwise {A} (f g : A -> bool) (l : list A) :
  (forall a, f a = g a) -> forallb f l = forallb g l.
Proof.
  intros Hfg. induction l as [| a rest IH]; [reflexivity |].
  cbn [forallb]. rewrite Hfg, IH. reflexivity.
Qed.

Lemma no_issue_app (a b : list LayoutIssue) :
  no_issue (a ++ b) = no_issue a && no_issue b.
Proof. destruct a; reflexivity. Qed.

Lemma no_issue_flat_map {A} (f : A -> list LayoutIssue) (l : list A) :
  no_issue (flat_map f l) = forallb (fun a => no_issue (f a)) l.
Proof.
  induction l as [| a rest IH]; [reflexivity |].
  cbn [flat_map forallb]. rewrite no_issue_app, IH. reflexivity.
Qed.

Lemma no_issue_if (c : bool) (issue : LayoutIssue) :
  no_issue (if negb c then [issue] else []) = c.
Proof. destruct c; reflexivity. Qed.

(** The verdict of [validateLayoutBorders] as the conjunction of its
    checks. *)
Lemma validateLayoutBorders_checks (layout : LayoutConfig.t num)
  (glowConfig : option (OuterGlowConfig.t num)) :
  let canvas := LayoutConfig.canvas layout in
  let contentBoxes := map (@TextBoxRect.rect num) (LayoutConfig.contentBoxes layout) in
  let titleBox := TextBoxRect.rect (LayoutConfig.titleBox layout) in
  let artworkDims := getArtworkBorderDimensions glowConfig in
  let textBoxDims := getTextBoxBorderDimensions glowConfig in
  let within frame dims :=
    validateBorderWithinCanvas frame dims (Canvas.width canvas) (Canvas.height canvas) in
  LayoutValidation.valid (validateLayoutBorders layout glowConfig)
  = within (LayoutConfig.artworkFrame layout) artworkDims
    && (within titleBox textBoxDims
        && (forallb (fun ib : nat * FrameRect.t num => within (snd ib) textBoxDims)
                    (indexed contentBoxes)
            && (validateBorderGap (LayoutConfig.artworkFrame layout) titleBox
                  artworkDims textBoxDims MIN_BORDER_GAP
                && (forallb (fun ib : nat * FrameRect.t num =>
                               validateBorderGap titleBox (snd ib) textBoxDims
                                 textBoxDims MIN_BORDER_GAP)
                            (indexed contentBoxes)
                    && forallb (fun ib : nat * FrameRect.t num =>
                         forallb (fun jb : nat * FrameRect.t num =>
                                    negb (fst ib <? fst jb)%nat
                                    || validateBorderGap (snd ib) (snd jb) textBoxDims
                                         textBoxDims MIN_BORDER_GAP)
                                 (indexed contentBoxes))
                         (indexed contentBoxes))))).
Proof.
  cbv zeta. unfold validateLayoutBorders. cbv zeta.
  cbn [LayoutValidation.valid].
  change (match ?e with [] => true | _ :: _ => false end) with (no_issue e).
  rewrite !no_issue_app, !no_issue_flat_map, !no_issue_if.
  f_equal. f_equal.
  f_equal; [apply forallb_pointwise; intros ib; apply no_issue_if |].
  f_equal.
  f_equal; [apply forallb_pointwise; intros ib; apply no_issue_if |].
  apply forallb_pointwise. intros ib. rewrite no_issue_flat_map.
  apply forallb_pointwise. intros jb.
  destruct (fst ib <? fst jb)%nat; cbn [andb negb orb]; [apply no_issue_if | reflexivity].
Qed.

(** X25.  [validateLayoutBorders] looks at the illustration frame against
    the canvas and against the title box only, never against a content
    box: two layouts that differ in the illustration frame alone get the
    same verdict as soon as the two frames fare alike in these two
    checks. *)
Theorem validation_ignores_illustration_against_content :
  forall (layout : LayoutConfig.t num) (artworkFrame : FrameRect.t num)
         (glowConfig : option (OuterGlowConfig.t num)),
    validateBorderWithinCanvas artworkFrame (getArtworkBorderDimensions glowConfig)
      (Canvas.width (LayoutConfig.canvas layout))
      (Canvas.height (LayoutConfig.canvas layout))
    = validateBorderWithinCanvas (LayoutConfig.artworkFrame layout)
        (getArtworkBorderDimensions glowConfig)
        (Canvas.width (LayoutConfig.canvas layout))
        (Canvas.height (LayoutConfig.canvas layout)) ->
    validateBorderGap artworkFrame (TextBoxRect.rect (LayoutConfig.titleBox layout))
      (getArtworkBorderDimensions glowConfig) (getTextBoxBorderDimensions glowConfig)
      MIN_BORDER_GAP
    = validateBorderGap (LayoutConfig.artworkFrame layout)
        (TextBoxRect.rect (LayoutConfig.titleBox layout))
        (getArtworkBorderDimensions glowConfig) (getTextBoxBorderDimensions glowConfig)
        MIN_BORDER_GAP ->
    LayoutValidation.valid
      (validateLayoutBorders (withArtworkFrame layout artworkFrame) glowConfig)
    = LayoutValidation.valid (validateLayoutBorders layout glowConfig).
Proof.
  intros layout artworkFrame glowConfig Hwithin Hgap.
  rewrite !validateLayoutBorders_checks. cbv zeta.
  unfold withArtworkFrame.
  cbn [LayoutConfig.canvas LayoutConfig.artworkFrame LayoutConfig.titleBox
       LayoutConfig.contentBoxes].
  rewrite Hwithin, Hgap. reflexivity.
Qed.

End ValidationFacts.

(** The landscape layout validates although its illustration frame, moved
    and widened, covers the first content box. *)
Lemma validation_ignores_illustration_against_content_witness :
  LayoutValidation.valid (validateLayoutBorders overlappingLayout None) = true
  /\ validateBorderGap (LayoutConfig.artworkFrame overlappingLayout)
       (FrameRect.mk 480 190 227 244)
       (getArtworkBorderDimensions None) (getTextBoxBorderDimensions None)
       MIN_BORDER_GAP = false.
Proof.
  split; [| vm_compute; reflexivity].
  unfold overlappingLayout.
  rewrite (@validation_ignores_illustration_against_content Q _ LANDSCAPE_LAYOUT
             (FrameRect.mk 40 180 600 548) None);
    vm_compute; reflexivity.
Defined.

(** ** The estimate of the font loop and the lines that are drawn *)

Section TextBlockFacts.

(** The loop of [calculateFontSize] returns a size above the floor only
    when the text fits at that size. *)
Lemma calculateFontSize_loop_fits {num : Type} `{JsNumber num} (fuel : nat) :
  forall (text : jsstring) (lineHeight boxWidth boxHeight fontSize result : num),
    calculateFontSize_loop fuel text lineHeight boxWidth boxHeight fontSize
    = Some result ->
    ltb MIN_FONT_SIZE result = true ->
    fitsBox text lineHeight boxWidth boxHeight result = true.
Proof.
  induction fuel as [| fuel IH]; intros text lineHeight boxWidth boxHeight fontSize
    result Hrun Habove; [discriminate |].
  cbn [calculateFontSize_loop] in Hrun.
  destruct (ltb MIN_FONT_SIZE fontSize) eqn:Hgt.
  - fold (fitsBox text lineHeight boxWidth boxHeight fontSize) in Hrun.
    destruct (fitsBox text lineHeight boxWidth boxHeight fontSize) eqn:Hfit.
    + injection Hrun as <-. exact Hfit.
    + exact (IH _ _ _ _ _ _ Hrun Habove).
  - injection Hrun as <-. congruence.
Qed.

Local Open Scope Q_scope.

(** X26.  On exact numbers, when [calculateFontSize] settles on a size
    above the floor of 24 and a line takes one character at least, the
    lines [wrapText] returns at that size, set at the line height of
    [createTextSvg], are no higher than the box less its 20px of padding in
    a content box, and than 14/13 of that in the title box, whose fit the
    loop reckons at a line height of 1.3 while it is drawn at 1.4.  The room
    left above the block, which is also the room left below it, is then 10px
    at least in a content box, and (280 - height) / 26 at least in the title
    box. *)
Theorem drawn_lines_fit_the_estimate :
  forall (text : jsstring) (boxId : string) (boxWidth boxHeight fontSize : Q) (z : Z),
    calculateFontSize text boxId boxWidth boxHeight = Some fontSize ->
    24 < fontSize ->
    maxCharsPerLine boxWidth fontSize = XFin z ->
    (1 <= z)%Z ->
    exists lines,
      wrapText text boxWidth fontSize = Some lines
      /\ createTextSvg_totalTextHeight lines fontSize
         <= (if String.eqb boxId "title" then (boxHeight - 20) * (14 # 13)
             else boxHeight - 20)
      /\ (if String.eqb boxId "title" then (280 - boxHeight) / 26 else 10)
         <= createTextSvg_startY lines boxHeight fontSize - fontSize * (8 # 10).
Proof.
  intros text boxId boxWidth boxHeight fontSize z Hsize Habove Hmax Hz.
  unfold calculateFontSize in Hsize.
  destruct (calculateFontSize_loop FONT_SIZE_FUEL text
              (if String.eqb boxId "title" then TITLE_LINE_HEIGHT
               else CONTENT_LINE_HEIGHT)
              boxWidth boxHeight (getFontSizeForBox boxId)) as [result |] eqn:Hloop;
    [| discriminate].
  injection Hsize as Hsize.
  assert (Hresult : result = fontSize).
  { revert Hsize. cbn [Math_max MIN_FONT_SIZE of_Z exact_number].
    change (inject_Z 24) with 24.
    unfold Qmax, GenericMinMax.gmax.
    destruct (result ?= 24); intros <-; try reflexivity; lra. }
  subst result.
  apply calculateFontSize_loop_fits in Hloop.
  2:{ cbn [ltb MIN_FONT_SIZE of_Z exact_number]. apply exact_ltb_true. exact Habove. }
  unfold fitsBox in Hloop.
  unfold wrapText, wrapText_fuel, calculateTextLines in *. rewrite Hmax in *.
  destruct (@wrapText_paragraphs_total (XFin z) (S (List.length text)))
    with (paragraphs := split_lines text) (lines := @nil jsstring)
    as (lines & Hrun & _).
  { cbn [xint_leb]. apply Z.leb_le. exact Hz. }
  { eapply Forall_impl; [| apply split_lines_length]. simpl. intros; lia. }
  { constructor. }
  exists lines. split; [exact Hrun |].
  rewrite (@wrapText_paragraphs_count z _ Hz _ _ _ 0%Z Hrun) in Hloop.
  cbn [List.length Z.of_nat] in Hloop.
  replace (0 + (Z.of_nat (List.length lines) - 0))%Z
    with (Z.of_nat (List.length lines)) in Hloop by lia.
  cbn [of_xint leb mul sub of_Z exact_number Exact.of_xint] in Hloop.
  apply Qle_bool_iff in Hloop. change (inject_Z 20) with 20 in Hloop.
  unfold createTextSvg_startY, createTextSvg_totalTextHeight, createTextSvg_lineHeight.
  cbn [mul sub add div of_Z frac exact_number].
  change (Exact.frac 14 10) with (14 # 10). change (Exact.frac 8 10) with (8 # 10).
  change (inject_Z 2) with 2.
  set (n := inject_Z (Z.of_nat (List.length lines))) in *.
  assert (Hn : 0 <= n).
  { unfold n. change 0 with (inject_Z 0). rewrite <- Zle_Qle. lia. }
  unfold Qdiv. change (/ 2) with (1 # 2). change (/ 26) with (1 # 26).
  destruct (String.eqb boxId "title").
  - change (TITLE_LINE_HEIGHT (num := Q)) with (13 # 10) in Hloop.
    assert (Hnf : 0 <= n * fontSize) by (apply Qmult_le_0_compat; lra).
    split; lra.
  - change (CONTENT_LINE_HEIGHT (num := Q)) with (14 # 10) in Hloop.
    split; lra.
Qed.

End TextBlockFacts.

Lemma drawn_lines_fit_the_estimate_witness :
  let text := js_of_string "hello world" in
  exists lines,
    wrapText text 227%Q 36%Q = Some lines
    /\ (createTextSvg_totalTextHeight lines 36 <= 244 - 20)%Q.
Proof.
  intros text.
  destruct (@drawn_lines_fit_the_estimate text "content1" 227%Q 244%Q 36%Q 6%Z)
    as (lines & Hlines & Hheight & _).
  - vm_compute. reflexivity.
  - reflexivity.
  - vm_compute. reflexivity.
  - lia.
  - exists lines. split; [exact Hlines | exact Hheight].
Defined.

(** ** A sized load (assetLoader.ts) *)

Section SizedLoadFacts.

Context {num : Type} `{JsNumber num}.

Lemma hoare_loadAsset_any fs (decode : Buffer num -> option (Z * Z)) ws
  (loaded : list string) (assetPath : string) :
  hoare (frameWorld ws loaded) (loadAsset fs decode assetPath)
    (fun buffer w => frameWorld ws (assetPath :: loaded) w
                     /\ buffer = AssetFile assetPath)
    (fun e w => frameWorld ws loaded w
                /\ (e = ASSET_NOT_FOUND (Some assetPath)
                    \/ e = UnsupportedAssetFormat assetPath
                    \/ e = UnsupportedImage)).
Proof.
  intros w (Hfaithful & Hws & Hloaded).
  destruct (own_property (World.assetCache w) assetPath) as [b |] eqn:Hlookup.
  - rewrite (loadAsset_hit fs decode _ _ Hlookup).
    split; [| exact (Hfaithful _ _ Hlookup)].
    split; [exact Hfaithful |]. split; [exact Hws |].
    constructor; [unfold cached; rewrite Hlookup; reflexivity | exact Hloaded].
  - assert (Hnew : frameWorld ws (assetPath :: loaded)
                     (World.mk ((assetPath, AssetFile assetPath) :: World.assetCache w)
                               (World.warnings w))).
    { split; [| split; [exact Hws |]].
      - intros q b. cbn [World.assetCache own_property].
        destruct (String.eqb_spec q assetPath) as [-> | Hne].
        + intros E. injection E as <-. reflexivity.
        + apply Hfaithful.
      - constructor.
        + unfold cached. cbn [World.assetCache]. rewrite own_property_head. reflexivity.
        + eapply Forall_impl; [| exact Hloaded].
          intros q Hq. unfold cached in *. cbn [World.assetCache own_property].
          destruct (String.eqb q assetPath); [reflexivity | exact Hq]. }
    assert (Hold : frameWorld ws loaded w) by (repeat split; assumption).
    unfold loadAsset, bind, cache_get. rewrite Hlookup.
    destruct (negb (validateAssetExists fs assetPath)).
    { cbn [throw]. split; [exact Hold | tauto]. }
    destruct (getAssetFormat assetPath).
    + unfold sharp_input. destruct (decode (AssetFile assetPath)); cbn [ret throw cache_set].
      * split; [exact Hnew | reflexivity].
      * split; [exact Hold | tauto].
    + cbn [ret cache_set]. split; [exact Hnew | reflexivity].
    + cbn [throw]. split; [exact Hold | tauto].
Qed.


End SizedLoadFacts.

(** ** Options of [composeCard] that change nothing *)

(** X28.  The border preset of a request changes nothing in what
    [composeCard] returns or leaves behind: the style read from it is never
    handed to a border generator.  Nor does the layout mode, as soon as the
    request names a layout variant. *)
Theorem composeCard_ignores_border_preset :
  forall {num : Type} `{JsNumber num} (decode : Buffer num -> option (Z * Z))
         (options : ComposeCardOptions.t num)
         (borderPreset : option BorderPreset) (layoutMode : option LayoutMode)
         (w : World.t num),
    composeCard decode
      (withPresetAndMode options borderPreset (ComposeCardOptions.layoutMode options)) w
    = composeCard decode options w
    /\ (ComposeCardOptions.layoutVariant options <> None ->
        composeCard decode (withPresetAndMode options borderPreset layoutMode) w
        = composeCard decode options w).
Proof.
  intros num Hnum decode options borderPreset layoutMode w.
  destruct options as [bg art texts color mode variant preset texture blur glow scale crop].
  split; [reflexivity |].
  cbn [ComposeCardOptions.layoutVariant]. intros Hvariant.
  destruct variant as [variant |]; [reflexivity | contradiction].
Qed.

Lemma composeCard_ignores_border_preset_witness :
  composeCard decodeAll (withPresetAndMode crowdedOptions (Some gold) (Some portrait))
    emptyWorld
  = composeCard decodeAll crowdedOptions emptyWorld.
Proof.
  apply (proj2 (@composeCard_ignores_border_preset Double.t _ decodeAll crowdedOptions
                  (Some gold) (Some portrait) emptyWorld)).
  discriminate.
Defined.

(** ** What every operation on the cache keeps *)

Section CacheInvariant.

Context {num : Type} `{JsNumber num}.

Lemma keeps_from_hoare {A} (m : M num A) Q :
  (forall ws, hoare (frameWorld ws []) m (fun a w => frameWorld ws (Q a) w)
                (fun _ w => frameWorld ws [] w)) ->
  keepsCacheFaithful m.
Proof.
  intros Hm w Hw.
  specialize (Hm (World.warnings w) w).
  assert (Hpre : frameWorld (World.warnings w) [] w).
  { split; [exact Hw | split; [reflexivity | constructor]]. }
  specialize (Hm Hpre).
  destruct (m w) as [[a | e |] w1]; cbn [snd].
  - destruct Hm as (Hf & Hws & _). split; assumption.
  - destruct Hm as (Hf & Hws & _). split; assumption.
  - contradiction.
Qed.

Lemma keeps_loadAsset fs (decode : Buffer num -> option (Z * Z)) (assetPath : string) :
  keepsCacheFaithful (loadAsset fs decode assetPath).
Proof.
  apply keeps_from_hoare with (Q := fun _ => [assetPath]).
  intros ws. eapply hoare_weaken; [apply hoare_loadAsset_any | | |].
  - intros w Hw. exact Hw.
  - intros b w [Hw _]. exact Hw.
  - intros e w [Hw _]. exact Hw.
Qed.

Lemma keeps_ret {A} (a : A) : keepsCacheFaithful (ret (num := num) a).
Proof. intros w Hw. split; [exact Hw | reflexivity]. Qed.

Lemma keeps_bind {A B} (m : M num A) (f : A -> M num B) :
  keepsCacheFaithful m ->
  (forall a, keepsCacheFaithful (f a)) ->
  keepsCacheFaithful (bind m f).
Proof.
  intros Hm Hf w Hw. unfold bind.
  specialize (Hm w Hw).
  destruct (m w) as [[a | e |] w1]; cbn [snd] in *; try exact Hm.
  destruct Hm as [Hf1 Hws1].
  destruct (Hf a w1 Hf1) as [Hf2 Hws2].
  split; [exact Hf2 | exact (eq_trans Hws2 Hws1)].
Qed.

Lemma keeps_try_catch {A} (m : M num A) (handler : Error -> M num A) :
  keepsCacheFaithful m ->
  (forall e, keepsCacheFaithful (handler e)) ->
  keepsCacheFaithful (try_catch m handler).
Proof.
  intros Hm Hh w Hw. unfold try_catch.
  specialize (Hm w Hw).
  destruct (m w) as [[a | e |] w1]; cbn [snd] in *; try exact Hm.
  destruct Hm as [Hf1 Hws1].
  destruct (Hh e w1 Hf1) as [Hf2 Hws2].
  split; [exact Hf2 | exact (eq_trans Hws2 Hws1)].
Qed.

Lemma keeps_foldM {A B} (f : A -> B -> M num A) (l : list B) :
  (forall a b, keepsCacheFaithful (f a b)) ->
  forall a, keepsCacheFaithful (foldM f l a).
Proof.
  intros Hf. induction l as [| b rest IH]; intros a; cbn [foldM].
  - apply keeps_ret.
  - apply keeps_bind; [apply Hf | exact IH].
Qed.

(** X29.  Every operation on the asset cache keeps it faithful (each
    entry holds the asset of its own path) and writes no warning:
    [loadAsset], [loadAssetWithSize], [preloadAssets], [clearAssetCache],
    and [renderFrame] on any preset id, known or not. *)
Theorem cache_stays_faithful :
  forall fs (decode : Buffer num -> option (Z * Z)),
    (forall assetPath, keepsCacheFaithful (loadAsset fs decode assetPath))
    /\ (forall assetPath width height,
          keepsCacheFaithful (loadAssetWithSize fs decode assetPath width height))
    /\ (forall assetPaths, keepsCacheFaithful (preloadAssets fs decode assetPaths))
    /\ keepsCacheFaithful (clearAssetCache (num := num))
    /\ (forall cardBuffer options,
          keepsCacheFaithful (renderFrame fs decode cardBuffer options)).
Proof.
  intros fs decode. split; [| split; [| split; [| split]]].
  - intros assetPath. apply keeps_loadAsset.
  - intros assetPath width height. unfold loadAssetWithSize.
    apply keeps_bind; [apply keeps_loadAsset |]. intros buffer.
    apply keeps_bind;
      [| intros image; apply keeps_bind; [| intros u; apply keeps_ret]].
    + intros w Hw. unfold sharp_resize.
      destruct (negb (isPositiveInteger width));
        [| destruct (negb (isPositiveInteger height))];
        (split; [exact Hw | reflexivity]).
    + intros w Hw. unfold sharp_input.
      destruct (decode buffer); (split; [exact Hw | reflexivity]).
  - intros assetPaths. unfold preloadAssets. apply keeps_foldM.
    intros results assetPath. apply keeps_try_catch.
    + apply keeps_bind; [apply keeps_loadAsset | intros _; apply keeps_ret].
    + intros e. apply keeps_ret.
  - intros w Hw. cbn [clearAssetCache snd World.warnings].
    split; [| reflexivity]. intros p b Hb. discriminate Hb.
  - intros cardBuffer options. unfold renderFrame.
    destruct (js_lookup FRAME_PRESETS (FrameRenderOptions.presetId options))
      as [preset | key |] eqn:Hlookup.
    + destruct (isDecorativePreset (FrameRenderOptions.presetId options)) eqn:Hdecorative;
        cbn [negb].
      * destruct (preset_assets_supported _ Hlookup Hdecorative) as [Hcorner Hborder].
        apply keeps_from_hoare
          with (Q := fun _ => [FramePresetConfig.cornerAsset preset]).
        intros ws. eapply hoare_weaken.
        -- apply hoare_renderFrame_decorative.
           ++ rewrite Hcorner. discriminate.
           ++ rewrite Hborder. discriminate.
        -- intros w Hw. exact Hw.
        -- intros framed w [Hw _]. exact Hw.
        -- intros e w [Hw _]. exact Hw.
      * intros w Hw. split; [exact Hw | reflexivity].
    + destruct (negb (isDecorativePreset (FrameRenderOptions.presetId options)));
        intros w Hw; (split; [exact Hw | reflexivity]).
    + intros w Hw. split; [exact Hw | reflexivity].
Qed.

End CacheInvariant.
